(** * CashCrawler: the transaction archive reconciliation engine

    A shallow embedding of [src/lib/storage.ts] (archive files, the CSV
    merger, the freshness guard) and of
    [src/connectors/caisse-epargne/transactions.ts] (credential resolver,
    download-request manager, export fetcher), with the properties the
    specification states about them; then of the code around them: the
    balance snapshots and the temporary directory of [storage.ts], the
    digit map of [src/lib/ocr.ts], the click loop of
    [src/connectors/caisse-epargne/login.ts] and the extractors of
    [src/connectors/caisse-epargne/balances.ts].

    JavaScript strings are sequences of UTF-16 code units: [list N].
    Built-ins of the language whose tables are too large to write down
    (Unicode normalisation, full case mapping, the JSON grammar) are
    Section variables; everything else is an executable definition. *)

From Stdlib Require Import ZArith NArith List Bool Ascii String Lia.
From Stdlib Require Import Permutation Sorted.
From stdpp Require Import base tactics option list gmap.

Local Open Scope Z_scope.

(* ===================================================================== *)
(** ** JavaScript strings *)
(* ===================================================================== *)

Abbreviation jsstring := (list N).

(** A string literal of the source, as code units (ASCII literals only). *)
Definition lit (s : string) : list N :=
  List.map N_of_ascii (list_ascii_of_string s).

(** Truthiness of a string: the empty string is falsy. *)
Definition truthy_str (s : list N) : bool :=
  match s with [] => false | _ => true end.

(** [WhiteSpace] and [LineTerminator] code units of ECMAScript: what
    [String.prototype.trim] strips and what [\s] matches. *)
Definition isWhiteSpace (c : N) : bool :=
  ((c =? 9) || (c =? 10) || (c =? 11) || (c =? 12) || (c =? 13)
   || (c =? 32) || (c =? 160) || (c =? 5760)
   || ((8192 <=? c) && (c <=? 8202))
   || (c =? 8232) || (c =? 8233) || (c =? 8239) || (c =? 8287)
   || (c =? 12288) || (c =? 65279))%N.

Fixpoint trimStart (s : list N) : list N :=
  match s with
  | c :: s' => if isWhiteSpace c then trimStart s' else s
  | [] => []
  end.

Definition trimEnd (s : list N) : list N := rev (trimStart (rev s)).

(** [s.trim()] *)
Definition trim (s : list N) : list N := trimEnd (trimStart s).

(** [s.split(sep)] for a separator of one code unit. The result is never
    empty: [("").split(sep)] is [[""]]. *)
Fixpoint str_split (sep : N) (s : list N) : list (list N) :=
  match s with
  | [] => [[]]
  | c :: s' =>
      if (c =? sep)%N then [] :: str_split sep s'
      else match str_split sep s' with
           | w :: ws => (c :: w) :: ws
           | [] => [[c]]
           end
  end.

(** [l.join(sep)] *)
Fixpoint str_join (sep : list N) (l : list (list N)) : list N :=
  match l with
  | [] => []
  | [x] => x
  | x :: xs => x ++ sep ++ str_join sep xs
  end.

Definition startsWith (p s : list N) : bool :=
  bool_decide (take (length p) s = p).

Definition endsWith (p s : list N) : bool :=
  bool_decide (drop (length s - length p) s = p) && (length p <=? length s)%nat.

Definition isDigit (c : N) : bool := ((48 <=? c) && (c <=? 57))%N.
Definition isUpper (c : N) : bool := ((65 <=? c) && (c <=? 90))%N.
Definition isLower (c : N) : bool := ((97 <=? c) && (c <=? 122))%N.

(** Value of a string of decimal digits, most significant first. *)
Definition digitsValue (s : list N) : Z :=
  fold_left (fun acc c => 10 * acc + (Z.of_N c - 48)) s 0.

(** [Number(s)] on the decimal fragment of [StringNumericLiteral]: leading
    and trailing white space is ignored, the empty string is [0], a run of
    decimal digits is its value. [None] is [NaN]. Signs, fractions,
    exponents, [Infinity] and radix prefixes are not represented (they are
    answered [NaN] here); no statement below about the order of rows
    applies to fields of those forms. *)
Definition Number (s : list N) : option Z :=
  let t := trim s in
  if forallb isDigit t then Some (digitsValue t) else None.

(* ===================================================================== *)
(** ** Dates: [new Date(year, monthIndex, day).getTime()] *)
(* ===================================================================== *)

Definition msPerDay : Z := 86400000.

(** ECMAScript [DayFromYear]. *)
Definition DayFromYear (y : Z) : Z :=
  365 * (y - 1970) + (y - 1969) / 4 - (y - 1901) / 100 + (y - 1601) / 400.

Definition InLeapYear (y : Z) : bool :=
  (y mod 4 =? 0) && (negb (y mod 100 =? 0) || (y mod 400 =? 0)).

(** Days before the first of month [mn] (0 = January) in a year. *)
Definition monthStart (leap : bool) (mn : Z) : Z :=
  nth (Z.to_nat mn) [0; 31; 59; 90; 120; 151; 181; 212; 243; 273; 304; 334] 0
  + (if leap && (2 <=? mn) then 1 else 0).

(** ECMAScript [MakeDay]: the month index may lie outside 0..11 and the
    day outside the month; both roll over. *)
Definition MakeDay (year month date : Z) : Z :=
  let ym := year + month / 12 in
  let mn := month mod 12 in
  DayFromYear ym + monthStart (InLeapYear ym) mn + date - 1.

(** ECMAScript [TimeClip]; [None] is the time value [NaN]. *)
Definition TimeClip (t : Z) : option Z :=
  if Z.abs t <=? 8640000000000000 then Some t else None.

(** [new Date(year, month, day).getTime()] with the local time zone taken
    to be UTC. A [NaN] argument gives an invalid date; a year in 0..99 is
    read as 1900 + year. *)
Definition Date_getTime (year month day : option Z) : option Z :=
  match year, month, day with
  | Some y, Some m, Some d =>
      let yr := if (0 <=? y) && (y <=? 99) then 1900 + y else y in
      TimeClip (MakeDay yr m d * msPerDay)
  | _, _, _ => None
  end.

(* ===================================================================== *)
(** ** Ordered sets and sorting *)
(* ===================================================================== *)

(** A JavaScript [Set] of strings iterates in insertion order: a list
    without repetition, [add] appending what is not yet there. *)
Definition Set_add (x : list N) (s : list (list N)) : list (list N) :=
  if decide (x ∈ s) then s else s ++ [x].

Definition Set_addAll (xs : list (list N)) (s : list (list N)) : list (list N) :=
  fold_left (fun acc x => Set_add x acc) xs s.

Section Sort.
Context {A : Type} (compareFn : A -> A -> Z).

(** [Array.prototype.sort(compareFn)]: the sort is stable, and for a
    consistent comparator every stable sort gives the same array; it is
    written here as a stable insertion sort. [compareFn a b > 0] puts [b]
    first. *)
Fixpoint sort_insert (x : A) (l : list A) : list A :=
  match l with
  | [] => [x]
  | y :: l' => if compareFn x y <=? 0 then x :: l else y :: sort_insert x l'
  end.

Definition Array_sort (l : list A) : list A := foldr sort_insert [] l.

End Sort.

(** Order of a list sorted by a key, largest first. *)
Definition keyDescending {A} (key : A -> Z) (a b : A) : Prop := key b <= key a.

(* ===================================================================== *)
(** ** storage.ts: the CSV merger *)
(* ===================================================================== *)

(** [content.split("\n").filter((l) => l.trim())] *)
Definition nonBlankLines (content : list N) : list (list N) :=
  List.filter (fun l => truthy_str (trim l)) (str_split 10 content).

(** [parseFrenchDate(dateStr).getTime()]:
    [const [day, month, year] = dateStr.split("/").map(Number)] and
    [new Date(year, month - 1, day)]. A missing component is [undefined],
    which makes the date invalid. *)
Definition parseFrenchDate (dateStr : list N) : option Z :=
  match List.map Number (str_split 47 dateStr) with
  | day :: month :: year :: _ =>
      Date_getTime year (m ← month; Some (m - 1)) day
  | _ => None
  end.

(** The time value of a row: [parseFrenchDate(row.split(";")[0]).getTime()]. *)
Definition rowTime (row : list N) : option Z :=
  parseFrenchDate (hd [] (str_split 59 row)).

(** The comparator of [mergeCSV]: [dateB.getTime() - dateA.getTime()]; a
    [NaN] difference is read as [+0] by [sort]. *)
Definition compareRows (a b : list N) : Z :=
  match rowTime b, rowTime a with
  | Some tb, Some ta => tb - ta
  | _, _ => 0
  end.

(** The set [allData] of [mergeCSV]: the data rows of both contents
    (headers skipped), in insertion order. *)
Definition allData (existingLines newLines : list (list N)) : list (list N) :=
  Set_addAll (tail newLines) (Set_addAll (tail existingLines) []).

Definition mergeCSV (existing newContent : list N) : list N :=
  let existingLines := nonBlankLines existing in
  let newLines := nonBlankLines newContent in
  match existingLines, newLines with
  | [], _ => newContent
  | _, [] => existing
  | header :: _, _ :: _ =>
      let sortedData := Array_sort compareRows (allData existingLines newLines) in
      str_join [10%N] (header :: sortedData)
  end.

(** The non-header rows of a CSV content, as the merger reads them. *)
Definition dataRows (content : list N) : list (list N) :=
  tail (nonBlankLines content).

(* ===================================================================== *)
(** ** Calendar dates as text: [toISOString().split("T")[0]] *)
(* ===================================================================== *)

(** The civil date (year, month 1..12, day 1..31) of a day number counted
    from 1970-01-01: ECMAScript's [YearFromTime], [MonthFromTime] and
    [DateFromTime] in closed form. *)
Definition civilFromDays (days : Z) : Z * Z * Z :=
  let z := days + 719468 in
  let era := z / 146097 in
  let doe := z - era * 146097 in
  let yoe := (doe - doe / 1460 + doe / 36524 - doe / 146096) / 365 in
  let doy := doe - (365 * yoe + yoe / 4 - yoe / 100) in
  let mp := (5 * doy + 2) / 153 in
  let d := doy - (153 * mp + 2) / 5 + 1 in
  let m := if mp <? 10 then mp + 3 else mp - 9 in
  let y := yoe + era * 400 + (if m <=? 2 then 1 else 0) in
  (y, m, d).

(** The last [width] decimal digits of [n], zero padded. *)
Fixpoint padDigits (width : nat) (n : Z) : list N :=
  match width with
  | O => []
  | S w => padDigits w (n / 10) ++ [Z.to_N (48 + n mod 10)]
  end.

(** The date part of [new Date(t).toISOString()]: [YYYY-MM-DD], with a
    sign and six digits for years outside 0..9999. *)
Definition toISODate (t : Z) : list N :=
  let '(y, m, d) := civilFromDays (t / msPerDay) in
  let year :=
    if (0 <=? y) && (y <=? 9999) then padDigits 4 y
    else (if y <? 0 then 45%N else 43%N) :: padDigits 6 (Z.abs y) in
  year ++ [45%N] ++ padDigits 2 m ++ [45%N] ++ padDigits 2 d.

(* ===================================================================== *)
(** ** JSON values ([any] in the source) *)
(* ===================================================================== *)

(** Values of API responses. Numbers are integers (identifiers); an object
    holds its own properties, each key once. *)
#[local] Unset Elimination Schemes.
Inductive json :=
| JUndefined
| JNull
| JBool (b : bool)
| JNumber (n : Z)
| JString (s : list N)
| JArray (items : list json)
| JObject (fields : list (list N * json)).
#[local] Set Elimination Schemes.

Definition truthy (v : json) : bool :=
  match v with
  | JUndefined | JNull | JBool false | JNumber 0 | JString [] => false
  | _ => true
  end.

Fixpoint lookupField (k : list N) (fields : list (list N * json)) : json :=
  match fields with
  | [] => JUndefined
  | (k', v) :: rest => if bool_decide (k' = k) then v else lookupField k rest
  end.

(** [v?.k]: a property read with optional chaining. None of the keys the
    source reads is a property of a primitive's or an array's prototype,
    so anything that is not an object answers [undefined]. *)
Definition prop (v : json) (k : string) : json :=
  match v with
  | JObject fields => lookupField (lit k) fields
  | _ => JUndefined
  end.

(** [a || b] *)
Definition or_else (a b : json) : json := if truthy a then a else b.

(** [typeof v === "string" || typeof v === "number"] *)
Definition isStringOrNumber (v : json) : bool :=
  match v with JString _ | JNumber _ => true | _ => false end.

(** Decimal digits of a natural number, by repeated division; [fuel]
    bounds the number of digits. *)
Fixpoint digitsOf (fuel : nat) (n : Z) : list N :=
  match fuel with
  | O => []
  | S f => if n <? 10 then [Z.to_N (48 + n)]
           else digitsOf f (n / 10) ++ [Z.to_N (48 + n mod 10)]
  end.

Definition decimal (n : Z) : list N :=
  if n <? 0 then 45%N :: digitsOf (S (Z.to_nat (Z.log2 (- n)))) (- n)
  else digitsOf (S (Z.to_nat (Z.log2 n))) n.

(** [String(v)] *)
Fixpoint String_of (v : json) : list N :=
  match v with
  | JUndefined => lit "undefined"
  | JNull => lit "null"
  | JBool true => lit "true"
  | JBool false => lit "false"
  | JNumber n => decimal n
  | JString s => s
  | JArray items =>
      str_join [44%N]
        (List.map (fun x => match x with
                            | JUndefined | JNull => []
                            | _ => String_of x
                            end) items)
  | JObject _ => lit "[object Object]"
  end.

(** [v === s] for a string [s]. *)
Definition strictEqStr (v : json) (s : list N) : bool :=
  match v with JString s' => bool_decide (s' = s) | _ => false end.

(* ===================================================================== *)
(** ** Effects: the file system, the clock and the trace of calls *)
(* ===================================================================== *)

(** A regular file of a directory: its name, last-modified time (ms since
    the epoch) and content. *)
Record file := mkFile {
  f_name : list N;
  f_mtime : Z;
  f_content : list N;
}.

(** What the engine does to the outside: directories and files it writes
    and the API calls it issues. Reads of the file system leave no event. *)
Inductive event :=
| EvMkdir (dir : list N)
| EvWriteFile (dir name : list N)
| EvCreateRequest (pfmContractId startDate endDate : list N)
| EvListRequests
| EvPrepareDownload (historyRequestId : json)
| EvFetch (downloadUrl : json).

(** The world of a run. [w_fs] maps a directory path to its entries in
    [readdirSync] order; a path that is not a key does not exist. The
    clock does not advance during a run. Events are consed: the head of
    [w_trace] is the latest. *)
Record World := mkWorld {
  w_fs : gmap (list N) (list file);
  w_now : Z;
  w_trace : list event;
}.

Inductive exn :=
| TypeError
| SyntaxError
| ENOENT
| NetworkError
| Error (message : list N).

Inductive outcome (A : Type) :=
| Ok (a : A)
| Throw (e : exn).
Arguments Ok {A} a.
Arguments Throw {A} e.

(** Computations of the engine: they read and change the world and either
    return or throw. *)
Definition M (A : Type) : Type := World -> outcome A * World.

#[global] Instance M_ret : MRet M := fun A a w => (Ok a, w).
#[global] Instance M_bind : MBind M := fun A B f m w =>
  match m w with
  | (Ok a, w') => f a w'
  | (Throw e, w') => (Throw e, w')
  end.

Definition throw {A} (e : exn) : M A := fun w => (Throw e, w).

Definition emit (e : event) : M unit := fun w =>
  (Ok tt, mkWorld (w_fs w) (w_now w) (e :: w_trace w)).

Definition getTrace : M (list event) := fun w => (Ok (w_trace w), w).

(** [try { m } catch { return a }] *)
Definition catch {A} (m : M A) (a : A) : M A := fun w =>
  match m w with
  | (Ok x, w') => (Ok x, w')
  | (Throw _, w') => (Ok a, w')
  end.

(** [getTodayDate()] *)
Definition getTodayDate : M (list N) := fun w => (Ok (toISODate (w_now w)), w).

(** [getDateDaysAgo(days)]; [setDate] works in local time, taken to be UTC. *)
Definition getDateDaysAgo (days : Z) : M (list N) := fun w =>
  (Ok (toISODate (w_now w - days * msPerDay)), w).

(** [fs.existsSync(dir)] *)
Definition existsSync (dir : list N) : M bool := fun w =>
  (Ok (bool_decide (is_Some (w_fs w !! dir))), w).

(** [fs.mkdirSync(dir, { recursive: true })] *)
Definition mkdirSync (dir : list N) : M unit := fun w =>
  match w_fs w !! dir with
  | Some _ => (Ok tt, w)
  | None => (Ok tt, mkWorld (<[dir := []]> (w_fs w)) (w_now w) (EvMkdir dir :: w_trace w))
  end.

(** [fs.readdirSync(dir)] *)
Definition readdirSync (dir : list N) : M (list (list N)) := fun w =>
  match w_fs w !! dir with
  | Some entries => (Ok (List.map f_name entries), w)
  | None => (Throw ENOENT, w)
  end.

Definition findFile (name : list N) (entries : list file) : option file :=
  List.find (fun f => bool_decide (f_name f = name)) entries.

(** [fs.statSync(path.join(dir, name)).mtime] *)
Definition statSync_mtime (dir name : list N) : M Z := fun w =>
  match w_fs w !! dir ≫= findFile name with
  | Some f => (Ok (f_mtime f), w)
  | None => (Throw ENOENT, w)
  end.

(** [fs.existsSync(path.join(dir, name))] *)
Definition existsSync_file (dir name : list N) : M bool := fun w =>
  (Ok (bool_decide (is_Some (w_fs w !! dir ≫= findFile name))), w).

(** [fs.readFileSync(path.join(dir, name), "utf-8")] *)
Definition readFileSync (dir name : list N) : M (list N) := fun w =>
  match w_fs w !! dir ≫= findFile name with
  | Some f => (Ok (f_content f), w)
  | None => (Throw ENOENT, w)
  end.

(** Replace the entry called [name], or add it at the end of the listing. *)
Fixpoint putFile (name : list N) (mtime : Z) (content : list N)
    (entries : list file) : list file :=
  match entries with
  | [] => [mkFile name mtime content]
  | f :: rest =>
      if bool_decide (f_name f = name) then mkFile name mtime content :: rest
      else f :: putFile name mtime content rest
  end.

(** [fs.writeFileSync(path.join(dir, name), content, "utf-8")] *)
Definition writeFileSync (dir name content : list N) : M unit := fun w =>
  match w_fs w !! dir with
  | Some entries =>
      (Ok tt, mkWorld (<[dir := putFile name (w_now w) content entries]> (w_fs w))
                      (w_now w) (EvWriteFile dir name :: w_trace w))
  | None => (Throw ENOENT, w)
  end.

(* ===================================================================== *)
(** ** storage.ts: names and paths *)
(* ===================================================================== *)

(** [BankId]: the values of [BANK_IDS]. *)
Inductive BankId := CAISSE_EPARGNE | UAF_LIFE.

Definition bankIdString (b : BankId) : list N :=
  match b with
  | CAISSE_EPARGNE => lit "ce"
  | UAF_LIFE => lit "uaf"
  end.

(** [path.join(...segments)] for segments without [/] and [.] parts:
    empty segments are skipped, the others joined by [/]. *)
Definition path_join (segments : list (list N)) : list N :=
  str_join [47%N] (List.filter truthy_str segments).

Definition DATA_DIR : list N := lit "data".

(** [getTransactionsDir(bankId)] *)
Definition getTransactionsDir (bankId : BankId) : list N :=
  path_join [DATA_DIR; lit "transactions"; bankIdString bankId].

(** [[\u0300-\u036f]]: the combining diacritical marks. *)
Definition isCombiningMark (c : N) : bool := ((768 <=? c) && (c <=? 879))%N.

(** [a-zA-Z0-9\s-]: what the second [replace] of [sanitizeName] keeps. *)
Definition isKept (c : N) : bool :=
  (isLower c || isUpper c || isDigit c || isWhiteSpace c || (c =? 45))%N.

(** [s.replace(/\s+/g, "_")]; [inRun] says that the previous code unit
    was white space, already replaced. *)
Fixpoint replaceSpaceRuns (inRun : bool) (s : list N) : list N :=
  match s with
  | [] => []
  | c :: s' =>
      if isWhiteSpace c then
        if inRun then replaceSpaceRuns true s'
        else 95%N :: replaceSpaceRuns true s'
      else c :: replaceSpaceRuns false s'
  end.

(** Lower case of an ASCII code unit. *)
Definition lowerAscii (c : N) : N := if isUpper c then (c + 32)%N else c.

(** [getTransactionsFilename(startDate)] *)
Definition getTransactionsFilename (startDate : list N) : list N :=
  let compactDate := List.filter (fun c => negb (c =? 45)%N) startDate in
  lit "history-from-" ++ compactDate ++ lit ".csv".

(** [parseTransactionsFilename(filename)]: the match of
    [/^history-from-(\d{8})\.csv$/] and the start date it encodes. *)
Definition parseTransactionsFilename (filename : list N) : option (list N) :=
  let prefix := lit "history-from-" in
  let rest := drop (length prefix) filename in
  let compact := take 8 rest in
  if startsWith prefix filename
     && (length compact =? 8)%nat
     && forallb isDigit compact
     && bool_decide (drop 8 rest = lit ".csv")
  then Some (take 4 compact ++ [45%N] ++ take 2 (drop 4 compact)
             ++ [45%N] ++ take 2 (drop 6 compact))
  else None.

(** [TransactionFileInfo]; [filePath] is [path.join(tfi_dir, tfi_file)]. *)
Record TransactionFileInfo := mkInfo {
  tfi_accountName : list N;
  tfi_bankId : BankId;
  tfi_startDate : list N;
  tfi_dir : list N;
  tfi_file : list N;
  tfi_lastModified : Z;
}.

(** The most recently modified of two candidates of the loop of
    [getLatestTransactionsFile]: a later file wins only when strictly
    newer. *)
Definition newer (latest : option (list N * Z)) (file : list N) (mtime : Z)
    : option (list N * Z) :=
  match latest with
  | None => Some (file, mtime)
  | Some (_, latestMtime) =>
      if latestMtime <? mtime then Some (file, mtime) else latest
  end.

(* ===================================================================== *)
(** ** transactions.ts: types and pure helpers *)
(* ===================================================================== *)

Record AccountDownloadInfo := mkADI {
  adi_pfmContractId : option (list N);
  adi_accountName : option (list N);
  adi_downloadDate : json;
  adi_startDate : json;
  adi_endDate : json;
  adi_historyRequestId : json;
}.

Record AccountInfo := mkAccount {
  ai_pfmContractId : list N;
  ai_accountName : list N;
}.

(** [SETTINGS.maxDaysBack] of the connector's [config.ts]. *)
Definition maxDaysBack : Z := 792.

(** The browser page and the API behind it, as far as the engine consults
    them. A response may depend on the calls issued so far (the trace),
    on the authorization header sent and on the request. *)
Record Page := mkPage {
  (** body of the [lastDownloadHistoryViews] response *)
  pg_lastDownloadData : json;
  (** authorization header of that response's request, empty if none *)
  pg_authHeaderFromRequest : list N;
  (** last authorization header the request listener saw, empty if none *)
  pg_capturedAuthHeader : list N;
  (** entries of [localStorage], then of [sessionStorage] *)
  pg_storageEntries : list (list N * list N);
  (** body of the [historyRequests] response after the tab click *)
  pg_historyRequestsData : json;
  (** POST [API.createHistoryRequest] for an account and a window:
      [response.ok()], false also when the request throws *)
  pg_createHistoryRequest :
    list event -> list N -> list N -> list N -> list N -> bool;
  (** GET [API.historyRequests] and [.json()]; [None] when that throws *)
  pg_historyRequests : list event -> list N -> option json;
  (** POST [API.prepareDownload(id)]: the content type ([""] when absent)
      and the body; [None] when the request throws *)
  pg_prepareDownload : list event -> list N -> json -> option (list N * list N);
  (** GET of the download URL: the text when [ok()]; [None] otherwise *)
  pg_download : list event -> list N -> json -> option (list N);
}.

(** A prefix test that ignores ASCII case; [p] is in lower case. Without
    the [u] flag, [/i] relates no character outside ASCII to an ASCII
    letter. *)
Definition startsWithCI (p s : list N) : bool :=
  bool_decide (List.map lowerAscii (take (length p) s) = p).

(** [/p/i.test(s)] for a literal [p] in lower case. *)
Fixpoint includesCI (p s : list N) : bool :=
  startsWithCI p s
  || match s with [] => false | _ :: s' => includesCI p s' end.

(** [s.includes(p)] *)
Fixpoint includes (p s : list N) : bool :=
  startsWith p s
  || match s with [] => false | _ :: s' => includes p s' end.

(** The longest prefix of [s] whose code units satisfy [p], and the rest. *)
Fixpoint spanWhile (p : N -> bool) (s : list N) : list N * list N :=
  match s with
  | c :: s' =>
      if p c then let '(a, b) := spanWhile p s' in (c :: a, b) else ([], s)
  | [] => ([], [])
  end.

(** [A-Za-z0-9._-] *)
Definition isTokenChar (c : N) : bool :=
  (isUpper c || isLower c || isDigit c || (c =? 46) || (c =? 95) || (c =? 45))%N.

(** A match of [/Bearer\s+[A-Za-z0-9._-]+/i] that starts at the head of
    [s]. Both runs are greedy, and giving back white space cannot help the
    second run, so the match is the longest one. *)
Definition bearerAt (s : list N) : option (list N) :=
  if startsWithCI (lit "bearer") s then
    let '(ws, r) := spanWhile isWhiteSpace (drop 6 s) in
    let '(tok, _) := spanWhile isTokenChar r in
    if truthy_str ws && truthy_str tok then Some (take 6 s ++ ws ++ tok)
    else None
  else None.

(** [value.match(/Bearer\s+[A-Za-z0-9._-]+/i)]: the leftmost match. *)
Fixpoint bearerMatch (s : list N) : option (list N) :=
  match bearerAt s with
  | Some m => Some m
  | None => match s with [] => None | _ :: s' => bearerMatch s' end
  end.

Definition truthy_opt (o : option (list N)) : bool :=
  match o with Some s => truthy_str s | None => false end.

(** [extractPfmContractId(identity)] *)
Definition extractPfmContractId (identity : json) : option (list N) :=
  let direct := prop identity "pfmContractId" in
  if isStringOrNumber direct then Some (String_of direct)
  else if truthy (prop direct "id") then Some (String_of (prop direct "id"))
  else
    let contractPfmId := prop identity "contractPfmId" in
    if isStringOrNumber contractPfmId then Some (String_of contractPfmId)
    else if truthy (prop contractPfmId "id")
         then Some (String_of (prop contractPfmId "id"))
         else None.

(** [extractHistoryRequestPfmContractId(identity)] *)
Definition extractHistoryRequestPfmContractId (identity : json)
    : option (list N) :=
  let nested := prop (prop identity "pfmContractId") "pfmContractId" in
  if isStringOrNumber nested then Some (String_of nested)
  else
    let direct := prop identity "pfmContractId" in
    if isStringOrNumber direct then Some (String_of direct)
    else if truthy (prop direct "id") then Some (String_of (prop direct "id"))
    else None.

(** [v.k] without optional chaining: a [TypeError] on [null] and
    [undefined]. *)
Definition strictProp (v : json) (k : string) : M json :=
  match v with
  | JUndefined | JNull => throw TypeError
  | _ => mret (prop v k)
  end.

(** The receiver of [.map(...)]: an array, or a [TypeError]. *)
Definition arrayOf (v : json) : M (list json) :=
  match v with
  | JArray items => mret items
  | _ => throw TypeError
  end.

(** The items [for (const item of v)] visits: those of an array, the
    characters of a string (as one-unit strings); anything else is not
    iterable. *)
Definition iterate (v : json) : M (list json) :=
  match v with
  | JArray items => mret items
  | JString s => mret (List.map (fun c => JString [c]) s)
  | _ => throw TypeError
  end.

Fixpoint M_map {A B} (f : A -> M B) (l : list A) : M (list B) :=
  match l with
  | [] => mret []
  | x :: xs => y ← f x; ys ← M_map f xs; mret (y :: ys)
  end.

(* ===================================================================== *)
(** ** Objects keyed by array indices *)
(* ===================================================================== *)

(** A [Record<number, T>] whose keys are array indices. The own properties
    of a JavaScript object with such keys are visited in ascending key
    order ([Object.entries], [Object.keys], [Object.values]), so the
    object is kept as the list of its entries in that order. *)

(** [o[key] = v] *)
Fixpoint setIndex {V} (key : N) (v : V) (o : list (N * V)) : list (N * V) :=
  match o with
  | [] => [(key, v)]
  | (k, x) :: rest =>
      if (key =? k)%N then (key, v) :: rest
      else if (key <? k)%N then (key, v) :: o
      else (k, x) :: setIndex key v rest
  end.

(** [o[key]]; [None] is [undefined]. *)
Definition getIndex {V} (key : N) (o : list (N * V)) : option V :=
  snd <$> List.find (fun p => (fst p =? key)%N) o.

(* ===================================================================== *)
(** ** ocr.ts: reading the virtual keyboard *)
(* ===================================================================== *)

(** [parseInt(c, 10)] for a string of one code unit: a decimal digit or
    [NaN] ([None]). *)
Definition parseIntChar (c : N) : option Z :=
  if isDigit c then Some (Z.of_N c - 48) else None.

(** [parseInt(s, 10)] for a string of decimal digits: [NaN] when it is
    empty. The value is exact; JavaScript rounds numerals beyond 2^53 to
    the nearest double. *)
Definition parseInt10 (s : list N) : option Z :=
  match s with
  | [] => None
  | _ => Some (digitsValue s)
  end.

(** [text.replace(/[Oo]/g, "0").replace(/[lI]/g, "1").replace(/\D/g, "")] *)
Definition cleanOCRText (text : list N) : list N :=
  List.filter isDigit
    (List.map (fun c => if ((c =? 108) || (c =? 73))%N then 49%N else c)
       (List.map (fun c => if ((c =? 79) || (c =? 111))%N then 48%N else c) text)).

Definition ocrErrorMessage (text : list N) : list N :=
  lit "OCR did not return a valid number: " ++ [34%N] ++ text ++ [34%N].

(** [recognizeDigit(imagePath)], from the text that [ollamaOCR] returned
    for the image. *)
Definition recognizeDigit (text : list N) : outcome Z :=
  match parseInt10 (cleanOCRText text) with
  | None => Throw (Error (ocrErrorMessage text))
  | Some digit => Ok digit
  end.

(** [value >= 0 && value <= 9] *)
Definition isValidDigit (value : Z) : bool := (0 <=? value) && (value <=? 9).

(** [String(value).split("").map((d) => parseInt(d, 10))
      .filter((d) => d >= 0 && d <= 9)]; a [NaN] fails the filter. Readings
    are integers (what [recognizeDigit] returns), written in full by
    [String] up to 2^53. *)
Definition candidatesOf (value : Z) : list Z :=
  List.filter isValidDigit (omap parseIntChar (decimal value)).

(** The body of the first loop of [cleanDigitMap], on the pair
    [(cleaned, potentialMatches)]. *)
Definition firstPassStep (st : list (N * Z) * list (N * list Z))
    (entry : N * Z) : list (N * Z) * list (N * list Z) :=
  let '(cleaned, potentialMatches) := st in
  let '(numKey, value) := entry in
  if isValidDigit value then (setIndex numKey value cleaned, potentialMatches)
  else (setIndex numKey (-1) cleaned,
        setIndex numKey (candidatesOf value) potentialMatches).

(** The inner loop of the second pass: the first unresolved button whose
    candidates include [digit] takes it. *)
Fixpoint matchLoop (potentialMatches : list (N * list Z)) (digit : Z)
    (keys : list N) (cleaned : list (N * Z)) : list (N * Z) :=
  match keys with
  | [] => cleaned
  | numKey :: rest =>
      if bool_decide (getIndex numKey cleaned = Some (-1))
         && match getIndex numKey potentialMatches with
            | Some candidates => bool_decide (digit ∈ candidates)
            | None => false
            end
      then setIndex numKey digit cleaned
      else matchLoop potentialMatches digit rest cleaned
  end.

(** The inner loop of the fallback pass: the first unresolved button
    takes [digit]. *)
Fixpoint fallbackLoop (digit : Z) (keys : list N) (cleaned : list (N * Z))
    : list (N * Z) :=
  match keys with
  | [] => cleaned
  | numKey :: rest =>
      if bool_decide (getIndex numKey cleaned = Some (-1))
      then setIndex numKey digit cleaned
      else fallbackLoop digit rest cleaned
  end.

(** The digits 0..9 that no valid reading shows. *)
Definition missingDigitsOf (cleaned : list (N * Z)) : list Z :=
  let presentDigits :=
    List.filter (fun v => negb (v =? -1)) (List.map snd cleaned) in
  List.filter (fun i => negb (bool_decide (i ∈ presentDigits))) (seqZ 0 10).

(** [cleanDigitMap(digitMap)] *)
Definition cleanDigitMap (digitMap : list (N * Z)) : list (N * Z) :=
  let '(cleaned, potentialMatches) := fold_left firstPassStep digitMap ([], []) in
  let missingDigits := missingDigitsOf cleaned in
  let matched :=
    fold_left (fun c digit => matchLoop potentialMatches digit (List.map fst c) c)
              missingDigits cleaned in
  fold_left (fun c digit =>
               if bool_decide (digit ∈ List.map snd c) then c
               else fallbackLoop digit (List.map fst c) c)
            missingDigits matched.

(* ===================================================================== *)
(** ** login.ts: typing the password on the virtual keyboard *)
(* ===================================================================== *)

(** [digitMap[index] = digit] for each OCR result. *)
Definition digitMapOf (ocrResults : list (N * Z)) : list (N * Z) :=
  fold_left (fun digitMap r => setIndex (fst r) (snd r) digitMap) ocrResults [].

Definition digitNotFoundMessage (targetDigit : option Z) : list N :=
  lit "Digit "
  ++ match targetDigit with Some d => decimal d | None => lit "NaN" end
  ++ lit " not found on virtual keyboard".

(** The click loop of [inputPassword]: the buttons clicked so far, in
    order, and how the loop ends. A character outside the Basic
    Multilingual Plane is visited as its first code unit, which is no
    digit either. *)
Fixpoint clickLoop (digitMap : list (N * Z)) (buttons : nat)
    (password : list N) (clicks : list N) : outcome unit * list N :=
  match password with
  | [] => (Ok tt, clicks)
  | char :: rest =>
      let targetDigit := parseIntChar char in
      let buttonIndex :=
        List.find (fun p => bool_decide (Some (snd p) = targetDigit)) digitMap in
      match buttonIndex with
      | None => (Throw (Error (digitNotFoundMessage targetDigit)), clicks)
      | Some (index, _) =>
          if (N.to_nat index <? buttons)%nat
          then clickLoop digitMap buttons rest (clicks ++ [index])
          else (Throw TypeError, clicks)
      end
  end.

Definition buttonCountMessage (found : nat) : list N :=
  lit "Expected 10 keyboard buttons, found " ++ decimal (Z.of_nat found).

(** [inputPassword(password, page)], from the digits that OCR read on the
    buttons, in button order. The steps that obtain the readings (style
    attributes, image files, OCR) end before the first click; the removal
    of the image files is [cleanupTempDir]. *)
Definition inputPassword (readings : list Z) (password : list N)
    : outcome unit * list N :=
  if negb (length readings =? 10)%nat
  then (Throw (Error (buttonCountMessage (length readings))), [])
  else
    let ocrResults := imap (fun index digit => (N.of_nat index, digit)) readings in
    let digitMap := cleanDigitMap (digitMapOf ocrResults) in
    clickLoop digitMap (length readings) password [].

(* ===================================================================== *)
(** ** balances.ts and the account list of transactions.ts *)
(* ===================================================================== *)

(** [AccountBalance]; the fields hold what the response holds. *)
Record AccountBalance := mkBalance {
  ab_account : json;
  ab_balance : json;
}.

(** [l.filter(f)] for a callback that may throw. *)
Fixpoint M_filter {A} (f : A -> M bool) (l : list A) : M (list A) :=
  match l with
  | [] => mret []
  | x :: xs =>
      keep ← f x;
      ys ← M_filter f xs;
      mret (if (keep : bool) then x :: ys else ys)
  end.

(** [apiData?.items || []], as the receiver of [.filter]. *)
Definition itemsOf (apiData : json) : M (list json) :=
  arrayOf (or_else (prop apiData "items") (JArray [])).

Definition isNull (v : json) : bool :=
  match v with JNull => true | _ => false end.

(** [(item) => item.identity?.balance !== null] *)
Definition hasBalance (item : json) : M bool :=
  identity ← strictProp item "identity";
  mret (negb (isNull (prop identity "balance"))).

(** [(item) => ({ account: item.identity.contractLabel,
                  balance: item.identity.balance.value })] *)
Definition balanceEntry (item : json) : M AccountBalance :=
  identity ← strictProp item "identity";
  account ← strictProp identity "contractLabel";
  balance ← strictProp identity "balance";
  value ← strictProp balance "value";
  mret (mkBalance account value).

(** [extractBalances(apiData)] *)
Definition extractBalances (apiData : json) : M (list AccountBalance) :=
  items ← itemsOf apiData;
  kept ← M_filter hasBalance items;
  M_map balanceEntry kept.

(** [(item) => item.identification?.contractPfmId], as a filter. *)
Definition hasContractPfmId (item : json) : M bool :=
  identification ← strictProp item "identification";
  mret (truthy (prop identification "contractPfmId")).

(** [item.identity?.contractLabel ||
     `Account ${item.identification.contractPfmId}`] *)
Definition accountLabel (item : json) : M json :=
  identity ← strictProp item "identity";
  let label := prop identity "contractLabel" in
  if truthy label then mret label else
  identification ← strictProp item "identification";
  contractPfmId ← strictProp identification "contractPfmId";
  mret (JString (lit "Account " ++ String_of contractPfmId)).

(** [extractAccountNames(apiData)] of [balances.ts] *)
Definition extractAccountNames (apiData : json) : M (list json) :=
  items ← itemsOf apiData;
  kept ← M_filter hasContractPfmId items;
  M_map accountLabel kept.

(** What [extractAccountsFromApiData] returns for an item; the type
    [AccountInfo] of the source declares the name a string, the code
    takes what the response holds. *)
Record ApiAccount := mkApiAccount {
  aa_pfmContractId : list N;
  aa_accountName : json;
}.

(** [(item) => ({ pfmContractId: String(item.identification.contractPfmId),
                  accountName: item.identity?.contractLabel || `Account ...` })] *)
Definition accountEntry (item : json) : M ApiAccount :=
  identification ← strictProp item "identification";
  contractPfmId ← strictProp identification "contractPfmId";
  accountName ← accountLabel item;
  mret (mkApiAccount (String_of contractPfmId) accountName).

(** [extractAccountsFromApiData(apiData)] of [transactions.ts] *)
Definition extractAccountsFromApiData (apiData : json) : M (list ApiAccount) :=
  items ← itemsOf apiData;
  kept ← M_filter hasContractPfmId items;
  M_map accountEntry kept.

(** The accounts as [downloadTransactions] uses them, when every name is
    a string. *)
Definition toAccountInfo (a : ApiAccount) : option AccountInfo :=
  match aa_accountName a with
  | JString name => Some (mkAccount (aa_pfmContractId a) name)
  | _ => None
  end.

(* ===================================================================== *)
(** ** storage.ts: balance snapshots and temporary files *)
(* ===================================================================== *)

(** [getBalancesDir(bankId)] *)
Definition getBalancesDir (bankId : BankId) : list N :=
  path_join [DATA_DIR; lit "balances"; bankIdString bankId].

(** [getBalancesFilename(date)] *)
Definition getBalancesFilename (date : list N) : list N := date ++ lit ".json".

(** [TEMP_DIR] *)
Definition TEMP_DIR : list N := path_join [DATA_DIR; lit ".temp"].

(** [new Date(t).toISOString()] *)
Definition toISOString (t : Z) : list N :=
  let ms := t mod msPerDay in
  toISODate t ++ lit "T" ++ padDigits 2 (ms / 3600000)
  ++ lit ":" ++ padDigits 2 (ms / 60000 mod 60)
  ++ lit ":" ++ padDigits 2 (ms / 1000 mod 60)
  ++ lit "." ++ padDigits 3 (ms mod 1000) ++ lit "Z".

(** [new Date().toISOString()] *)
Definition nowISOString : M (list N) := fun w => (Ok (toISOString (w_now w)), w).

(** The object [snapshot] of [saveBalances]. *)
Definition snapshotOf (date timestamp : list N) (balances : json) : json :=
  JObject [(lit "date", JString date);
           (lit "timestamp", JString timestamp);
           (lit "balances", balances)].

(** The comparison of [Array.prototype.sort()] without a comparator, on
    strings: by UTF-16 code units. *)
Fixpoint compareCodeUnits (a b : list N) : Z :=
  match a, b with
  | [], [] => 0
  | [], _ :: _ => -1
  | _ :: _, [] => 1
  | x :: a', y :: b' =>
      if (x <? y)%N then -1
      else if (y <? x)%N then 1
      else compareCodeUnits a' b'
  end.

(** The listing without its first entry called [name]. *)
Fixpoint removeFile (name : list N) (entries : list file) : list file :=
  match entries with
  | [] => []
  | f :: rest =>
      if bool_decide (f_name f = name) then rest else f :: removeFile name rest
  end.

(** [fs.unlinkSync(path.join(dir, name))]. The trace keeps the calls of
    the transaction engine; a removal shows in [w_fs] only. *)
Definition unlinkSync (dir name : list N) : M unit := fun w =>
  match w_fs w !! dir with
  | Some entries =>
      match findFile name entries with
      | Some _ =>
          (Ok tt, mkWorld (<[dir := removeFile name entries]> (w_fs w))
                          (w_now w) (w_trace w))
      | None => (Throw ENOENT, w)
      end
  | None => (Throw ENOENT, w)
  end.

(** The loop of [cleanupTempDir]. *)
Fixpoint unlinkAll (dir : list N) (files : list (list N)) : M unit :=
  match files with
  | [] => mret tt
  | file :: rest => _ ← unlinkSync dir file; unlinkAll dir rest
  end.

(* ===================================================================== *)
(** ** Sample data: built-ins, file systems and pages of the examples *)
(* ===================================================================== *)

(** Instances of the built-ins for the examples: the canonical
    decomposition of the two accented letters the examples use (É, é),
    lower-casing of ASCII, and a reader for the one JSON body the examples
    receive. *)
Definition sampleNFD (s : list N) : list N :=
  flat_map (fun c => if (c =? 201)%N then [69%N; 769%N]
                     else if (c =? 233)%N then [101%N; 769%N]
                     else [c]) s.

Definition asciiLowerCase (s : list N) : list N := List.map lowerAscii s.

Definition prepareBody : list N := lit "{prepareDownload:{characteristics:{downloadUrl:u}}}".

Definition sampleJSON (s : list N) : option json :=
  if bool_decide (s = prepareBody) then
    Some (JObject [(lit "prepareDownload",
            JObject [(lit "characteristics",
              JObject [(lit "downloadUrl", JString (lit "https://bank/export"))])])])
  else None.

(** 2024-03-10T12:00:00Z; the window of a run at that time starts on
    2022-01-08. *)
Definition noon : Z := 1710072000000.

(** An archive of the account "Livret A" anchored at 2023-03-01, written
    the day before. *)
Definition archiveContent : list N :=
  lit "Date;Label;Amount" ++ [10%N] ++
  lit "05/03/2023;card;-12" ++ [10%N] ++
  lit "01/03/2023;salary;2000".

Definition archiveWorld : World :=
  mkWorld {[ lit "data/transactions/ce/livret_a" :=
               [mkFile (lit "history-from-20230301.csv") (noon - msPerDay) archiveContent] ]}
          noon [].

Definition earlierExport : list N :=
  lit "Date;Label;Amount" ++ [10%N] ++
  lit "01/03/2023;salary;2000" ++ [10%N] ++
  lit "15/01/2022;rent;-700".

(** The rows of the specification's sort example. *)
Definition unsortedArchive : list N :=
  lit "Date;Label" ++ [10%N] ++ lit "05/01/2024;a" ++ [10%N] ++ lit "20/01/2024;b".

Definition overlappingExport : list N :=
  lit "Date;Label" ++ [10%N] ++ lit "20/01/2024;b" ++ [10%N] ++ lit "01/01/2024;c"
  ++ [10%N].

(** "Épargne Logement (2)!" and "epargne logement 2". *)
Definition accentedName : list N := [201%N] ++ lit "pargne Logement (2)!".

Definition plainName : list N := lit "epargne logement 2".

(** Responses of the API as the examples receive them. *)
Definition lastDownloadOf (pfmContractId : string) : json :=
  JObject [(lit "identity",
            JObject [(lit "pfmContractId", JString (lit pfmContractId))])].

Definition historyRequestOf (pfmContractId requestId startDate endDate : string)
    : json :=
  JObject
    [(lit "identity",
      JObject [(lit "pfmContractId",
                JObject [(lit "pfmContractId", JString (lit pfmContractId))]);
               (lit "startDate", JString (lit startDate));
               (lit "endDate", JString (lit endDate))]);
     (lit "identification",
      JObject [(lit "historyRequestId", JObject [(lit "id", JString (lit requestId))])])].

Definition listing (items : list json) : json :=
  JObject [(lit "operationIdResponseItem", JArray items)].

Definition threeAccounts : list AccountInfo :=
  [mkAccount (lit "101") (lit "Compte Courant");
   mkAccount (lit "102") (lit "Livret A");
   mkAccount (lit "103") accentedName].

Definition exportText : list N :=
  lit "Date;Label" ++ [10%N] ++ lit "09/03/2024;card".

(** A page whose listing holds, for each of the three accounts, a request
    for the window of the run; create calls would fail. *)
Definition reusePage : Page :=
  mkPage
    (listing [lastDownloadOf "101"; lastDownloadOf "102"; lastDownloadOf "103"])
    (lit "Bearer abc") [] []
    (listing [historyRequestOf "101" "r1" "2022-01-08" "2024-03-10";
              historyRequestOf "102" "r2" "2022-01-08" "2024-03-10";
              historyRequestOf "101" "r0" "2021-01-01" "2023-03-04";
              historyRequestOf "103" "r3" "2022-01-08" "2024-03-10"])
    (fun _ _ _ _ _ => false)
    (fun _ _ => None)
    (fun _ _ _ => Some (lit "application/json", prepareBody))
    (fun _ _ _ => Some exportText).

(** The same page when the request of account 102 ends one day early, and
    every create call fails. *)
Definition stalePage : Page :=
  mkPage
    (listing [lastDownloadOf "101"; lastDownloadOf "102"; lastDownloadOf "103"])
    (lit "Bearer abc") [] []
    (listing [historyRequestOf "101" "r1" "2022-01-08" "2024-03-10";
              historyRequestOf "102" "r2" "2022-01-07" "2024-03-09";
              historyRequestOf "103" "r3" "2022-01-08" "2024-03-10"])
    (fun _ _ _ _ _ => false)
    (fun _ _ => None)
    (fun _ _ _ => Some (lit "application/json", prepareBody))
    (fun _ _ _ => Some exportText).

Definition emptyWorld : World := mkWorld ∅ noon [].

Definition threeInfos : list AccountDownloadInfo :=
  [mkADI (Some (lit "101")) (Some (lit "Compte Courant"))
         JUndefined JUndefined JUndefined JUndefined;
   mkADI (Some (lit "102")) (Some (lit "Livret A"))
         JUndefined JUndefined JUndefined JUndefined;
   mkADI (Some (lit "103")) (Some accentedName)
         JUndefined JUndefined JUndefined JUndefined].

Definition threeTargets : list (list N) := [lit "101"; lit "102"; lit "103"].

(** The requests the engine retains from each listing: the first listed
    for each target account. *)
Definition reuseRetained : gmap (list N) json :=
  <[lit "103" := historyRequestOf "103" "r3" "2022-01-08" "2024-03-10"]>
    (<[lit "102" := historyRequestOf "102" "r2" "2022-01-08" "2024-03-10"]>
       (<[lit "101" := historyRequestOf "101" "r1" "2022-01-08" "2024-03-10"]> ∅)).

Definition staleRetained : gmap (list N) json :=
  <[lit "103" := historyRequestOf "103" "r3" "2022-01-08" "2024-03-10"]>
    (<[lit "102" := historyRequestOf "102" "r2" "2022-01-07" "2024-03-09"]>
       (<[lit "101" := historyRequestOf "101" "r1" "2022-01-08" "2024-03-10"]> ∅)).

(** A run without any authorization value proceeds with an empty header. *)
Definition anonymousPage : Page :=
  mkPage (pg_lastDownloadData reusePage) [] [] [(lit "theme", lit "dark")]
         (pg_historyRequestsData reusePage)
         (pg_createHistoryRequest reusePage) (pg_historyRequests reusePage)
         (pg_prepareDownload reusePage) (pg_download reusePage).

(** One account's create call succeeds (account 101), the others fail:
    the run goes on, lists the requests again and downloads what the new
    listing holds. *)
Definition partialPage : Page :=
  mkPage (pg_lastDownloadData stalePage) (lit "Bearer abc") [] []
         (pg_historyRequestsData stalePage)
         (fun _ _ pfmContractId _ _ => bool_decide (pfmContractId = lit "101"))
         (fun _ _ => Some (listing
            [historyRequestOf "101" "n1" "2022-01-08" "2024-03-10";
             historyRequestOf "102" "r2" "2022-01-07" "2024-03-09"]))
         (pg_prepareDownload stalePage) (pg_download stalePage).

(** The keyboard of the example in [ocr.ts]: two buttons were read as
    several digits (110011100 and 210). *)
Definition docReadings : list Z := [0; 8; 7; 110011100; 4; 6; 5; 3; 210; 9].

Definition docDigitMap : list (N * Z) :=
  [(0%N, 0); (1%N, 8); (2%N, 7); (3%N, 110011100); (4%N, 4);
   (5%N, 6); (6%N, 5); (7%N, 3); (8%N, 210); (9%N, 9)].

(** A response of [augmentedSynthesisViews]: a current account with a
    balance, a contract without balance ([null]) and without label, and
    an item without contract identifier. *)
Definition synthesisItem (label : option string) (pfmId : option Z)
    (balance : json) : json :=
  JObject
    [(lit "identity",
      JObject ((match label with
                | Some l => [(lit "contractLabel", JString (lit l))]
                | None => []
                end) ++ [(lit "balance", balance)]));
     (lit "identification",
      JObject (match pfmId with
               | Some id => [(lit "contractPfmId", JNumber id)]
               | None => []
               end))].

Definition synthesisItems : list json :=
  [synthesisItem (Some "Compte Courant"%string) (Some 101)
     (JObject [(lit "value", JNumber 1234)]);
   synthesisItem None (Some 102) JNull;
   synthesisItem (Some "Carte"%string) None (JObject [(lit "value", JNumber 0)])].

Definition synthesisData : json := JObject [(lit "items", JArray synthesisItems)].

(** The same response when the identity of an item has no [balance]
    property. *)
Definition synthesisWithoutBalance : json :=
  JObject [(lit "items",
            JArray [JObject [(lit "identity",
                              JObject [(lit "contractLabel", JString (lit "Livret A"))])]])].

(** A writer and a reader for the examples of the balance store, which
    keep the one field the guard consults: the date. *)
Definition sampleStringify (v : json) : list N :=
  lit "{date:" ++ String_of (prop v "date") ++ lit "}".

Definition sampleSnapshotParse (s : list N) : option json :=
  if startsWith (lit "{date:") s && endsWith (lit "}") s
  then Some (JObject [(lit "date", JString (take (length s - 7) (drop 6 s)))])
  else None.

(** The balances directory with the snapshots of two earlier days, at
    noon of 2024-03-10. *)
Definition balancesWorld : World :=
  mkWorld {[ lit "data/balances/ce" :=
               [mkFile (lit "2024-03-09.json") (noon - msPerDay) (lit "{date:2024-03-09}");
                mkFile (lit "2024-02-28.json") (noon - 11 * msPerDay) (lit "{date:2024-02-28}");
                mkFile (lit "notes.txt") noon (lit "x")] ]}
          noon [].

(** The archive of "Livret A" when it was written today. *)
Definition freshWorld : World :=
  mkWorld {[ lit "data/transactions/ce/livret_a" :=
               [mkFile (lit "history-from-20230301.csv") noon archiveContent] ]}
          noon [].

Definition livretOnly : list AccountInfo := [mkAccount (lit "102") (lit "Livret A")].

(** Button images left in the temporary directory. *)
Definition tempWorld : World :=
  mkWorld {[ lit "data/.temp" :=
               [mkFile (lit "button0.png") noon (lit "a");
                mkFile (lit "button1.png") noon (lit "b")];
             lit "data/balances/ce" :=
               [mkFile (lit "2024-03-09.json") (noon - msPerDay) (lit "{date:2024-03-09}")] ]}
          noon [].

Section Engine.

Set Default Proof Using "Type".

(** [String.prototype.normalize("NFD")] and [String.prototype.toLowerCase]:
    built-ins given by the Unicode tables, not written out here. *)
Variable normalizeNFD : list N -> list N.
Variable toLowerCase : list N -> list N.

(** [sanitizeName(name)] *)
Definition sanitizeName (name : list N) : list N :=
  let s1 := normalizeNFD name in
  let s2 := List.filter (fun c => negb (isCombiningMark c)) s1 in
  let s3 := List.filter isKept s2 in
  let s4 := replaceSpaceRuns false s3 in
  trim (toLowerCase s4).

(** [getAccountDir(bankId, accountName)] *)
Definition getAccountDir (bankId : BankId) (accountName : list N) : list N :=
  path_join [getTransactionsDir bankId; sanitizeName accountName].

(** The [for] loop of [getLatestTransactionsFile]. *)
Fixpoint latestLoop (accountDir : list N) (files : list (list N))
    (latest : option (list N * Z)) : M (option (list N * Z)) :=
  match files with
  | [] => mret latest
  | file :: rest =>
      mtime ← statSync_mtime accountDir file;
      latestLoop accountDir rest (newer latest file mtime)
  end.

(** [getLatestTransactionsFile(bankId, accountName)] *)
Definition getLatestTransactionsFile (bankId : BankId) (accountName : list N)
    : M (option TransactionFileInfo) :=
  let accountDir := getAccountDir bankId accountName in
  ex ← existsSync accountDir;
  if negb ex then mret None else
  names ← readdirSync accountDir;
  let files := List.filter (endsWith (lit ".csv")) names in
  if (length files =? 0)%nat then mret None else
  latest ← latestLoop accountDir files None;
  match latest with
  | None => mret None
  | Some (latestFile, latestMtime) =>
      match parseTransactionsFilename latestFile with
      | None => mret None
      | Some startDate =>
          mret (Some (mkInfo accountName bankId startDate accountDir
                             latestFile latestMtime))
      end
  end.

(** The [for] loop of [hasTransactionsForToday]. *)
Fixpoint hasTransactionsLoop (bankId : BankId) (today : list N)
    (accountNames : list (list N)) : M bool :=
  match accountNames with
  | [] => mret true
  | accountName :: rest =>
      fileInfo ← getLatestTransactionsFile bankId accountName;
      match fileInfo with
      | None => mret false
      | Some info =>
          let fileDate := toISODate (tfi_lastModified info) in
          if bool_decide (fileDate = today) then
            hasTransactionsLoop bankId today rest
          else mret false
      end
  end.

(** [hasTransactionsForToday(bankId, accountNames)] *)
Definition hasTransactionsForToday (bankId : BankId)
    (accountNames : list (list N)) : M bool :=
  today ← getTodayDate;
  hasTransactionsLoop bankId today accountNames.

(** [ensureDir(dirPath)] *)
Definition ensureDir (dirPath : list N) : M unit :=
  ex ← existsSync dirPath;
  if negb ex then mkdirSync dirPath else mret tt.

(** [saveTransactionsCSV(bankId, accountName, startDate, csvContent)]; the
    result is [filePath]. *)
Definition saveTransactionsCSV (bankId : BankId) (accountName startDate
    csvContent : list N) : M (list N) :=
  let accountDir := getAccountDir bankId accountName in
  _ ← ensureDir accountDir;
  existingFile ← getLatestTransactionsFile bankId accountName;
  let effectiveStartDate :=
    match existingFile with
    | Some info => tfi_startDate info
    | None => startDate
    end in
  let filename := getTransactionsFilename effectiveStartDate in
  let filePath := path_join [accountDir; filename] in
  ex ← existsSync_file accountDir filename;
  _ ← (if (ex : bool) return M unit then
         existingContent ← readFileSync accountDir filename;
         let mergedContent := mergeCSV existingContent csvContent in
         writeFileSync accountDir filename mergedContent
       else writeFileSync accountDir filename csvContent);
  mret filePath.

(* ===================================================================== *)
(** ** transactions.ts: the credential resolver *)
(* ===================================================================== *)

(** [JSON.parse]; [None] when it throws a [SyntaxError]. *)
Variable JSON_parse : list N -> option json.

(** [/^Bearer\s+/i.test(s)] *)
Definition hasBearerPrefix (s : list N) : bool :=
  startsWithCI (lit "bearer") s
  && match drop 6 s with c :: _ => isWhiteSpace c | [] => false end.

(** [buildAuthorizationHeader(rawToken)] *)
Definition buildAuthorizationHeader (rawToken : option (list N)) : list N :=
  match rawToken with
  | None => []
  | Some t =>
      if negb (truthy_str t) then []
      else if hasBearerPrefix t then t
      else lit "Bearer " ++ t
  end.

(** The JSON branch of [extractTokenFromStorage]: the token candidate of a
    value that starts with a brace, when it is a string longer than 10. *)
Definition jsonToken (value : list N) : option (list N) :=
  if startsWith (lit "{") (trim value) then
    match JSON_parse value with
    | Some parsed =>
        let tokenCandidate :=
          or_else (or_else (or_else (prop parsed "access_token")
                                    (prop parsed "token"))
                           (prop parsed "id_token"))
                  (prop parsed "authorization") in
        match tokenCandidate with
        | JString t => if (10 <? length t)%nat then Some t else None
        | _ => None
        end
    | None => None
    end
  else None.

(** [/token|auth/i.test(key)] *)
Definition isTokenKey (key : list N) : bool :=
  includesCI (lit "token") key || includesCI (lit "auth") key.

(** [extractTokenFromStorage(entries)]: the token and the key it came
    from. *)
Fixpoint extractTokenFromStorage (entries : list (list N * list N))
    : option (list N * list N) :=
  match entries with
  | [] => None
  | (key, value) :: rest =>
      if negb (truthy_str value) then extractTokenFromStorage rest
      else
        match bearerMatch value with
        | Some m => Some (m, key)
        | None =>
            match jsonToken value with
            | Some t => Some (t, key)
            | None =>
                if isTokenKey key && (10 <? length value)%nat
                then Some (value, key)
                else extractTokenFromStorage rest
            end
        end
  end.

(** [resolveAuthHeader(page, fallbackAuthHeader)], given the entries of
    [localStorage] then [sessionStorage]: the header and its source. *)
Definition resolveAuthHeader (storageEntries : list (list N * list N))
    (fallbackAuthHeader : list N) : list N * list N :=
  if truthy_str fallbackAuthHeader then (fallbackAuthHeader, lit "request")
  else
    match extractTokenFromStorage storageEntries with
    | None => ([], lit "none")
    | Some (token, sourceKey) =>
        (buildAuthorizationHeader (Some token), lit "storage:" ++ sourceKey)
    end.

(* ===================================================================== *)
(** ** transactions.ts: the download-request manager and the fetcher *)
(* ===================================================================== *)

(** The object literal that [downloadTransactions] and
    [createDownloadRequests] build from an item of a response, with the
    extractor of the contract identifier each place uses. *)
Definition toDownloadInfo (extract : json -> option (list N))
    (pfmToName : gmap (list N) (list N)) (item : json) : M AccountDownloadInfo :=
  identity ← strictProp item "identity";
  let pfmId := extract identity in
  mret (mkADI pfmId
              (if truthy_opt pfmId then pfmId ≫= (pfmToName !!.) else None)
              (prop identity "downloadDate")
              (prop identity "startDate")
              (prop identity "endDate")
              (prop (prop (prop item "identification") "historyRequestId") "id")).

(** [new Set(accountsInfo.map((a) => a.pfmContractId).filter(Boolean))] *)
Definition targetIds (accountsInfo : list AccountDownloadInfo) : list (list N) :=
  Set_addAll
    (List.filter truthy_str (omap adi_pfmContractId accountsInfo)) [].

(** The loop that fills [historyByAccount] (and
    [updatedHistoryByAccount]): the first item listed for a target account
    is retained. *)
Fixpoint indexHistory (targets : list (list N)) (items : list json)
    (acc : gmap (list N) json) : M (gmap (list N) json) :=
  match items with
  | [] => mret acc
  | item :: rest =>
      identity ← strictProp item "identity";
      match extractHistoryRequestPfmContractId identity with
      | Some pfmId =>
          if truthy_str pfmId && bool_decide (pfmId ∈ targets)
             && negb (bool_decide (is_Some (acc !! pfmId)))
          then indexHistory targets rest (<[pfmId := item]> acc)
          else indexHistory targets rest acc
      | None => indexHistory targets rest acc
      end
  end.

(** The test of one account inside [allHaveCorrectDateRange]. *)
Definition hasCorrectDateRange (historyByAccount : gmap (list N) json)
    (startDate today pfmId : list N) : bool :=
  match historyByAccount !! pfmId with
  | Some historyItem =>
      truthy historyItem
      && strictEqStr (prop (prop historyItem "identity") "startDate") startDate
      && strictEqStr (prop (prop historyItem "identity") "endDate") today
  | None => false
  end.

Definition allHaveCorrectDateRange (historyByAccount : gmap (list N) json)
    (startDate today : list N) (targets : list (list N)) : bool :=
  forallb (hasCorrectDateRange historyByAccount startDate today) targets.

(** The [for] loop of [createDownloadRequests]; the result is
    [successCount]. *)
Fixpoint createLoop (page : Page) (accountsInfo : list AccountDownloadInfo)
    (startDate endDate authHeader : list N) (successCount : nat) : M nat :=
  match accountsInfo with
  | [] => mret successCount
  | accountInfo :: rest =>
      match adi_pfmContractId accountInfo with
      | Some pfmContractId =>
          if truthy_str pfmContractId then
            _ ← emit (EvCreateRequest pfmContractId startDate endDate);
            tr ← getTrace;
            let ok := pg_createHistoryRequest page tr authHeader
                        pfmContractId startDate endDate in
            createLoop page rest startDate endDate authHeader
                       (if ok then S successCount else successCount)
          else createLoop page rest startDate endDate authHeader successCount
      | None => createLoop page rest startDate endDate authHeader successCount
      end
  end.

Definition fatalMessage : list N :=
  lit "Failed to create any download requests. Aborting.".

(** [createDownloadRequests(...)] *)
Definition createDownloadRequests (page : Page)
    (accountsInfo : list AccountDownloadInfo)
    (startDate endDate authHeader : list N)
    (pfmToName : gmap (list N) (list N)) (targets : list (list N))
    : M (list AccountDownloadInfo) :=
  successCount ← createLoop page accountsInfo startDate endDate authHeader 0;
  if (successCount =? 0)%nat then throw (Error fatalMessage) else
  _ ← emit EvListRequests;
  tr ← getTrace;
  match pg_historyRequests page tr authHeader with
  | None => throw NetworkError
  | Some updatedData =>
      v ← strictProp updatedData "operationIdResponseItem";
      updatedItems ← iterate (or_else v (JArray []));
      updatedHistoryByAccount ← indexHistory targets updatedItems ∅;
      M_map (fun pfmId =>
               toDownloadInfo extractHistoryRequestPfmContractId pfmToName
                 (default JUndefined (updatedHistoryByAccount !! pfmId)))
            (List.filter
               (fun pfmId => bool_decide (is_Some (updatedHistoryByAccount !! pfmId)))
               targets)
  end.

(** [downloadAccountCSV(...)] *)
Definition downloadAccountCSV (page : Page) (accountInfo : AccountDownloadInfo)
    (startDate authHeader : list N) : M bool :=
  catch
    (_ ← emit (EvPrepareDownload (adi_historyRequestId accountInfo));
     tr ← getTrace;
     match pg_prepareDownload page tr authHeader
             (adi_historyRequestId accountInfo) with
     | None => throw NetworkError
     | Some (prepareContentType, prepareBody) =>
         prepareData ←
           (if includes (lit "application/json") prepareContentType
               && truthy_str prepareBody
            then match JSON_parse prepareBody with
                 | Some v => mret v
                 | None => throw SyntaxError
                 end
            else mret JNull);
         if negb (truthy prepareData) then mret false else
         let downloadUrl :=
           prop (prop (prop prepareData "prepareDownload") "characteristics")
                "downloadUrl" in
         if negb (truthy downloadUrl) then mret false else
         _ ← emit (EvFetch downloadUrl);
         tr' ← getTrace;
         match pg_download page tr' authHeader downloadUrl with
         | None => mret false
         | Some csvContent =>
             let accountName :=
               match adi_accountName accountInfo with
               | Some n =>
                   if truthy_str n then n
                   else lit "Account_"
                        ++ default (lit "undefined") (adi_pfmContractId accountInfo)
               | None =>
                   lit "Account_"
                   ++ default (lit "undefined") (adi_pfmContractId accountInfo)
               end in
             _ ← saveTransactionsCSV CAISSE_EPARGNE accountName startDate csvContent;
             mret true
         end
     end)
    false.

(** The loop of step 6; the result is [downloadedCount]. *)
Fixpoint downloadLoop (page : Page) (accountsWithIds : list AccountDownloadInfo)
    (startDate authHeader : list N) (downloadedCount : nat) : M nat :=
  match accountsWithIds with
  | [] => mret downloadedCount
  | accountInfo :: rest =>
      if negb (truthy (adi_historyRequestId accountInfo))
         || negb (truthy_opt (adi_pfmContractId accountInfo))
      then downloadLoop page rest startDate authHeader downloadedCount
      else
        success ← downloadAccountCSV page accountInfo startDate authHeader;
        downloadLoop page rest startDate authHeader
                     (if (success : bool) then S downloadedCount else downloadedCount)
  end.

(** [new Map(accountsFromApi.map((a) => [a.pfmContractId, a.accountName]))]:
    a later entry of the same key replaces an earlier one. *)
Definition pfmToNameOf (accountsFromApi : list AccountInfo)
    : gmap (list N) (list N) :=
  fold_left (fun m a => <[ai_pfmContractId a := ai_accountName a]> m)
            accountsFromApi ∅.

(** Steps 4 and 5 of [downloadTransactions]: the accounts of the last
    download, the target identifiers and the retained request of each. *)
Definition planDownload (page : Page) (pfmToName : gmap (list N) (list N))
    : M (list AccountDownloadInfo * list (list N) * gmap (list N) json) :=
  v ← strictProp (pg_lastDownloadData page) "operationIdResponseItem";
  let operationItems := or_else v (JArray []) in
  v' ← strictProp (pg_historyRequestsData page) "operationIdResponseItem";
  let historyRequestItems := or_else v' (JArray []) in
  items ← arrayOf operationItems;
  accountsInfo ← M_map (toDownloadInfo extractPfmContractId pfmToName) items;
  let targetPfmContractIds := targetIds accountsInfo in
  historyItems ← iterate historyRequestItems;
  historyByAccount ← indexHistory targetPfmContractIds historyItems ∅;
  mret (accountsInfo, targetPfmContractIds, historyByAccount).

(** [downloadTransactions(page, apiData)], from the accounts that
    [extractAccountsFromApiData(apiData)] lists. *)
Definition downloadTransactions (page : Page) (accountsFromApi : list AccountInfo)
    : M bool :=
  today ← getTodayDate;
  startDate ← getDateDaysAgo maxDaysBack;
  let pfmToName := pfmToNameOf accountsFromApi in
  let accountNames := List.map ai_accountName accountsFromApi in
  upToDate ← hasTransactionsForToday CAISSE_EPARGNE accountNames;
  if (upToDate : bool) then mret false else
  let authHeader :=
    fst (resolveAuthHeader (pg_storageEntries page)
           (if truthy_str (pg_authHeaderFromRequest page)
            then pg_authHeaderFromRequest page
            else pg_capturedAuthHeader page)) in
  '(accountsInfo, targetPfmContractIds, historyByAccount) ←
    planDownload page pfmToName;
  accountsWithIds ←
    (if allHaveCorrectDateRange historyByAccount startDate today
          targetPfmContractIds
     then
       M_map (fun pfmId =>
                toDownloadInfo extractHistoryRequestPfmContractId pfmToName
                  (default JUndefined (historyByAccount !! pfmId)))
             targetPfmContractIds
     else
       createDownloadRequests page accountsInfo startDate today authHeader
         pfmToName targetPfmContractIds);
  _ ← downloadLoop page accountsWithIds startDate authHeader 0;
  mret true.

(* ===================================================================== *)
(** ** storage.ts: balance snapshots and temporary files *)
(* ===================================================================== *)

(** [JSON.stringify(value, null, 2)], a built-in like [JSON.parse]. *)
Variable JSON_stringify : json -> list N.

(** [saveBalances(bankId, balances)]; the result is [filePath]. *)
Definition saveBalances (bankId : BankId) (balances : json) : M (list N) :=
  let dir := getBalancesDir bankId in
  _ ← ensureDir dir;
  date ← getTodayDate;
  timestamp ← nowISOString;
  let snapshot := snapshotOf date timestamp balances in
  today ← getTodayDate;
  let filename := getBalancesFilename today in
  let filePath := path_join [dir; filename] in
  _ ← writeFileSync dir filename (JSON_stringify snapshot);
  mret filePath.

(** [loadLatestBalances(bankId)]; [JNull] is [null]. *)
Definition loadLatestBalances (bankId : BankId) : M json :=
  let dir := getBalancesDir bankId in
  ex ← existsSync dir;
  if negb ex then mret JNull else
  names ← readdirSync dir;
  let files :=
    rev (Array_sort compareCodeUnits
           (List.filter (endsWith (lit ".json")) names)) in
  match files with
  | [] => mret JNull
  | latestFile :: _ =>
      content ← readFileSync dir latestFile;
      match JSON_parse content with
      | Some v => mret v
      | None => throw SyntaxError
      end
  end.

(** [hasBalancesForToday(bankId)] *)
Definition hasBalancesForToday (bankId : BankId) : M bool :=
  latest ← loadLatestBalances bankId;
  today ← getTodayDate;
  mret (strictEqStr (prop latest "date") today).

(** [getTempFilePath(filename)] *)
Definition getTempFilePath (filename : list N) : M (list N) :=
  _ ← ensureDir TEMP_DIR;
  mret (path_join [TEMP_DIR; filename]).

(** [cleanupTempDir()] *)
Definition cleanupTempDir : M unit :=
  ex ← existsSync TEMP_DIR;
  if (ex : bool) then
    files ← readdirSync TEMP_DIR;
    unlinkAll TEMP_DIR files
  else mret tt.

(* ===================================================================== *)
(** ** Vocabulary of the statements *)
(* ===================================================================== *)

(* --- Rows of the merger --- *)

(** A line as the merger keeps it: free of line feeds and not blank. *)
Definition isLine (w : list N) : Prop := (10%N ∉ w) /\ truthy_str (trim w) = true.

(** The time value of a row when it has one ([0] stands for a row whose
    date does not parse; the theorem below excludes such rows). *)
Definition rowKey (row : list N) : Z := default 0 (rowTime row).

(* --- Calendar dates --- *)

(** The date a row carries in its first field, as (year, month, day),
    when the three components are numbers. *)
Definition rowDate (row : list N) : option (Z * Z * Z) :=
  match List.map Number (str_split 47 (hd [] (str_split 59 row))) with
  | Some day :: Some month :: Some year :: _ => Some (year, month, day)
  | _ => None
  end.

Definition daysInMonth (year month : Z) : Z :=
  if month =? 2 then (if InLeapYear year then 29 else 28)
  else if (month =? 4) || (month =? 6) || (month =? 9) || (month =? 11) then 30
  else 31.

(** A date of the calendar, with a year that [Date] does not remap. *)
Definition validDate (date : Z * Z * Z) : Prop :=
  let '(year, month, day) := date in
  100 <= year <= 9999 /\ 1 <= month <= 12 /\ 1 <= day <= daysInMonth year month.

(** [a] is the same day as [b] or an earlier one. *)
Definition dateLe (a b : Z * Z * Z) : Prop :=
  let '(y1, m1, d1) := a in
  let '(y2, m2, d2) := b in
  y1 < y2 \/ (y1 = y2 /\ (m1 < m2 \/ (m1 = m2 /\ d1 <= d2))).

(** The day of the year, from 0, of a date of the calendar. *)
Definition dayOfYear (year month day : Z) : Z :=
  monthStart (InLeapYear year) (month - 1) + day - 1.

(* --- Order of the merged rows --- *)

(** In the output a row's date is never earlier than the date of a row
    below it (for rows that carry dates of the calendar). *)
Definition notBefore (a b : list N) : Prop :=
  forall da db,
    rowDate a = Some da -> rowDate b = Some db ->
    validDate da -> validDate db -> dateLe db da.

(* --- The archive of an account --- *)

(** A computation that only reads: it returns and leaves the world as it
    found it. *)
Definition readOnly {A} (m : M A) : Prop := forall w, exists a, m w = (Ok a, w).

(** The loop of [getLatestTransactionsFile] over a listing, without the
    monad. *)
Definition latestOf (entries : list file) (files : list (list N))
    (latest : option (list N * Z)) : option (list N * Z) :=
  fold_left (fun latest file =>
               match findFile file entries with
               | Some f => newer latest file (f_mtime f)
               | None => latest
               end) files latest.

(** The [.csv] names of a listing. *)
Definition csvFiles (entries : list file) : list (list N) :=
  List.filter (endsWith (lit ".csv")) (List.map f_name entries).

(** What [getLatestTransactionsFile] returns, read off the file system. *)
Definition latestInfo (w : World) (bankId : BankId) (accountName : list N)
    : option TransactionFileInfo :=
  let accountDir := getAccountDir bankId accountName in
  entries ← w_fs w !! accountDir;
  '(latestFile, latestMtime) ← latestOf entries (csvFiles entries) None;
  startDate ← parseTransactionsFilename latestFile;
  Some (mkInfo accountName bankId startDate accountDir latestFile latestMtime).

(** The data model keeps one archive file per account. [soleArchive]:
    the directory lists exactly one [.csv] file, an archive file of that
    name and modification time. [noArchive]: the directory does not exist
    or lists no [.csv] file. *)
Definition soleArchive (w : World) (dir name : list N) (mtime : Z) : Prop :=
  exists entries f,
    w_fs w !! dir = Some entries
    /\ csvFiles entries = [name]
    /\ findFile name entries = Some f
    /\ f_mtime f = mtime
    /\ is_Some (parseTransactionsFilename name).

Definition noArchive (w : World) (dir : list N) : Prop :=
  match w_fs w !! dir with
  | Some entries => csvFiles entries = []
  | None => True
  end.

(** An account is fresh when its latest archive file was modified on the
    calendar date [today]. *)
Definition freshAccount (w : World) (bankId : BankId) (today accountName : list N)
    : Prop :=
  exists info,
    getLatestTransactionsFile bankId accountName w = (Ok (Some info), w)
    /\ toISODate (tfi_lastModified info) = today.

(* --- Directory names --- *)

(** [a-z0-9_-]: lower-case ASCII letters, digits, underscore, hyphen. *)
Definition isNameChar (c : N) : bool :=
  (isLower c || isDigit c || (c =? 95) || (c =? 45))%N.

(** A code unit [sanitizeName] removes: an accent (combining diacritical
    mark) or a special character (neither ASCII letter, digit, white
    space nor hyphen). *)
Definition isRemoved (c : N) : bool := isCombiningMark c || negb (isKept c).

Definition isAsciiLetter (c : N) : bool := isUpper c || isLower c.

(** Two strings that differ only in the case of ASCII letters, in accents
    and in special characters. *)
Inductive sameName : list N -> list N -> Prop :=
| sameName_nil : sameName [] []
| sameName_unit c a b : sameName a b -> sameName (c :: a) (c :: b)
| sameName_case c d a b :
    isAsciiLetter c = true -> isAsciiLetter d = true ->
    lowerAscii c = lowerAscii d ->
    sameName a b -> sameName (c :: a) (d :: b)
| sameName_removed_l c a b :
    isRemoved c = true -> sameName a b -> sameName (c :: a) b
| sameName_removed_r c a b :
    isRemoved c = true -> sameName a b -> sameName a (c :: b).

(** The string [sanitizeName] hands to [toLowerCase]. *)
Definition sanitizeCore (inRun : bool) (s : list N) : list N :=
  replaceSpaceRuns inRun
    (List.filter isKept (List.filter (fun c => negb (isCombiningMark c)) s)).

(* --- The credential chain --- *)

(** The fallback chain in the specification's words, for one stored
    entry: (a) a bearer-pattern substring of the value, else (b) a token
    field of a JSON object, longer than 10, else (c) the whole value when
    the key names a token and the value is longer than 10. *)
Definition ruleBearer (entry : list N * list N) : option (list N) :=
  bearerMatch (snd entry).

Definition ruleJsonField (entry : list N * list N) : option (list N) :=
  jsonToken (snd entry).

Definition ruleKeyName (entry : list N * list N) : option (list N) :=
  if isTokenKey (fst entry) && (10 <? length (snd entry))%nat
  then Some (snd entry) else None.

Definition entryToken (entry : list N * list N) : option (list N) :=
  match ruleBearer entry with
  | Some t => Some t
  | None =>
      match ruleJsonField entry with
      | Some t => Some t
      | None => ruleKeyName entry
      end
  end.

(* --- Runs of the download engine --- *)

(** The contract identifiers the create loop posts, in order. The target
    set is this list without repetitions. *)
Definition createIds (accountsInfo : list AccountDownloadInfo) : list (list N) :=
  List.filter truthy_str (omap adi_pfmContractId accountsInfo).

Definition isCreateEvent (e : event) : bool :=
  match e with EvCreateRequest _ _ _ => true | _ => false end.

Definition prepareIdOf (e : event) : option json :=
  match e with EvPrepareDownload id => Some id | _ => None end.

(** The events that can follow a prepare call for one account: the fetch
    and the writes of the archive. *)
Definition isDownloadEffect (e : event) : bool :=
  match e with EvFetch _ | EvMkdir _ | EvWriteFile _ _ => true | _ => false end.

(** An account the loop of step 6 downloads: both identifiers are truthy. *)
Definition isReady (accountInfo : AccountDownloadInfo) : bool :=
  truthy (adi_historyRequestId accountInfo)
  && truthy_opt (adi_pfmContractId accountInfo).

(** A computation that touches nothing: it leaves the world alone, and if
    it throws, it is a [TypeError]. *)
Definition inspects {A} (m : M A) : Prop :=
  forall w, exists r, m w = (r, w) /\ forall e, r = Throw e -> e = TypeError.

Definition isNullish (v : json) : bool :=
  match v with JUndefined | JNull => true | _ => false end.

(** What a retained request is: an item of the listing (an object), whose
    extracted contract identifier is the key, a target. *)
Definition retainedOK (targets : list (list N)) (items : list json)
    (m : gmap (list N) json) : Prop :=
  forall pfmId item,
    m !! pfmId = Some item ->
    item ∈ items
    /\ isNullish item = false
    /\ extractHistoryRequestPfmContractId (prop item "identity") = Some pfmId
    /\ truthy_str pfmId = true
    /\ pfmId ∈ targets.

(** The identifier of the request an item of the listing stands for:
    [item.identification?.historyRequestId?.id]. *)
Definition requestIdOf (item : json) : json :=
  prop (prop (prop item "identification") "historyRequestId") "id".

(** The account record built from a retained request. *)
Definition retainedInfo (pfmToName : gmap (list N) (list N))
    (historyByAccount : gmap (list N) json) (pfmId : list N) : AccountDownloadInfo :=
  let item := default JUndefined (historyByAccount !! pfmId) in
  mkADI (Some pfmId) (pfmToName !! pfmId)
        (prop (prop item "identity") "downloadDate")
        (prop (prop item "identity") "startDate")
        (prop (prop item "identity") "endDate")
        (requestIdOf item).

(** The window of the run and the header it sends. *)
Definition runToday (w : World) : list N := toISODate (w_now w).

Definition runStartDate (w : World) : list N :=
  toISODate (w_now w - maxDaysBack * msPerDay).

Definition runAuthHeader (page : Page) : list N :=
  fst (resolveAuthHeader (pg_storageEntries page)
         (if truthy_str (pg_authHeaderFromRequest page)
          then pg_authHeaderFromRequest page
          else pg_capturedAuthHeader page)).

(** A target account has a retained request for the window
    [startDate .. today]. *)
Definition hasWindow (historyByAccount : gmap (list N) json)
    (startDate today pfmId : list N) : Prop :=
  exists item,
    historyByAccount !! pfmId = Some item
    /\ prop (prop item "identity") "startDate" = JString startDate
    /\ prop (prop item "identity") "endDate" = JString today.

(** The create calls of a run, latest first, as they stand in the trace. *)
Definition createCalls (accountsInfo : list AccountDownloadInfo)
    (startDate endDate : list N) : list event :=
  rev (List.map (fun pfmId => EvCreateRequest pfmId startDate endDate)
                (createIds accountsInfo)).

(* --- The digit map of the virtual keyboard --- *)

(** The entries of an object with index keys: ascending keys, each once. *)
Definition indexOrdered {V} (o : list (N * V)) : Prop :=
  StronglySorted N.lt (List.map fst o).

(** The digits that valid readings show. *)
Definition validReadings (digitMap : list (N * Z)) : list Z :=
  List.filter isValidDigit (List.map snd digitMap).

(** What the first loop of [cleanDigitMap] stores for a reading. *)
Definition markFaulty (entry : N * Z) : N * Z :=
  (fst entry, if isValidDigit (snd entry) then snd entry else -1).

(** [cleaned] keeps the keys of [cleaned0] and its values, except that an
    unresolved button ([-1]) may have taken a digit of [digits]. *)
Definition resolves (digits : list Z) (cleaned0 cleaned : list (N * Z)) : Prop :=
  Forall2 (fun p0 p =>
             fst p = fst p0
             /\ (snd p = snd p0 \/ (snd p0 = -1 /\ snd p ∈ digits)))
          cleaned0 cleaned.

(** One step of a matching loop: nothing, or one unresolved button takes
    the digit. *)
Definition assigns (digit : Z) (cleaned cleaned' : list (N * Z)) : Prop :=
  cleaned' = cleaned
  \/ exists l1 key l2,
       cleaned = l1 ++ (key, -1) :: l2 /\ cleaned' = l1 ++ (key, digit) :: l2.

(** Every value is a digit or the mark [-1], and no digit shows twice. *)
Definition distinctDigits (cleaned : list (N * Z)) : Prop :=
  Forall (fun v => v = -1 \/ isValidDigit v = true) (List.map snd cleaned)
  /\ NoDup (List.filter (fun v => negb (v =? -1)) (List.map snd cleaned)).

(* --- Reading and typing digits --- *)

(** A code unit that [recognizeDigit] reads as a digit: [0-9], or one of
    [O o] (read as 0) and [l I] (read as 1). *)
Definition isDigitLike (c : N) : bool :=
  (isDigit c || (c =? 79) || (c =? 111) || (c =? 108) || (c =? 73))%N.

(** The digit map that [inputPassword] clicks from, for the readings of
    the buttons in order. *)
Definition keyboardOf (readings : list Z) : list (N * Z) :=
  cleanDigitMap
    (digitMapOf (imap (fun index digit => (N.of_nat index, digit)) readings)).

(* --- Account data of the API response --- *)

(** The array that the extractors filter: [apiData?.items || []], when it
    is an array. *)
Definition apiItems (apiData : json) : option (list json) :=
  match or_else (prop apiData "items") (JArray []) with
  | JArray items => Some items
  | _ => None
  end.

(** [item.identity?.balance] *)
Definition balanceOf (item : json) : json := prop (prop item "identity") "balance".

(** The entry that [extractBalances] builds from an item. *)
Definition toBalance (item : json) : AccountBalance :=
  mkBalance (prop (prop item "identity") "contractLabel")
            (prop (balanceOf item) "value").

(** [item.identification?.contractPfmId] *)
Definition contractPfmIdOf (item : json) : json :=
  prop (prop item "identification") "contractPfmId".

(** An item that [extractBalances] can read: it is there, and its
    identity has a [balance] property ([null] for an account without
    balance). *)
Definition readableBalance (item : json) : Prop :=
  isNullish item = false /\ balanceOf item <> JUndefined.

(** The account that [extractAccountsFromApiData] builds from an item. *)
Definition toApiAccount (item : json) : ApiAccount :=
  let label := prop (prop item "identity") "contractLabel" in
  mkApiAccount (String_of (contractPfmIdOf item))
    (if truthy label then label
     else JString (lit "Account " ++ String_of (contractPfmIdOf item))).

(* --- Balance snapshots --- *)

(** The [.json] names of a listing. *)
Definition jsonFiles (entries : list file) : list (list N) :=
  List.filter (endsWith (lit ".json")) (List.map f_name entries).

(** [a] sorts at or before [b] in the order of [sort()]: code unit by
    code unit, a prefix first. *)
Definition sortsBefore (a b : list N) : Prop := compareCodeUnits a b <= 0.

(* --- Dates in file names --- *)

(** A date written [YYYY-MM-DD]: ten code units, digits around two
    hyphens. *)
Definition isISODate (date : list N) : bool :=
  match date with
  | [y1; y2; y3; y4; h1; m1; m2; h2; d1; d2] =>
      forallb isDigit [y1; y2; y3; y4; m1; m2; d1; d2]
      && (h1 =? 45)%N && (h2 =? 45)%N
  | _ => false
  end.

(** The calendar year of a time value. *)
Definition yearOf (t : Z) : Z := fst (fst (civilFromDays (t / msPerDay))).

(* --- What a computation may change --- *)

(** A computation that leaves the clock alone and changes the files of
    no directory outside [P], however it ends. *)
Definition touchesOnly {A} (P : list N -> Prop) (m : M A) : Prop :=
  forall w r w',
    m w = (r, w') ->
    w_now w' = w_now w
    /\ forall d, ~ P d -> w_fs w' !! d = w_fs w !! d.

(** The directory of some account of the bank. *)
Definition isAccountDir (bankId : BankId) (d : list N) : Prop :=
  exists accountName, d = getAccountDir bankId accountName.

(* ===================================================================== *)
(** ** Lines: splitting and joining *)
(* ===================================================================== *)

Lemma str_split_nonempty sep s : str_split sep s <> [].
Proof. destruct s as [|c s]; simpl; [done|]. destruct (c =? sep)%N; [done|]. by destruct (str_split sep s). Qed.

Lemma str_split_no_sep sep s : Forall (fun w => sep ∉ w) (str_split sep s).
Proof.
  induction s as [|c s IH]; simpl.
  - constructor; [|constructor]. by intros ?%elem_of_nil.
  - destruct (N.eqb_spec c sep) as [->|Hne].
    + constructor; [|done]. by intros ?%elem_of_nil.
    + destruct (str_split sep s) as [|w ws] eqn:E; [by apply str_split_nonempty in E|].
      inversion IH as [|? ? Hw Hws]; subst. constructor; [|done].
      intros [->|?]%elem_of_cons; [done|auto].
Qed.

Lemma str_split_app_sep sep w s :
  sep ∉ w -> str_split sep (w ++ sep :: s) = w :: str_split sep s.
Proof.
  induction w as [|c w IH]; simpl; intros Hw.
  - by rewrite N.eqb_refl.
  - destruct (N.eqb_spec c sep) as [->|Hne]; [by destruct Hw; left|].
    rewrite IH; [done|]. intros ?; apply Hw; by right.
Qed.

Lemma str_split_single sep w : sep ∉ w -> str_split sep w = [w].
Proof.
  induction w as [|c w IH]; simpl; intros Hw; [done|].
  destruct (N.eqb_spec c sep) as [->|Hne]; [by destruct Hw; left|].
  rewrite IH; [done|]. intros ?; apply Hw; by right.
Qed.

Lemma str_split_join sep l :
  l <> [] -> Forall (fun w => sep ∉ w) l -> str_split sep (str_join [sep] l) = l.
Proof.
  induction l as [|w l IH]; [done|]. intros _ Hall.
  inversion Hall as [|? ? Hw Hl]; subst.
  destruct l as [|w' l].
  - simpl. by apply str_split_single.
  - change (str_join [sep] (w :: w' :: l)) with (w ++ sep :: str_join [sep] (w' :: l)).
    rewrite str_split_app_sep by done. f_equal. by apply IH.
Qed.

Lemma nonBlankLines_isLine content : Forall isLine (nonBlankLines content).
Proof.
  unfold nonBlankLines. apply List.Forall_forall. intros w [Hin Hnb]%filter_In.
  split; [|done].
  pose proof (str_split_no_sep 10 content) as H.
  rewrite List.Forall_forall in H. by apply H.
Qed.

Lemma filter_all_true {A} (f : A -> bool) l :
  Forall (fun x => f x = true) l -> List.filter f l = l.
Proof. induction 1 as [|x l Hx _ IH]; simpl; [done|]. by rewrite Hx, IH. Qed.

Lemma nonBlankLines_join l :
  l <> [] -> Forall isLine l -> nonBlankLines (str_join [10%N] l) = l.
Proof.
  intros Hne Hall. unfold nonBlankLines.
  rewrite str_split_join; [|done|by eapply Forall_impl; [done|intros ? []]].
  apply filter_all_true. by eapply Forall_impl; [done|intros ? []].
Qed.

(* ===================================================================== *)
(** ** The ordered set *)
(* ===================================================================== *)

Lemma elem_of_Set_add x y s : x ∈ Set_add y s <-> x = y \/ x ∈ s.
Proof.
  unfold Set_add. destruct (decide (y ∈ s)).
  - split; [by right|]. by intros [->|].
  - rewrite elem_of_app, list_elem_of_singleton.
    split; (intros [?|?]; [by right|by left]).
Qed.

Lemma NoDup_Set_add y s : NoDup s -> NoDup (Set_add y s).
Proof.
  unfold Set_add. intros Hs. destruct (decide (y ∈ s)); [done|].
  apply NoDup_app. split_and!; [done| |apply NoDup_singleton].
  by intros x Hx ->%list_elem_of_singleton.
Qed.

Lemma elem_of_Set_addAll x xs s : x ∈ Set_addAll xs s <-> x ∈ xs \/ x ∈ s.
Proof.
  unfold Set_addAll. revert s. induction xs as [|y xs IH]; intros s; simpl.
  - split; [by right|]. by intros [?%elem_of_nil|].
  - rewrite IH, elem_of_Set_add, elem_of_cons.
    split; [intros [?|[?|?]]|intros [[?|?]|?]]; auto.
Qed.

Lemma NoDup_Set_addAll xs s : NoDup s -> NoDup (Set_addAll xs s).
Proof.
  unfold Set_addAll. revert s. induction xs as [|y xs IH]; intros s Hs; simpl; [done|].
  by apply IH, NoDup_Set_add.
Qed.

Lemma elem_of_allData r el nl : r ∈ allData el nl <-> r ∈ tail el \/ r ∈ tail nl.
Proof.
  unfold allData. rewrite !elem_of_Set_addAll.
  split; [intros [?|[?|?%elem_of_nil]]|intros [?|?]]; try done; auto.
Qed.

Lemma NoDup_allData el nl : NoDup (allData el nl).
Proof. unfold allData. apply NoDup_Set_addAll, NoDup_Set_addAll, NoDup_nil_2. Qed.

(* ===================================================================== *)
(** ** Sorting *)
(* ===================================================================== *)

Section SortFacts.
Context {A : Type} (compareFn : A -> A -> Z).

Lemma sort_insert_Permutation x l : sort_insert compareFn x l ≡ₚ x :: l.
Proof.
  induction l as [|y l IH]; simpl; [done|].
  destruct (compareFn x y <=? 0); [done|].
  rewrite IH. apply perm_swap.
Qed.

Lemma Array_sort_Permutation l : Array_sort compareFn l ≡ₚ l.
Proof.
  induction l as [|x l IH]; simpl; [done|].
  unfold Array_sort in *. simpl. by rewrite sort_insert_Permutation, IH.
Qed.

(** When the comparator is the difference of a key, descending, the
    result is sorted by that key, largest first. *)
Context (key : A -> Z).

Lemma sort_insert_sorted x l :
  (forall y, y ∈ l -> compareFn x y = key y - key x) ->
  StronglySorted (keyDescending key) l ->
  StronglySorted (keyDescending key) (sort_insert compareFn x l).
Proof.
  induction l as [|y l IH]; simpl; intros Hcmp Hs.
  - constructor; [constructor|constructor].
  - inversion Hs as [|? ? Hs' Hall]; subst.
    rewrite (Hcmp y) by (by left).
    destruct (Z.leb_spec (key y - key x) 0) as [Hle|Hgt].
    + constructor; [done|]. constructor; [unfold keyDescending; lia|].
      eapply Forall_impl; [done|]. unfold keyDescending. intros z Hz; simpl in *. lia.
    + constructor.
      * apply IH; [|done]. intros z Hz. apply Hcmp. by right.
      * assert (Hp := sort_insert_Permutation x l).
        rewrite Hp. constructor; [unfold keyDescending; lia|done].
  Qed.

Lemma Array_sort_sorted l :
  (forall x y, x ∈ l -> y ∈ l -> compareFn x y = key y - key x) ->
  StronglySorted (keyDescending key) (Array_sort compareFn l).
Proof.
  induction l as [|x l IH]; intros Hcmp; [constructor|].
  change (Array_sort compareFn (x :: l)) with (sort_insert compareFn x (Array_sort compareFn l)).
  apply sort_insert_sorted.
  - intros y Hy. rewrite Array_sort_Permutation in Hy.
    apply Hcmp; [by left|by right].
  - apply IH. intros a b Ha Hb. apply Hcmp; by right.
Qed.

End SortFacts.

(* ===================================================================== *)
(** ** The CSV merger *)
(* ===================================================================== *)

Lemma mergeCSV_existing_blank existing newContent :
  nonBlankLines existing = [] -> mergeCSV existing newContent = newContent.
Proof. intros He. unfold mergeCSV. by rewrite He. Qed.

Lemma mergeCSV_new_blank existing newContent :
  nonBlankLines existing <> [] -> nonBlankLines newContent = [] ->
  mergeCSV existing newContent = existing.
Proof.
  intros He Hn. unfold mergeCSV.
  destruct (nonBlankLines existing); [done|]. by rewrite Hn.
Qed.

(** The merged case of [mergeCSV] written out. *)
Lemma mergeCSV_merged existing newContent header rest :
  nonBlankLines existing = header :: rest ->
  nonBlankLines newContent <> [] ->
  mergeCSV existing newContent =
    str_join [10%N]
      (header :: Array_sort compareRows
                   (allData (nonBlankLines existing) (nonBlankLines newContent))).
Proof.
  intros He Hn. unfold mergeCSV. rewrite He.
  by destruct (nonBlankLines newContent).
Qed.

(** Reading a merged content back gives the header and the sorted rows. *)
Lemma nonBlankLines_mergeCSV existing newContent header rest :
  nonBlankLines existing = header :: rest ->
  nonBlankLines newContent <> [] ->
  nonBlankLines (mergeCSV existing newContent) =
    header :: Array_sort compareRows
                (allData (nonBlankLines existing) (nonBlankLines newContent)).
Proof.
  intros He Hn. rewrite (mergeCSV_merged _ _ _ _ He Hn).
  apply nonBlankLines_join; [done|].
  pose proof (nonBlankLines_isLine existing) as Hle.
  pose proof (nonBlankLines_isLine newContent) as Hln.
  rewrite He in Hle. inversion Hle as [|? ? Hh Hrest]; subst.
  constructor; [done|].
  apply List.Forall_forall. intros r Hr.
  apply list_elem_of_In in Hr. rewrite Array_sort_Permutation in Hr.
  apply elem_of_allData in Hr. rewrite He in Hr. simpl in Hr.
  rewrite List.Forall_forall in Hrest, Hln.
  destruct Hr as [Hr|Hr].
  - apply Hrest. by apply list_elem_of_In.
  - apply Hln. apply list_elem_of_In. destruct (nonBlankLines newContent); [done|by right].
Qed.

Lemma dataRows_mergeCSV existing newContent :
  nonBlankLines existing <> [] ->
  nonBlankLines newContent <> [] ->
  dataRows (mergeCSV existing newContent) ≡ₚ
    allData (nonBlankLines existing) (nonBlankLines newContent).
Proof.
  intros He Hn. destruct (nonBlankLines existing) as [|header rest] eqn:E; [done|].
  unfold dataRows. rewrite (nonBlankLines_mergeCSV _ _ _ _ E Hn). simpl.
  rewrite E. apply Array_sort_Permutation.
Qed.

(** C5. For a CSV content [X] with at least one non-blank line, the
    non-header rows of [mergeCSV X X] are exactly the non-header rows of
    [X], each occurring once. *)
Theorem mergeCSV_idempotent_rows (X : list N) :
  nonBlankLines X <> [] ->
  (forall r, r ∈ dataRows (mergeCSV X X) <-> r ∈ dataRows X)
  /\ NoDup (dataRows (mergeCSV X X)).
Proof.
  intros HX. pose proof (dataRows_mergeCSV X X HX HX) as Hp. split.
  - intros r. rewrite Hp, elem_of_allData. unfold dataRows.
    split; [by intros [?|?]|by left].
  - rewrite Hp. apply NoDup_allData.
Qed.

(** C6. Every non-header row of the existing archive is a non-header row
    of the merged output; every row of the output comes from the archive
    or from the new export; and when both contents have lines (the case
    that merges) no row occurs twice. *)
Theorem mergeCSV_retains_rows (existing newContent : list N) :
  (forall r, r ∈ dataRows existing -> r ∈ dataRows (mergeCSV existing newContent))
  /\ (forall r, r ∈ dataRows (mergeCSV existing newContent) ->
            r ∈ dataRows existing \/ r ∈ dataRows newContent)
  /\ (nonBlankLines existing <> [] -> nonBlankLines newContent <> [] ->
      NoDup (dataRows (mergeCSV existing newContent))).
Proof.
  destruct (nonBlankLines existing) as [|header rest] eqn:He.
  { rewrite (mergeCSV_existing_blank _ _ He).
    assert (Hde : dataRows existing = []) by (unfold dataRows; by rewrite He).
    rewrite Hde. split_and!; [by intros r ?%elem_of_nil|by right|done]. }
  destruct (nonBlankLines newContent) as [|nh nrest] eqn:Hn.
  { rewrite mergeCSV_new_blank by congruence. split_and!; [done|by left|done]. }
  assert (Hp : dataRows (mergeCSV existing newContent) ≡ₚ
               allData (header :: rest) (nh :: nrest)).
  { rewrite <- He, <- Hn. apply dataRows_mergeCSV; congruence. }
  assert (Hde : dataRows existing = rest) by (unfold dataRows; by rewrite He).
  assert (Hdn : dataRows newContent = nrest) by (unfold dataRows; by rewrite Hn).
  rewrite Hde, Hdn. split_and!.
  - intros r Hr. rewrite Hp, elem_of_allData. by left.
  - intros r Hr. rewrite Hp, elem_of_allData in Hr. done.
  - intros _ _. rewrite Hp. apply NoDup_allData.
Qed.

(* ===================================================================== *)
(** ** Time values and calendar dates *)
(* ===================================================================== *)

Lemma DayFromYear_succ y :
  DayFromYear (y + 1) = DayFromYear y + 365 + (if InLeapYear y then 1 else 0).
Proof.
  unfold DayFromYear, InLeapYear.
  destruct (Z.eqb_spec (y mod 4) 0), (Z.eqb_spec (y mod 100) 0),
    (Z.eqb_spec (y mod 400) 0); simpl; Z.div_mod_to_equations; lia.
Qed.

Lemma DayFromYear_next y1 y2 :
  y1 < y2 -> DayFromYear y1 + 365 + (if InLeapYear y1 then 1 else 0) <= DayFromYear y2.
Proof.
  intros H. replace y2 with (y1 + 1 + (y2 - y1 - 1)) by lia.
  assert (Hk : 0 <= y2 - y1 - 1) by lia. revert Hk.
  generalize (y2 - y1 - 1). clear H. intros k Hk. pattern k.
  apply natlike_ind; [| |done].
  - rewrite Z.add_0_r, DayFromYear_succ. lia.
  - intros x Hx IH. replace (y1 + 1 + Z.succ x) with ((y1 + 1 + x) + 1) by lia.
    rewrite DayFromYear_succ. destruct (InLeapYear (y1 + 1 + x)); lia.
Qed.

Lemma MakeDay_calendar year month day :
  1 <= month <= 12 ->
  MakeDay year (month - 1) day = DayFromYear year + dayOfYear year month day.
Proof.
  intros Hm. unfold MakeDay, dayOfYear.
  rewrite Z.div_small, Z.mod_small, Z.add_0_r by lia. lia.
Qed.

Lemma month_cases m : 1 <= m <= 12 ->
  m = 1 \/ m = 2 \/ m = 3 \/ m = 4 \/ m = 5 \/ m = 6 \/ m = 7 \/ m = 8 \/ m = 9
  \/ m = 10 \/ m = 11 \/ m = 12.
Proof. lia. Qed.

Lemma dayOfYear_bounds year month day :
  validDate (year, month, day) ->
  0 <= dayOfYear year month day <= 364 + (if InLeapYear year then 1 else 0).
Proof.
  intros (_ & Hm & Hd). unfold dayOfYear, daysInMonth, monthStart in *.
  destruct (InLeapYear year);
    destruct (month_cases month Hm) as [->|[->|[->|[->|[->|[->|[->|[->|[->|[->|[->| ->]]]]]]]]]]];
    simpl in *; lia.
Qed.

Lemma dayOfYear_month_mono year m1 d1 m2 d2 :
  validDate (year, m1, d1) -> validDate (year, m2, d2) -> m1 < m2 ->
  dayOfYear year m1 d1 < dayOfYear year m2 d2.
Proof.
  intros (_ & Hm1 & Hd1) (_ & Hm2 & Hd2) Hlt.
  unfold dayOfYear, daysInMonth, monthStart in *.
  destruct (InLeapYear year);
    destruct (month_cases m1 Hm1) as [->|[->|[->|[->|[->|[->|[->|[->|[->|[->|[->| ->]]]]]]]]]]];
    destruct (month_cases m2 Hm2) as [->|[->|[->|[->|[->|[->|[->|[->|[->|[->|[->| ->]]]]]]]]]]];
    simpl in *; lia.
Qed.

(** On dates of the calendar the day number orders as the calendar does. *)
Lemma MakeDay_order a b :
  validDate a -> validDate b ->
  let '(y1, m1, d1) := a in
  let '(y2, m2, d2) := b in
  MakeDay y1 (m1 - 1) d1 <= MakeDay y2 (m2 - 1) d2 <-> dateLe a b.
Proof.
  destruct a as [[y1 m1] d1], b as [[y2 m2] d2]. intros Ha Hb.
  pose proof (dayOfYear_bounds _ _ _ Ha) as Ba.
  pose proof (dayOfYear_bounds _ _ _ Hb) as Bb.
  rewrite (MakeDay_calendar y1 m1 d1) by (by destruct Ha as (_ & ? & _)).
  rewrite (MakeDay_calendar y2 m2 d2) by (by destruct Hb as (_ & ? & _)).
  unfold dateLe.
  set (l1 := if InLeapYear y1 then 1 else 0) in *.
  set (l2 := if InLeapYear y2 then 1 else 0) in *.
  destruct (Z.lt_trichotomy y1 y2) as [Hy|[->|Hy]].
  - pose proof (DayFromYear_next _ _ Hy). fold l1 in H. split; [by left|]. lia.
  - destruct (Z.lt_trichotomy m1 m2) as [Hm|[->|Hm]].
    + pose proof (dayOfYear_month_mono _ _ _ _ _ Ha Hb Hm). split; [|lia].
      intros _. right. split; [done|by left].
    + unfold dayOfYear. split; [|lia]. intros ?. right. split; [done|]. right. lia.
    + pose proof (dayOfYear_month_mono _ _ _ _ _ Hb Ha Hm). lia.
  - pose proof (DayFromYear_next _ _ Hy). fold l2 in H. lia.
Qed.

Lemma DayFromYear_bounds y : 100 <= y <= 9999 -> -700000 <= DayFromYear y <= 3000000.
Proof. intros H. unfold DayFromYear. Z.div_mod_to_equations. lia. Qed.

(** The key the comparator uses is the day number of the row's date. *)
Lemma rowTime_calendar row year month day :
  rowDate row = Some (year, month, day) -> validDate (year, month, day) ->
  rowTime row = Some (MakeDay year (month - 1) day * msPerDay).
Proof.
  unfold rowDate, rowTime, parseFrenchDate. intros Hd Hv.
  destruct (List.map Number (str_split 47 (hd [] (str_split 59 row))))
    as [|[d|] [|[m|] [|[y|] rest]]]; try done.
  injection Hd as -> -> ->. simpl.
  pose proof (dayOfYear_bounds _ _ _ Hv) as Bd.
  destruct Hv as (Hy & Hm & _).
  destruct (Z.leb_spec 0 year), (Z.leb_spec year 99); try lia; simpl.
  all: unfold TimeClip; rewrite MakeDay_calendar by done;
    pose proof (DayFromYear_bounds year Hy);
    destruct (InLeapYear year);
    (destruct (Z.leb_spec (Z.abs ((DayFromYear year + dayOfYear year month day) * msPerDay))
                          8640000000000000); [done|unfold msPerDay in *; lia]).
Qed.

(** Among rows that carry dates of the calendar, the order of the keys is
    the order of the dates. *)
Lemma rowKey_dateLe a b da db :
  rowDate a = Some da -> rowDate b = Some db -> validDate da -> validDate db ->
  rowKey b <= rowKey a <-> dateLe db da.
Proof.
  intros Ha Hb Va Vb. destruct da as [[y1 m1] d1], db as [[y2 m2] d2].
  unfold rowKey. rewrite (rowTime_calendar _ _ _ _ Ha Va), (rowTime_calendar _ _ _ _ Hb Vb).
  simpl. rewrite <- (MakeDay_order (y2, m2, d2) (y1, m1, d1) Vb Va).
  unfold msPerDay. lia.
Qed.

Lemma StronglySorted_weaken {A} (R S : A -> A -> Prop) l :
  (forall a b, R a b -> S a b) -> StronglySorted R l -> StronglySorted S l.
Proof.
  intros HRS. induction 1 as [|a l _ IH Hall]; constructor; [done|].
  eapply Forall_impl; [done|]. intros b. apply HRS.
Qed.

(** C7. When both contents have lines and the first field of every data
    row parses as a date, the merged output is the header line of the
    existing content followed by the retained rows (those of both
    contents, each once), most recent date first: sorted by the time value
    of the date parsed as day/month/year, which for dates of the calendar
    is the order of the calendar. *)
Theorem mergeCSV_header_then_sorted (existing newContent header : list N)
    (rest : list (list N)) :
  nonBlankLines existing = header :: rest ->
  nonBlankLines newContent <> [] ->
  (forall r, r ∈ dataRows existing \/ r ∈ dataRows newContent -> is_Some (rowTime r)) ->
  let rows := dataRows (mergeCSV existing newContent) in
  mergeCSV existing newContent = str_join [10%N] (header :: rows)
  /\ StronglySorted (keyDescending rowKey) rows
  /\ StronglySorted notBefore rows
  /\ NoDup rows
  /\ (forall r, r ∈ rows <-> r ∈ dataRows existing \/ r ∈ dataRows newContent).
Proof.
  intros He Hn Hdates rows.
  assert (Hrows : rows = Array_sort compareRows
            (allData (nonBlankLines existing) (nonBlankLines newContent))).
  { unfold rows, dataRows. by rewrite (nonBlankLines_mergeCSV _ _ _ _ He Hn). }
  assert (Hmem : forall r, r ∈ rows <-> r ∈ dataRows existing \/ r ∈ dataRows newContent).
  { intros r. rewrite Hrows, Array_sort_Permutation, elem_of_allData. done. }
  assert (Hsorted : StronglySorted (keyDescending rowKey) rows).
  { rewrite Hrows. apply Array_sort_sorted.
    intros x y Hx Hy. apply elem_of_allData, Hdates in Hx as [tx Hx].
    apply elem_of_allData, Hdates in Hy as [ty Hy].
    unfold compareRows, rowKey. by rewrite Hx, Hy. }
  split_and!.
  - rewrite Hrows. by apply mergeCSV_merged with rest.
  - done.
  - eapply StronglySorted_weaken; [|done].
    intros a b Hab da db Ha Hb Va Vb. by apply (rowKey_dateLe a b da db).
  - rewrite Hrows, Array_sort_Permutation. apply NoDup_allData.
  - done.
Qed.

(* ===================================================================== *)
(** ** The monad *)
(* ===================================================================== *)

Lemma bind_ok {A B} (m : M A) (f : A -> M B) w a w' :
  m w = (Ok a, w') -> (m ≫= f) w = f a w'.
Proof. intros H. unfold mbind, M_bind. by rewrite H. Qed.

Lemma bind_throw {A B} (m : M A) (f : A -> M B) w e w' :
  m w = (Throw e, w') -> (m ≫= f) w = (Throw e, w').
Proof. intros H. unfold mbind, M_bind. by rewrite H. Qed.

Lemma readOnly_ret {A} (a : A) : readOnly (mret a).
Proof. intros w. by exists a. Qed.

Lemma readOnly_bind {A B} (m : M A) (f : A -> M B) :
  readOnly m -> (forall a, readOnly (f a)) -> readOnly (m ≫= f).
Proof.
  intros Hm Hf w. destruct (Hm w) as [a Ha].
  rewrite (bind_ok _ _ _ _ _ Ha). apply Hf.
Qed.

(* ===================================================================== *)
(** ** File names *)
(* ===================================================================== *)

Lemma isDigit_not_hyphen c : isDigit c = true -> negb (c =? 45)%N = true.
Proof.
  unfold isDigit. intros [?%N.leb_le ?%N.leb_le]%andb_prop.
  apply negb_true_iff, N.eqb_neq. lia.
Qed.

(** The name of an archive file is rebuilt from the start date it encodes. *)
Lemma getTransactionsFilename_parse filename startDate :
  parseTransactionsFilename filename = Some startDate ->
  getTransactionsFilename startDate = filename.
Proof.
  unfold parseTransactionsFilename, getTransactionsFilename, startsWith.
  set (prefix := lit "history-from-").
  set (rest := drop (length prefix) filename).
  destruct (bool_decide_reflect (take (length prefix) filename = prefix)) as [Hp|]; [|done].
  destruct (Nat.eqb_spec (length (take 8 rest)) 8) as [Hlen|]; [|done].
  destruct (forallb isDigit (take 8 rest)) eqn:Hdig; [|done].
  destruct (bool_decide_reflect (drop 8 rest = lit ".csv")) as [Hsuf|]; [|done].
  simpl. intros [= <-].
  assert (Hf : filename = prefix ++ take 8 rest ++ lit ".csv").
  { rewrite <- Hsuf, take_drop. unfold rest. rewrite <- Hp at 1. by rewrite take_drop. }
  etrans; [|symmetry; exact Hf]. f_equal. f_equal.
  destruct (take 8 rest) as [|c1 [|c2 [|c3 [|c4 [|c5 [|c6 [|c7 [|c8 [|]]]]]]]]]; try done.
  simpl in Hdig. repeat (apply andb_prop in Hdig as [?%isDigit_not_hyphen Hdig]).
  simpl. by repeat (match goal with H : negb _ = true |- _ => rewrite H; clear H end).
Qed.

Lemma parse_getTransactionsFilename_example :
  parseTransactionsFilename (getTransactionsFilename (lit "2023-03-01"))
  = Some (lit "2023-03-01").
Proof. reflexivity. Qed.

(* ===================================================================== *)
(** ** The latest archive file of an account *)
(* ===================================================================== *)

Lemma findFile_Some name entries f :
  findFile name entries = Some f -> f ∈ entries /\ f_name f = name.
Proof.
  unfold findFile. intros H. apply find_some in H as [Hin Hn].
  split; [by apply list_elem_of_In|]. by apply bool_decide_eq_true in Hn.
Qed.

Lemma findFile_listed name entries :
  name ∈ List.map f_name entries -> is_Some (findFile name entries).
Proof.
  intros Hin. apply list_elem_of_In, in_map_iff in Hin as (f & Hf & Hin).
  destruct (findFile name entries) eqn:E; [done|].
  unfold findFile in E. eapply find_none in E; [|done].
  by apply bool_decide_eq_false in E.
Qed.

Lemma latestLoop_run dir entries files latest w :
  w_fs w !! dir = Some entries ->
  Forall (fun file => is_Some (findFile file entries)) files ->
  latestLoop dir files latest w = (Ok (latestOf entries files latest), w).
Proof.
  intros Hdir. revert latest. induction files as [|file files IH]; intros latest Hall.
  - done.
  - inversion Hall as [|? ? [f Hf] Hrest]; subst. simpl.
    erewrite bind_ok; [|unfold statSync_mtime; by rewrite Hdir; simpl; rewrite Hf].
    rewrite IH by done. by rewrite Hf.
Qed.

Lemma csvFiles_found entries :
  Forall (fun file => is_Some (findFile file entries)) (csvFiles entries).
Proof.
  apply List.Forall_forall. intros file [Hin _]%filter_In.
  by apply findFile_listed, list_elem_of_In.
Qed.

(** [getLatestTransactionsFile] only reads, and never throws. *)
Lemma getLatestTransactionsFile_run bankId accountName w :
  getLatestTransactionsFile bankId accountName w
  = (Ok (latestInfo w bankId accountName), w).
Proof.
  unfold getLatestTransactionsFile, latestInfo.
  set (dir := getAccountDir bankId accountName).
  erewrite bind_ok; [|reflexivity].
  destruct (w_fs w !! dir) as [entries|] eqn:Hdir; simpl; [|done].
  erewrite bind_ok; [|unfold readdirSync; by rewrite Hdir].
  fold (csvFiles entries).
  destruct (Nat.eqb_spec (length (csvFiles entries)) 0) as [Hz|_].
  { apply nil_length_inv in Hz. by rewrite Hz. }
  erewrite bind_ok; [|by apply latestLoop_run; [|apply csvFiles_found]].
  destruct (latestOf entries (csvFiles entries) None) as [[file mtime]|]; simpl; [|done].
  by destruct (parseTransactionsFilename file).
Qed.

Lemma newer_mtime latest file mtime :
  match newer latest file mtime with
  | Some (_, m) => mtime <= m /\ match latest with Some (_, m0) => m0 <= m | None => True end
  | None => False
  end.
Proof.
  unfold newer. destruct latest as [[f0 m0]|]; [|lia].
  destruct (Z.ltb_spec m0 mtime); lia.
Qed.

(** The file the loop retains is a listed [.csv] file, and no listed
    [.csv] file was modified after it. *)
Lemma latestOf_newest entries files file mtime :
  latestOf entries files None = Some (file, mtime) ->
  file ∈ files
  /\ (exists f, findFile file entries = Some f /\ f_mtime f = mtime)
  /\ (forall g fg, g ∈ files -> findFile g entries = Some fg -> f_mtime fg <= mtime).
Proof.
  assert (Hgen : forall files latest file mtime,
    latestOf entries files latest = Some (file, mtime) ->
    ((file ∈ files /\ exists f, findFile file entries = Some f /\ f_mtime f = mtime)
     \/ latest = Some (file, mtime))
    /\ (forall g fg, g ∈ files -> findFile g entries = Some fg -> f_mtime fg <= mtime)
    /\ match latest with Some (_, m0) => m0 <= mtime | None => True end).
  { clear. induction files as [|g files IH]; intros latest file mtime H; simpl in H.
    - subst. split_and!; [by right|by intros ? ? ?%elem_of_nil|lia].
    - apply IH in H as (Hsrc & Hle & Hacc).
      destruct (findFile g entries) as [fg|] eqn:Hg.
      + pose proof (newer_mtime latest g (f_mtime fg)) as Hn.
        destruct (newer latest g (f_mtime fg)) as [[f1 m1]|] eqn:En; [|done].
        destruct Hn as [Hn1 Hn2]. split_and!.
        * destruct Hsrc as [[Hin Hf]|Heq].
          -- left. split; [by right|done].
          -- unfold newer in En. destruct latest as [[f0 m0]|].
             ++ destruct (m0 <? f_mtime fg); simplify_eq.
                ** left. split; [by left|]. by exists fg.
                ** by right.
             ++ simplify_eq. left. split; [by left|]. by exists fg.
        * intros h fh [->|Hin]%elem_of_cons Hh; [|by eapply Hle].
          simplify_eq. lia.
        * destruct latest as [[f0 m0]|]; [lia|done].
      + split_and!; [|by intros h fh [->|Hin]%elem_of_cons Hh; [congruence|eapply Hle]|done].
        destruct Hsrc as [[Hin Hf]|Heq]; [left; split; [by right|done]|by right]. }
  intros H. apply Hgen in H as ([[? ?]|?] & ? & _); [|done]. by split_and!.
Qed.

(** What it means that [getLatestTransactionsFile] finds an archive: the
    account directory lists a file named [history-from-YYYYMMDD.csv] that
    encodes the start date, modified at the reported time, and no [.csv]
    file of the directory is newer. *)
Lemma latestInfo_Some w bankId accountName info :
  latestInfo w bankId accountName = Some info ->
  tfi_dir info = getAccountDir bankId accountName
  /\ parseTransactionsFilename (tfi_file info) = Some (tfi_startDate info)
  /\ exists entries f,
       w_fs w !! tfi_dir info = Some entries
       /\ findFile (tfi_file info) entries = Some f
       /\ f_mtime f = tfi_lastModified info
       /\ forall g, g ∈ entries -> endsWith (lit ".csv") (f_name g) = true ->
            exists g', findFile (f_name g) entries = Some g'
                       /\ f_mtime g' <= tfi_lastModified info.
Proof.
  unfold latestInfo. set (dir := getAccountDir bankId accountName).
  destruct (w_fs w !! dir) as [entries|] eqn:Hdir; simpl; [|done].
  destruct (latestOf entries (csvFiles entries) None) as [[file mtime]|] eqn:Hl; simpl; [|done].
  destruct (parseTransactionsFilename file) as [sd|] eqn:Hp; simpl; [|done].
  intros [= <-]. simpl. split_and!; [done..|].
  apply latestOf_newest in Hl as (Hin & (f & Hf & Hm) & Hle).
  exists entries, f. split_and!; [done..|].
  intros g Hg Hcsv.
  assert (Hlisted : f_name g ∈ csvFiles entries).
  { apply list_elem_of_In, filter_In. split; [|done].
    apply in_map. by apply list_elem_of_In. }
  destruct (findFile_listed (f_name g) entries) as [g' Hg'].
  { apply list_elem_of_In, in_map. by apply list_elem_of_In. }
  exists g'. split; [done|]. by eapply Hle.
Qed.

Lemma latestInfo_soleArchive w bankId accountName name mtime :
  soleArchive w (getAccountDir bankId accountName) name mtime ->
  exists startDate,
    parseTransactionsFilename name = Some startDate
    /\ latestInfo w bankId accountName
       = Some (mkInfo accountName bankId startDate
                      (getAccountDir bankId accountName) name mtime).
Proof.
  intros (entries & f & Hfs & Hcsv & Hf & Hm & [startDate Hp]).
  exists startDate. split; [done|].
  unfold latestInfo. rewrite Hfs. simpl. rewrite Hcsv. simpl.
  rewrite Hf. simpl. rewrite Hp. simpl. by rewrite Hm.
Qed.

Lemma latestInfo_noArchive w bankId accountName :
  noArchive w (getAccountDir bankId accountName) ->
  latestInfo w bankId accountName = None.
Proof.
  unfold noArchive, latestInfo.
  destruct (w_fs w !! getAccountDir bankId accountName) as [entries|]; [|done].
  intros H. simpl. by rewrite H.
Qed.

(* ===================================================================== *)
(** ** The freshness guard *)
(* ===================================================================== *)

Lemma hasTransactionsLoop_run bankId today accountNames w :
  exists r,
    hasTransactionsLoop bankId today accountNames w = (Ok r, w)
    /\ (r = true <-> Forall (freshAccount w bankId today) accountNames).
Proof.
  induction accountNames as [|name names IH].
  - exists true. split; [done|]. split; [constructor|done].
  - simpl. rewrite (bind_ok _ _ _ _ _ (getLatestTransactionsFile_run bankId name w)).
    destruct (latestInfo w bankId name) as [info|] eqn:Hinfo.
    + destruct (bool_decide_reflect (toISODate (tfi_lastModified info) = today)) as [Hd|Hd].
      * destruct IH as (r & Hr & Hiff). exists r. split; [done|].
        rewrite Hiff. split.
        -- intros Hall. constructor; [|done]. exists info.
           by rewrite getLatestTransactionsFile_run, Hinfo.
        -- by inversion 1.
      * exists false. split; [done|]. split; [done|].
        inversion 1 as [|? ? (info' & Hrun & Hd') _]; subst.
        rewrite getLatestTransactionsFile_run, Hinfo in Hrun. by simplify_eq.
    + exists false. split; [done|]. split; [done|].
      inversion 1 as [|? ? (info' & Hrun & Hd') _]; subst.
      rewrite getLatestTransactionsFile_run, Hinfo in Hrun. by simplify_eq.
Qed.


(* ===================================================================== *)
(** ** Saving an export *)
(* ===================================================================== *)

Lemma ensureDir_run dir w :
  exists w1,
    ensureDir dir w = (Ok tt, w1)
    /\ match w_fs w !! dir with
       | Some _ => w1 = w
       | None => w1 = mkWorld (<[dir := []]> (w_fs w)) (w_now w)
                              (EvMkdir dir :: w_trace w)
       end.
Proof.
  unfold ensureDir. erewrite bind_ok; [|reflexivity].
  destruct (w_fs w !! dir) as [entries|] eqn:Hdir; simpl.
  - by exists w.
  - unfold mkdirSync. rewrite Hdir. by eexists.
Qed.

Lemma latestInfo_ensureDir bankId accountName w w1 :
  ensureDir (getAccountDir bankId accountName) w = (Ok tt, w1) ->
  latestInfo w1 bankId accountName = latestInfo w bankId accountName
  /\ is_Some (w_fs w1 !! getAccountDir bankId accountName).
Proof.
  intros Hrun. destruct (ensureDir_run (getAccountDir bankId accountName) w)
    as (w1' & Hrun' & Hw1). rewrite Hrun in Hrun'. simplify_eq.
  destruct (w_fs w !! getAccountDir bankId accountName) as [entries|] eqn:Hdir; subst.
  - by rewrite Hdir.
  - unfold latestInfo. simpl. rewrite lookup_insert_eq, Hdir. done.
Qed.

Lemma writeFileSync_run dir name content w :
  is_Some (w_fs w !! dir) ->
  exists w', writeFileSync dir name content w = (Ok tt, w')
             /\ w_trace w' = EvWriteFile dir name :: w_trace w
             /\ w_fs w' !! dir ≫= findFile name
                = Some (mkFile name (w_now w) content).
Proof.
  intros [entries Hdir]. unfold writeFileSync. rewrite Hdir.
  eexists. split_and!; [done..|]. simpl. rewrite lookup_insert_eq. simpl.
  clear. induction entries as [|f entries IH]; simpl.
  - unfold findFile. simpl. by rewrite bool_decide_eq_true_2.
  - destruct (bool_decide_reflect (f_name f = name)) as [Hn|Hn].
    + unfold findFile. simpl. by rewrite bool_decide_eq_true_2.
    + unfold findFile in *. simpl. by rewrite bool_decide_eq_false_2.
Qed.

(** What [saveTransactionsCSV] does, by what [getLatestTransactionsFile]
    finds beforehand. *)
Lemma saveTransactionsCSV_run (bankId : BankId)
    (accountName startDate csvContent : list N) (w : World) :
  let accountDir := getAccountDir bankId accountName in
  match fst (getLatestTransactionsFile bankId accountName w) with
  | Ok (Some info) =>
      let filename := getTransactionsFilename (tfi_startDate info) in
      filename = tfi_file info
      /\ exists existingContent w',
           readFileSync accountDir filename w = (Ok existingContent, w)
           /\ writeFileSync accountDir filename
                (mergeCSV existingContent csvContent) w = (Ok tt, w')
           /\ saveTransactionsCSV bankId accountName startDate csvContent w
              = (Ok (path_join [accountDir; filename]), w')
  | Ok None =>
      let filename := getTransactionsFilename startDate in
      exists w1 w',
        ensureDir accountDir w = (Ok tt, w1)
        /\ writeFileSync accountDir filename
             match readFileSync accountDir filename w1 with
             | (Ok existingContent, _) => mergeCSV existingContent csvContent
             | (Throw _, _) => csvContent
             end w1 = (Ok tt, w')
        /\ saveTransactionsCSV bankId accountName startDate csvContent w
           = (Ok (path_join [accountDir; filename]), w')
  | Throw _ => False
  end.
Proof.
  intros accountDir.
  rewrite getLatestTransactionsFile_run. simpl.
  destruct (ensureDir_run accountDir w) as (w1 & Hens & Hw1).
  destruct (latestInfo_ensureDir _ _ _ _ Hens) as [Hsame Hdir1].
  unfold saveTransactionsCSV. fold accountDir.
  rewrite (bind_ok _ _ _ _ _ Hens).
  rewrite (bind_ok _ _ _ _ _ (getLatestTransactionsFile_run bankId accountName w1)).
  rewrite Hsame.
  destruct (latestInfo w bankId accountName) as [info|] eqn:Hinfo.
  - apply latestInfo_Some in Hinfo as (Hd & Hparse & entries & f & Hfs & Hf & _).
    apply getTransactionsFilename_parse in Hparse.
    rewrite Hd in Hfs. fold accountDir in Hfs. rewrite Hfs in Hw1. subst w1.
    cbv zeta. rewrite Hparse. split; [done|].
    destruct (writeFileSync_run accountDir (tfi_file info)
                (mergeCSV (f_content f) csvContent) w) as (w' & Hwr & _); [by eexists|].
    exists (f_content f), w'.
    assert (Hread : readFileSync accountDir (tfi_file info) w = (Ok (f_content f), w)).
    { unfold readFileSync. rewrite Hfs. simpl. by rewrite Hf. }
    split_and!; [done..|].
    erewrite bind_ok; [|unfold existsSync_file; rewrite Hfs; simpl; rewrite Hf; reflexivity].
    rewrite bool_decide_eq_true_2 by (by eexists).
    erewrite bind_ok; [done|].
    by rewrite (bind_ok _ _ _ _ _ Hread).
  - cbv zeta. set (filename := getTransactionsFilename startDate).
    exists w1.
    erewrite bind_ok; [|reflexivity].
    destruct Hdir1 as [entries Hfs].
    destruct (w_fs w1 !! accountDir ≫= findFile filename) as [f|] eqn:Hf.
    + rewrite bool_decide_eq_true_2 by (by eexists).
      assert (Hread : readFileSync accountDir filename w1 = (Ok (f_content f), w1)).
      { unfold readFileSync. by rewrite Hf. }
      rewrite Hread.
      destruct (writeFileSync_run accountDir filename
                  (mergeCSV (f_content f) csvContent) w1) as (w' & Hwr & _); [by eexists|].
      exists w'. split_and!; [done..|].
      erewrite bind_ok; [done|]. by rewrite (bind_ok _ _ _ _ _ Hread).
    + rewrite bool_decide_eq_false_2 by (by intros [? ?]).
      assert (Hread : readFileSync accountDir filename w1 = (Throw ENOENT, w1)).
      { unfold readFileSync. by rewrite Hf. }
      rewrite Hread.
      destruct (writeFileSync_run accountDir filename csvContent w1)
        as (w' & Hwr & _); [by eexists|].
      exists w'. split_and!; [done..|].
      by erewrite bind_ok.
Qed.


(* ===================================================================== *)
(** ** One archive file per account *)
(* ===================================================================== *)

Lemma putFile_names_present name mtime content entries f :
  findFile name entries = Some f ->
  List.map f_name (putFile name mtime content entries) = List.map f_name entries.
Proof.
  unfold findFile. induction entries as [|g entries IH]; simpl; [done|].
  destruct (bool_decide_reflect (f_name g = name)) as [Hn|Hn]; simpl.
  - intros _. by rewrite Hn.
  - intros H. by rewrite IH.
Qed.

Lemma putFile_names_absent name mtime content entries :
  findFile name entries = None ->
  List.map f_name (putFile name mtime content entries)
  = List.map f_name entries ++ [name].
Proof.
  unfold findFile. induction entries as [|g entries IH]; simpl; [done|].
  destruct (bool_decide_reflect (f_name g = name)) as [Hn|Hn]; simpl; [done|].
  intros H. by rewrite IH.
Qed.

Lemma findFile_putFile name mtime content entries :
  findFile name (putFile name mtime content entries)
  = Some (mkFile name mtime content).
Proof.
  unfold findFile. induction entries as [|g entries IH]; simpl.
  - by rewrite bool_decide_eq_true_2.
  - destruct (bool_decide_reflect (f_name g = name)) as [Hn|Hn]; simpl.
    + by rewrite bool_decide_eq_true_2.
    + by rewrite bool_decide_eq_false_2.
Qed.

Lemma endsWith_app p s : endsWith p (s ++ p) = true.
Proof.
  unfold endsWith. rewrite length_app.
  replace (length s + length p - length p)%nat with (length s) by lia.
  rewrite drop_app_length, bool_decide_eq_true_2 by done.
  apply Nat.leb_le. lia.
Qed.

Lemma getTransactionsFilename_csv startDate :
  endsWith (lit ".csv") (getTransactionsFilename startDate) = true.
Proof. unfold getTransactionsFilename. rewrite app_assoc. apply endsWith_app. Qed.

Lemma findFile_None_csv name entries :
  endsWith (lit ".csv") name = true -> csvFiles entries = [] ->
  findFile name entries = None.
Proof.
  intros Hcsv Hnone. destruct (findFile name entries) as [f|] eqn:Hf; [|done].
  apply findFile_Some in Hf as [Hin Hname].
  assert (Hl : name ∈ csvFiles entries).
  { apply list_elem_of_In, filter_In. split; [|done].
    rewrite <- Hname. apply in_map. by apply list_elem_of_In. }
  rewrite Hnone in Hl. by apply elem_of_nil in Hl.
Qed.

(** An account directory that holds no archive, or one archive file and
    no other [.csv] file, holds one archive file after an export is saved:
    the file just written. The start date is one whose file name reads
    back (a date of the form YYYY-MM-DD). *)
Lemma saveTransactionsCSV_one_archive bankId accountName startDate csvContent w :
  let accountDir := getAccountDir bankId accountName in
  is_Some (parseTransactionsFilename (getTransactionsFilename startDate)) ->
  noArchive w accountDir \/ (exists name mtime, soleArchive w accountDir name mtime) ->
  exists name w',
    saveTransactionsCSV bankId accountName startDate csvContent w
    = (Ok (path_join [accountDir; name]), w')
    /\ soleArchive w' accountDir name (w_now w)
    /\ (forall old mtime, soleArchive w accountDir old mtime -> name = old).
Proof.
  intros accountDir Hparse Hbefore.
  pose proof (saveTransactionsCSV_run bankId accountName startDate csvContent w) as Hrun.
  cbv zeta in Hrun. fold accountDir in Hrun.
  rewrite getLatestTransactionsFile_run in Hrun. simpl in Hrun.
  destruct Hbefore as [Hno|(name & mtime & Hsole)].
  - rewrite (latestInfo_noArchive _ _ _ Hno) in Hrun.
    destruct Hrun as (w1 & w' & Hens & Hwr & Hsave).
    set (filename := getTransactionsFilename startDate) in *.
    exists filename, w'. split; [done|].
    destruct (ensureDir_run accountDir w) as (w1' & Hens' & Hw1).
    rewrite Hens in Hens'. injection Hens' as <-.
    assert (Hentries : exists entries, w_fs w1 !! accountDir = Some entries
                                       /\ csvFiles entries = [] /\ w_now w1 = w_now w).
    { unfold noArchive in Hno.
      destruct (w_fs w !! accountDir) as [entries|] eqn:Hd; subst w1.
      - by exists entries.
      - exists []. simpl. by rewrite lookup_insert_eq. }
    destruct Hentries as (entries & Hfs1 & Hcsv1 & Hnow).
    unfold writeFileSync in Hwr. rewrite Hfs1 in Hwr. injection Hwr as <-.
    split.
    + exists (putFile filename (w_now w1)
                match readFileSync accountDir filename w1 with
                | (Ok existingContent, _) => mergeCSV existingContent csvContent
                | (Throw _, _) => csvContent
                end entries), (mkFile filename (w_now w1)
                match readFileSync accountDir filename w1 with
                | (Ok existingContent, _) => mergeCSV existingContent csvContent
                | (Throw _, _) => csvContent
                end).
      simpl. rewrite lookup_insert_eq. split_and!; [done| | |by rewrite Hnow|done].
      * unfold csvFiles.
        rewrite putFile_names_absent
          by (apply findFile_None_csv; [apply getTransactionsFilename_csv|done]).
        rewrite List.filter_app. fold (csvFiles entries). rewrite Hcsv1. simpl.
        pose proof (getTransactionsFilename_csv startDate) as Hext.
        fold filename in Hext. by rewrite Hext.
      * apply findFile_putFile.
    + intros old mt (entries0 & f0 & Hfs0 & Hcsv0 & _).
      unfold noArchive in Hno. rewrite Hfs0 in Hno. congruence.
  - destruct (latestInfo_soleArchive _ _ _ _ _ Hsole) as (anchor & Hanchor & Hinfo).
    fold accountDir in Hinfo. rewrite Hinfo in Hrun. simpl in Hrun.
    destruct Hrun as (Hname & old & w' & Hread & Hwr & Hsave).
    rewrite Hname in *.
    exists name, w'. split; [done|].
    destruct Hsole as (entries & f & Hfs & Hcsv & Hf & Hm & Hp).
    unfold writeFileSync in Hwr. rewrite Hfs in Hwr. injection Hwr as <-.
    split.
    + eexists _, _. simpl. rewrite lookup_insert_eq.
      split_and!; [done| |apply findFile_putFile|done|done].
      unfold csvFiles. by rewrite (putFile_names_present _ _ _ _ _ Hf).
    + intros old' mt (entries0 & f0 & Hfs0 & Hcsv0 & _).
      rewrite Hfs in Hfs0. injection Hfs0 as <-. congruence.
Qed.

(* ===================================================================== *)
(** ** Sanitized names *)
(* ===================================================================== *)

Ltac N_cases :=
  repeat match goal with
         | H : context [(?a <=? ?b)%N] |- _ => destruct (N.leb_spec a b)
         | H : context [(?a =? ?b)%N] |- _ => destruct (N.eqb_spec a b)
         | |- context [(?a <=? ?b)%N] => destruct (N.leb_spec a b)
         | |- context [(?a =? ?b)%N] => destruct (N.eqb_spec a b)
         end; cbn [andb orb negb] in *; try done; try lia.

Lemma isWhiteSpace_false c : (33 <= c < 160)%N -> isWhiteSpace c = false.
Proof.
  intros Hc. unfold isWhiteSpace.
  repeat apply orb_false_intro; try (apply N.eqb_neq; lia).
  apply andb_false_iff. left. apply N.leb_gt. lia.
Qed.

(** What survives the two filters and is not white space is an ASCII
    letter, a digit or a hyphen. *)
Lemma isKept_not_space c :
  isKept c = true -> isWhiteSpace c = false ->
  (c < 128)%N /\ isNameChar (lowerAscii c) = true.
Proof.
  unfold isKept. intros Hk Hws. rewrite Hws in Hk.
  unfold isNameChar, lowerAscii, isLower, isUpper, isDigit in *.
  split; N_cases.
Qed.

Lemma sanitizeCore_chars inRun s :
  Forall (fun c => (c < 128)%N /\ isNameChar (lowerAscii c) = true)
         (sanitizeCore inRun s).
Proof.
  unfold sanitizeCore.
  assert (Hk : Forall (fun c => isKept c = true)
                 (List.filter isKept (List.filter (fun c => negb (isCombiningMark c)) s))).
  { apply List.Forall_forall. by intros c [_ ?]%filter_In. }
  revert inRun Hk.
  generalize (List.filter isKept (List.filter (fun c => negb (isCombiningMark c)) s)).
  intros l. induction l as [|c l IH]; intros inRun Hk; simpl; [constructor|].
  inversion Hk as [|? ? Hc Hl]; subst.
  destruct (isWhiteSpace c) eqn:Hws.
  - destruct inRun; [by apply IH|]. constructor; [|by apply IH]. done.
  - constructor; [|by apply IH]. by apply isKept_not_space.
Qed.

Lemma Forall_trimStart (P : N -> Prop) s : Forall P s -> Forall P (trimStart s).
Proof.
  induction 1 as [|c s Hc Hs IH]; simpl; [constructor|].
  destruct (isWhiteSpace c); [done|by constructor].
Qed.

Lemma Forall_trim (P : N -> Prop) s : Forall P s -> Forall P (trim s).
Proof.
  intros H. unfold trim, trimEnd.
  apply Forall_rev, Forall_trimStart, Forall_rev, Forall_trimStart, H.
Qed.

Section Sanitize.

(** On ASCII strings [toLowerCase] maps [A-Z] to [a-z] and leaves every
    other code unit alone. *)
Hypothesis toLowerCase_ascii :
  forall s, Forall (fun c => (c < 128)%N) s ->
            toLowerCase s = List.map lowerAscii s.

Lemma sanitizeName_unfold name :
  sanitizeName name
  = trim (List.map lowerAscii (sanitizeCore false (normalizeNFD name))).
Proof using toLowerCase_ascii.
  unfold sanitizeName. fold (sanitizeCore false (normalizeNFD name)).
  rewrite toLowerCase_ascii; [done|].
  eapply Forall_impl; [apply sanitizeCore_chars|]. by intros c [? _].
Qed.

Lemma sanitizeName_chars name :
  Forall (fun c => isNameChar c = true) (sanitizeName name).
Proof using toLowerCase_ascii.
  rewrite sanitizeName_unfold. apply Forall_trim.
  apply List.Forall_map.
  eapply Forall_impl; [apply sanitizeCore_chars|]. by intros c [_ ?].
Qed.

Lemma sanitizeCore_sameName a b :
  sameName a b ->
  forall inRun,
    List.map lowerAscii (sanitizeCore inRun a)
    = List.map lowerAscii (sanitizeCore inRun b).
Proof.
  unfold sanitizeCore.
  induction 1 as [|c a b _ IH|c d a b Hc Hd Hcd _ IH|c a b Hc _ IH|c a b Hc _ IH];
    intros inRun; simpl.
  - done.
  - destruct (isCombiningMark c); simpl; [done|].
    destruct (isKept c); simpl; [|done].
    destruct (isWhiteSpace c); [destruct inRun|]; simpl; by rewrite IH.
  - assert (Hfacts : forall x, isAsciiLetter x = true ->
              isCombiningMark x = false /\ isKept x = true /\ isWhiteSpace x = false).
    { clear. intros x Hx.
      assert (Hr : (65 <= x <= 122)%N).
      { unfold isAsciiLetter, isUpper, isLower in Hx. N_cases. }
      split_and!; [| |apply isWhiteSpace_false; lia].
      2: { unfold isKept, isAsciiLetter in *. by destruct (isLower x), (isUpper x). }
      unfold isCombiningMark. N_cases. }
    destruct (Hfacts c Hc) as (Hmc & Hkc & Hwc).
    destruct (Hfacts d Hd) as (Hmd & Hkd & Hwd).
    rewrite Hmc, Hmd. simpl. rewrite Hkc, Hkd. simpl. rewrite Hwc, Hwd. simpl.
    by rewrite Hcd, IH.
  - unfold isRemoved in Hc. destruct (isCombiningMark c); simpl; [done|].
    simpl in Hc. apply negb_true_iff in Hc. by rewrite Hc.
  - unfold isRemoved in Hc. destruct (isCombiningMark c); simpl; [done|].
    simpl in Hc. apply negb_true_iff in Hc. by rewrite Hc.
Qed.

Lemma saveTransactionsCSV_same_dir bankId name1 name2 startDate csvContent w :
  getAccountDir bankId name1 = getAccountDir bankId name2 ->
  saveTransactionsCSV bankId name1 startDate csvContent w
  = saveTransactionsCSV bankId name2 startDate csvContent w.
Proof.
  intros Hdir. unfold saveTransactionsCSV. rewrite Hdir.
  set (dir := getAccountDir bankId name2).
  destruct (ensureDir dir w) as [[[]|e] w1] eqn:Hens.
  2: { by rewrite !(bind_throw _ _ _ _ _ Hens). }
  rewrite !(bind_ok _ _ _ _ _ Hens).
  rewrite !(bind_ok _ _ _ _ _ (getLatestTransactionsFile_run _ _ w1)).
  assert (Hsd : tfi_startDate <$> latestInfo w1 bankId name1
                = tfi_startDate <$> latestInfo w1 bankId name2).
  { unfold latestInfo. rewrite Hdir. fold dir.
    destruct (w_fs w1 !! dir) as [entries|]; simpl; [|done].
    destruct (latestOf entries (csvFiles entries) None) as [[file mtime]|]; simpl; [|done].
    by destruct (parseTransactionsFilename file). }
  destruct (latestInfo w1 bankId name1) as [i1|], (latestInfo w1 bankId name2) as [i2|];
    simpl in Hsd; simplify_eq; [by rewrite Hsd|done].
Qed.


End Sanitize.

(* ===================================================================== *)
(** ** The credential resolver *)
(* ===================================================================== *)

Lemma spanWhile_app p s : fst (spanWhile p s) ++ snd (spanWhile p s) = s.
Proof.
  induction s as [|c s IH]; simpl; [done|].
  destruct (p c); [|done]. destruct (spanWhile p s) as [a b]. simpl in *.
  by rewrite IH.
Qed.

Lemma spanWhile_head p s a ws r : spanWhile p s = (a :: ws, r) -> p a = true.
Proof.
  destruct s as [|x xs]; simpl; [done|]. destruct (p x) eqn:Hx; [|done].
  destruct (spanWhile p xs). by intros [= <- _ _].
Qed.

Lemma bearerAt_Some s m :
  bearerAt s = Some m -> exists after, s = m ++ after /\ hasBearerPrefix m = true.
Proof.
  unfold bearerAt. destruct (startsWithCI (lit "bearer") s) eqn:Hci; [|done].
  destruct (spanWhile isWhiteSpace (drop 6 s)) as [ws r] eqn:Ews.
  destruct (spanWhile isTokenChar r) as [tok rest] eqn:Etok.
  destruct ws as [|wc ws]; [done|]. destruct tok as [|tc tok]; [done|].
  cbn [truthy_str andb]. intros [= <-].
  pose proof (spanWhile_app isWhiteSpace (drop 6 s)) as Hws. rewrite Ews in Hws.
  pose proof (spanWhile_app isTokenChar r) as Htok. rewrite Etok in Htok.
  cbn [fst snd] in Hws, Htok.
  exists rest. split.
  - rewrite <- (take_drop 6 s) at 1. rewrite <- Hws, <- Htok.
    rewrite <- app_assoc. simpl. by rewrite <- app_assoc.
  - unfold hasBearerPrefix, startsWithCI in *.
    change (length (lit "bearer")) with 6%nat in *.
    apply bool_decide_eq_true in Hci.
    assert (Hlen : length (take 6 s) = 6%nat).
    { apply (f_equal length) in Hci. by rewrite length_map in Hci. }
    apply andb_true_intro. split.
    + apply bool_decide_eq_true.
      rewrite take_app_le by lia. by rewrite take_ge by lia.
    + rewrite drop_app_le by lia. rewrite drop_ge by lia.
      simpl. by eapply spanWhile_head.
Qed.

(** A bearer match is a part of the value and starts with the word. *)
Lemma bearerMatch_substring value m :
  bearerMatch value = Some m ->
  exists before after, value = before ++ m ++ after /\ hasBearerPrefix m = true.
Proof.
  induction value as [|c value IH]; simpl.
  - intros H. by vm_compute in H.
  - destruct (bearerAt (c :: value)) as [m'|] eqn:Hat.
    + intros [= <-]. apply bearerAt_Some in Hat as (after & Hv & Hp).
      by exists [], after.
    + intros Hm. destruct (IH Hm) as (before & after & -> & Hp).
      by exists (c :: before), after.
Qed.

Lemma extractTokenFromStorage_cons key value rest :
  extractTokenFromStorage ((key, value) :: rest)
  = match entryToken (key, value) with
    | Some t => Some (t, key)
    | None => extractTokenFromStorage rest
    end.
Proof.
  unfold entryToken, ruleBearer, ruleJsonField, ruleKeyName.
  cbn [extractTokenFromStorage fst snd].
  destruct value as [|c value]; cbn [truthy_str negb].
  - (* the empty value is skipped, and no rule matches it *)
    change (bearerMatch []) with (@None (list N)).
    change (jsonToken []) with (@None (list N)). cbv iota.
    by rewrite andb_false_r.
  - destruct (bearerMatch (c :: value)); [done|].
    destruct (jsonToken (c :: value)); [done|].
    by destruct (isTokenKey key && (10 <? length (c :: value))%nat).
Qed.

(** The scan returns the token of the first entry, in storage order, that
    some rule matches. *)
Lemma extractTokenFromStorage_first before key value after token :
  Forall (fun e => entryToken e = None) before ->
  entryToken (key, value) = Some token ->
  extractTokenFromStorage (before ++ (key, value) :: after) = Some (token, key).
Proof.
  induction 1 as [|[k v] before Hnone _ IH]; intros Hm; simpl app.
  - by rewrite extractTokenFromStorage_cons, Hm.
  - rewrite extractTokenFromStorage_cons, Hnone. by apply IH.
Qed.

Lemma extractTokenFromStorage_none entries :
  Forall (fun e => entryToken e = None) entries ->
  extractTokenFromStorage entries = None.
Proof.
  induction 1 as [|[k v] entries Hnone _ IH]; [done|].
  by rewrite extractTokenFromStorage_cons, Hnone.
Qed.


(* ===================================================================== *)
(** ** The download-request manager *)
(* ===================================================================== *)

Lemma elem_of_targetIds accountsInfo pfmId :
  pfmId ∈ targetIds accountsInfo <-> pfmId ∈ createIds accountsInfo.
Proof.
  unfold targetIds. fold (createIds accountsInfo).
  rewrite elem_of_Set_addAll. split; [by intros [?|?%elem_of_nil]|by left].
Qed.

Lemma World_eta w : mkWorld (w_fs w) (w_now w) (w_trace w) = w.
Proof. by destruct w. Qed.

Lemma createLoop_run page accountsInfo startDate endDate authHeader n w :
  exists n',
    createLoop page accountsInfo startDate endDate authHeader n w
    = (Ok n',
       mkWorld (w_fs w) (w_now w)
         (rev (List.map (fun pfmId => EvCreateRequest pfmId startDate endDate)
                        (createIds accountsInfo)) ++ w_trace w))
    /\ (n <= n')%nat
    /\ ((forall tr pfmId,
           pg_createHistoryRequest page tr authHeader pfmId startDate endDate = false) ->
        n' = n)
    /\ (forall pfmId,
          pfmId ∈ createIds accountsInfo ->
          (forall tr,
             pg_createHistoryRequest page tr authHeader pfmId startDate endDate = true) ->
          (n < n')%nat).
Proof.
  revert n w. induction accountsInfo as [|a accountsInfo IH]; intros n w.
  - exists n. simpl. rewrite World_eta.
    split_and!; [done|lia|done|by intros ? ?%elem_of_nil].
  - unfold createIds. simpl.
    destruct (adi_pfmContractId a) as [pfmId|] eqn:Hid; simpl; [|apply IH].
    destruct (truthy_str pfmId) eqn:Htr; simpl; [|apply IH].
    erewrite bind_ok; [|reflexivity]. erewrite bind_ok; [|reflexivity].
    set (w1 := mkWorld (w_fs w) (w_now w)
                 (EvCreateRequest pfmId startDate endDate :: w_trace w)).
    set (ok := pg_createHistoryRequest page (w_trace w1) authHeader pfmId startDate endDate).
    destruct (IH (if ok then S n else n) w1) as (n' & Hrun & Hle & Hnone & Hsome).
    exists n'. fold (createIds accountsInfo). split_and!.
    + rewrite Hrun. simpl. by rewrite <- app_assoc.
    + destruct ok; lia.
    + intros Hfail. rewrite (Hnone Hfail). unfold ok. by rewrite Hfail.
    + intros id [->|Hin]%elem_of_cons Hok.
      * unfold ok in Hle. rewrite Hok in Hle. lia.
      * specialize (Hsome id Hin Hok). destruct ok; lia.
Qed.

(* ===================================================================== *)
(** ** The export fetcher *)
(* ===================================================================== *)

Lemma saveTransactionsCSV_trace bankId accountName startDate csvContent w :
  exists r w' evs,
    saveTransactionsCSV bankId accountName startDate csvContent w = (Ok r, w')
    /\ w_trace w' = evs ++ w_trace w
    /\ Forall (fun e => isDownloadEffect e = true) evs.
Proof.
  unfold saveTransactionsCSV. set (dir := getAccountDir bankId accountName).
  destruct (ensureDir_run dir w) as (w1 & Hens & Hw1).
  rewrite (bind_ok _ _ _ _ _ Hens).
  rewrite (bind_ok _ _ _ _ _ (getLatestTransactionsFile_run bankId accountName w1)).
  set (filename := getTransactionsFilename _).
  assert (Hdir1 : is_Some (w_fs w1 !! dir)).
  { destruct (w_fs w !! dir) as [entries|] eqn:Hd; subst w1; [by rewrite Hd|].
    simpl. by rewrite lookup_insert_eq. }
  assert (Htr1 : exists evs1, w_trace w1 = evs1 ++ w_trace w
                              /\ Forall (fun e => isDownloadEffect e = true) evs1).
  { destruct (w_fs w !! dir); subst w1.
    - by exists [].
    - exists [EvMkdir dir]. split; [done|]. by constructor. }
  destruct Htr1 as (evs1 & Htr1 & Hevs1).
  erewrite bind_ok; [|reflexivity].
  assert (Hwrite : forall content, exists w',
             writeFileSync dir filename content w1 = (Ok tt, w')
             /\ w_trace w' = (EvWriteFile dir filename :: evs1) ++ w_trace w).
  { intros content.
    destruct (writeFileSync_run dir filename content w1 Hdir1) as (w' & Hwr & Htr & _).
    exists w'. split; [done|]. by rewrite Htr, Htr1. }
  destruct (w_fs w1 !! dir ≫= findFile filename) as [f|] eqn:Hf.
  - rewrite bool_decide_eq_true_2 by (by eexists).
    destruct (Hwrite (mergeCSV (f_content f) csvContent)) as (w' & Hwr & Htr).
    eexists _, w', _. split_and!; [|exact Htr|by constructor].
    erewrite bind_ok; [done|].
    erewrite bind_ok; [done|]. unfold readFileSync. by rewrite Hf.
  - rewrite bool_decide_eq_false_2 by (by intros [? ?]).
    destruct (Hwrite csvContent) as (w' & Hwr & Htr).
    eexists _, w', _. split_and!; [|exact Htr|by constructor].
    by erewrite bind_ok.
Qed.

(** [downloadAccountCSV] never throws; it issues the prepare call for the
    account's request identifier first, and what follows is a fetch and
    archive writes at most. *)
Lemma downloadAccountCSV_run page accountInfo startDate authHeader w :
  exists r w' evs,
    downloadAccountCSV page accountInfo startDate authHeader w = (Ok r, w')
    /\ w_trace w'
       = evs ++ EvPrepareDownload (adi_historyRequestId accountInfo) :: w_trace w
    /\ Forall (fun e => isDownloadEffect e = true) evs.
Proof.
  unfold downloadAccountCSV, catch.
  erewrite bind_ok; [|reflexivity]. erewrite bind_ok; [|reflexivity].
  set (w1 := mkWorld _ _ _).
  assert (Hstop : forall (r : outcome bool),
            exists r' w' evs,
              match r with Ok x => (Ok x, w1) | Throw _ => (Ok false, w1) end = (Ok r', w')
              /\ w_trace w'
                 = evs ++ EvPrepareDownload (adi_historyRequestId accountInfo) :: w_trace w
              /\ Forall (fun e => isDownloadEffect e = true) evs).
  { intros r. destruct r as [x|e]; eexists _, w1, []; by split_and!. }
  destruct (pg_prepareDownload page (w_trace w1) authHeader
              (adi_historyRequestId accountInfo)) as [[ct body]|].
  2: { apply (Hstop (Throw NetworkError)). }
  set (prepareData := if _ && _ then _ else _).
  assert (Hsame : forall r w2, prepareData w1 = (r, w2) -> w2 = w1).
  { intros r w2. unfold prepareData, mret, M_ret, throw.
    destruct (_ && _); [|by intros [= _ <-]].
    destruct (JSON_parse body); by intros [= _ <-]. }
  destruct (prepareData w1) as [[data|e] w2] eqn:Hdata;
    pose proof (Hsame _ _ eq_refl) as ->.
  2: { rewrite (bind_throw _ _ _ _ _ Hdata). apply (Hstop (Throw e)). }
  rewrite (bind_ok _ _ _ _ _ Hdata).
  destruct (truthy data); simpl; [|apply (Hstop (Ok false))].
  set (downloadUrl := prop _ "downloadUrl").
  destruct (truthy downloadUrl); simpl; [|apply (Hstop (Ok false))].
  erewrite bind_ok; [|reflexivity]. erewrite bind_ok; [|reflexivity].
  set (w3 := mkWorld _ _ _).
  destruct (pg_download page (w_trace w3) authHeader downloadUrl) as [csv|].
  2: { eexists _, w3, [EvFetch downloadUrl]. split_and!; [done..|]. by constructor. }
  set (accountName := match adi_accountName accountInfo with Some _ => _ | None => _ end).
  destruct (saveTransactionsCSV_trace CAISSE_EPARGNE accountName startDate csv w3)
    as (path & w' & evs & Hsave & Htr & Hevs).
  rewrite (bind_ok _ _ _ _ _ Hsave).
  eexists true, w', (evs ++ [EvFetch downloadUrl]). split_and!; [done| |].
  - rewrite Htr. unfold w3, w1. simpl. by rewrite <- app_assoc.
  - apply Forall_app. split; [done|]. by constructor.
Qed.

(** The loop of step 6 never throws, issues no create call, and issues
    the prepare calls of the ready accounts, in order. *)
Lemma downloadLoop_run page accountsWithIds startDate authHeader n w :
  exists n' w' evs,
    downloadLoop page accountsWithIds startDate authHeader n w = (Ok n', w')
    /\ w_trace w' = evs ++ w_trace w
    /\ List.filter isCreateEvent evs = []
    /\ omap prepareIdOf (rev evs)
       = List.map adi_historyRequestId (List.filter isReady accountsWithIds).
Proof.
  revert n w. induction accountsWithIds as [|a accounts IH]; intros n w.
  - by exists n, w, [].
  - simpl. unfold isReady at 1.
    destruct (truthy (adi_historyRequestId a)) eqn:Hreq; simpl.
    2: { apply IH. }
    destruct (truthy_opt (adi_pfmContractId a)) eqn:Hpfm; simpl.
    2: { apply IH. }
    destruct (downloadAccountCSV_run page a startDate authHeader w)
      as (r & w1 & evs1 & Hrun & Htr1 & Hevs1).
    rewrite (bind_ok _ _ _ _ _ Hrun).
    destruct (IH (if r then S n else n) w1) as (n' & w' & evs & Hloop & Htr & Hnc & Hprep).
    exists n', w', (evs ++ evs1 ++ [EvPrepareDownload (adi_historyRequestId a)]).
    split_and!.
    + done.
    + rewrite Htr, Htr1. by rewrite <- !app_assoc.
    + rewrite !List.filter_app, Hnc. simpl. rewrite app_nil_r.
      clear -Hevs1. induction Hevs1 as [|e evs1 He _ IH']; [done|].
      simpl. destruct e; try done.
    + rewrite !rev_app_distr. simpl. rewrite omap_app, Hprep.
      assert (Hno : omap prepareIdOf (rev evs1) = []).
      { clear -Hevs1. apply Forall_rev in Hevs1.
        induction Hevs1 as [|e l He _ IH']; [done|].
        simpl. destruct e; try done. }
      by rewrite Hno.
Qed.

(* ===================================================================== *)
(** ** Reading the responses *)
(* ===================================================================== *)

Lemma bind_inv_ok {A B} (m : M A) (f : A -> M B) w b w' :
  (m ≫= f) w = (Ok b, w') ->
  exists a w1, m w = (Ok a, w1) /\ f a w1 = (Ok b, w').
Proof.
  unfold mbind, M_bind. destruct (m w) as [[a|e] w1]; [|done]. eauto.
Qed.

Lemma inspects_ret {A} (a : A) : inspects (mret a).
Proof. intros w. by exists (Ok a). Qed.

Lemma inspects_throw {A} : inspects (@throw A TypeError).
Proof. intros w. exists (Throw TypeError). split; [done|]. by intros e [= <-]. Qed.

Lemma inspects_bind {A B} (m : M A) (f : A -> M B) :
  inspects m -> (forall a, inspects (f a)) -> inspects (m ≫= f).
Proof.
  intros Hm Hf w. destruct (Hm w) as (r & Hr & He). destruct r as [a|e].
  - rewrite (bind_ok _ _ _ _ _ Hr). apply Hf.
  - rewrite (bind_throw _ _ _ _ _ Hr). exists (Throw e). split; [done|].
    intros e' [= <-]. by apply He.
Qed.

Lemma inspects_strictProp v k : inspects (strictProp v k).
Proof. destruct v; first [apply inspects_throw|apply inspects_ret]. Qed.

Lemma inspects_arrayOf v : inspects (arrayOf v).
Proof. destruct v; first [apply inspects_throw|apply inspects_ret]. Qed.

Lemma inspects_iterate v : inspects (iterate v).
Proof. destruct v; first [apply inspects_throw|apply inspects_ret]. Qed.

Lemma inspects_toDownloadInfo extract pfmToName item :
  inspects (toDownloadInfo extract pfmToName item).
Proof.
  unfold toDownloadInfo. apply inspects_bind; [apply inspects_strictProp|].
  intros identity. apply inspects_ret.
Qed.

Lemma inspects_M_map {A B} (f : A -> M B) l :
  (forall x, inspects (f x)) -> inspects (M_map f l).
Proof.
  intros Hf. induction l as [|x l IH]; simpl; [apply inspects_ret|].
  apply inspects_bind; [apply Hf|]. intros y.
  apply inspects_bind; [apply IH|]. intros ys. apply inspects_ret.
Qed.

Lemma inspects_indexHistory targets items acc :
  inspects (indexHistory targets items acc).
Proof.
  revert acc. induction items as [|item items IH]; intros acc; simpl;
    [apply inspects_ret|].
  apply inspects_bind; [apply inspects_strictProp|]. intros identity.
  destruct (extractHistoryRequestPfmContractId identity) as [pfmId|]; [|apply IH].
  destruct (_ && _); apply IH.
Qed.

Lemma inspects_planDownload page pfmToName : inspects (planDownload page pfmToName).
Proof.
  unfold planDownload.
  apply inspects_bind; [apply inspects_strictProp|]. intros v.
  apply inspects_bind; [apply inspects_strictProp|]. intros v'.
  apply inspects_bind; [apply inspects_arrayOf|]. intros items.
  apply inspects_bind; [apply inspects_M_map, inspects_toDownloadInfo|]. intros ai.
  apply inspects_bind; [apply inspects_iterate|]. intros hitems.
  apply inspects_bind; [apply inspects_indexHistory|]. intros hist.
  apply inspects_ret.
Qed.

Lemma strictProp_ok v k w : isNullish v = false -> strictProp v k w = (Ok (prop v k), w).
Proof. by destruct v. Qed.

Lemma strictProp_inv v k w r w' :
  strictProp v k w = (Ok r, w') -> isNullish v = false /\ r = prop v k /\ w' = w.
Proof. destruct v; simpl; by intros [= <- <-]. Qed.

Lemma indexHistory_retained targets items acc all m w w' :
  indexHistory targets items acc w = (Ok m, w') ->
  (forall x, x ∈ items -> x ∈ all) ->
  retainedOK targets all acc -> retainedOK targets all m.
Proof.
  revert acc. induction items as [|item items IH]; intros acc Hrun Hsub Hacc.
  - simpl in Hrun. by injection Hrun as <- _.
  - simpl in Hrun. apply bind_inv_ok in Hrun as (identity & w1 & Hid & Hrun).
    apply strictProp_inv in Hid as (Hnn & -> & ->).
    assert (Hsub' : forall x, x ∈ items -> x ∈ all) by (intros x Hx; apply Hsub; by right).
    destruct (extractHistoryRequestPfmContractId (prop item "identity")) as [pfmId|] eqn:Hex;
      [|by eapply IH].
    destruct (truthy_str pfmId) eqn:Htr; simpl in Hrun; [|by eapply IH].
    destruct (bool_decide_reflect (pfmId ∈ targets)) as [Hin|]; simpl in Hrun; [|by eapply IH].
    destruct (bool_decide_reflect (is_Some (acc !! pfmId))); simpl in Hrun; [by eapply IH|].
    eapply IH; [done..|].
    intros k v Hk. destruct (decide (pfmId = k)) as [->|Hne].
    + rewrite lookup_insert_eq in Hk. simplify_eq.
      split_and!; [apply Hsub; by left|done..].
    + rewrite lookup_insert_ne in Hk by done. by apply Hacc.
Qed.

(** First seen wins: a target whose identifier some listed item carries
    retains the first such item of the listing. *)
Lemma indexHistory_first targets before item after pfmId m w w' :
  indexHistory targets (before ++ item :: after) ∅ w = (Ok m, w') ->
  pfmId ∈ targets -> truthy_str pfmId = true ->
  extractHistoryRequestPfmContractId (prop item "identity") = Some pfmId ->
  Forall (fun x => extractHistoryRequestPfmContractId (prop x "identity") <> Some pfmId)
         before ->
  m !! pfmId = Some item.
Proof.
  intros Hrun Hin Htr Hex Hbefore.
  assert (Hkeep : forall items acc m w w',
            indexHistory targets items acc w = (Ok m, w') ->
            acc !! pfmId = Some item -> m !! pfmId = Some item).
  { clear. induction items as [|x items IH]; intros acc m w w' Hrun Hacc.
    - simpl in Hrun. by injection Hrun as <- _.
    - simpl in Hrun. apply bind_inv_ok in Hrun as (identity & w1 & Hid & Hrun).
      destruct (extractHistoryRequestPfmContractId identity) as [k|]; [|by eapply IH].
      destruct (truthy_str k && bool_decide (k ∈ targets)
                && negb (bool_decide (is_Some (acc !! k)))) eqn:Hc; [|by eapply IH].
      eapply IH; [done|]. destruct (decide (k = pfmId)) as [->|Hne].
      + apply andb_prop in Hc as [_ Hc]. apply negb_true_iff, bool_decide_eq_false in Hc.
        destruct Hc. by eexists.
      + by rewrite lookup_insert_ne. }
  assert (Hgen : forall acc w, acc !! pfmId = None ->
            indexHistory targets (before ++ item :: after) acc w = (Ok m, w') ->
            m !! pfmId = Some item).
  { clear Hrun. induction Hbefore as [|x before Hx _ IH]; intros acc w0 Hacc Hrun.
    - simpl in Hrun. apply bind_inv_ok in Hrun as (identity & w1 & Hid & Hrun).
      apply strictProp_inv in Hid as (_ & -> & ->). rewrite Hex, Htr in Hrun.
      rewrite bool_decide_eq_true_2 in Hrun by done.
      rewrite bool_decide_eq_false_2 in Hrun by (rewrite Hacc; by intros [? ?]).
      simpl in Hrun. eapply Hkeep; [done|]. by rewrite lookup_insert_eq.
    - simpl in Hrun. apply bind_inv_ok in Hrun as (identity & w1 & Hid & Hrun).
      apply strictProp_inv in Hid as (_ & -> & ->).
      destruct (extractHistoryRequestPfmContractId (prop x "identity")) as [k|] eqn:Hk;
        [|by eapply IH].
      destruct (_ && _) in Hrun; [|by eapply IH].
      eapply IH; [|done]. rewrite lookup_insert_ne; [done|]. congruence. }
  eapply Hgen; [apply lookup_empty|done].
Qed.

Lemma indexHistory_ok targets items acc w :
  Forall (fun item => isNullish item = false) items ->
  exists m, indexHistory targets items acc w = (Ok m, w).
Proof.
  intros Hall. revert acc. induction Hall as [|item items Hnn _ IH]; intros acc; simpl.
  - by exists acc.
  - rewrite (bind_ok _ _ _ _ _ (strictProp_ok item "identity" w Hnn)).
    destruct (extractHistoryRequestPfmContractId (prop item "identity")); [|apply IH].
    destruct (_ && _); apply IH.
Qed.

Lemma M_map_ok {A B} (f : A -> M B) (g : A -> B) l w :
  Forall (fun x => f x w = (Ok (g x), w)) l ->
  M_map f l w = (Ok (List.map g l), w).
Proof.
  induction 1 as [|x l Hx _ IH]; simpl; [done|].
  rewrite (bind_ok _ _ _ _ _ Hx). by rewrite (bind_ok _ _ _ _ _ IH).
Qed.

Lemma toDownloadInfo_retained pfmToName targets items hist pfmId item w :
  retainedOK targets items hist -> hist !! pfmId = Some item ->
  toDownloadInfo extractHistoryRequestPfmContractId pfmToName
    (default JUndefined (hist !! pfmId)) w
  = (Ok (retainedInfo pfmToName hist pfmId), w).
Proof.
  intros Hok Hitem. destruct (Hok _ _ Hitem) as (_ & Hnn & Hex & Htr & _).
  unfold toDownloadInfo, retainedInfo. rewrite Hitem. simpl.
  rewrite (bind_ok _ _ _ _ _ (strictProp_ok item "identity" w Hnn)).
  rewrite Hex. simpl. by rewrite Htr.
Qed.

Lemma strictEqStr_true v s : strictEqStr v s = true <-> v = JString s.
Proof.
  destruct v; simpl; try (split; [done|by intros [=]]).
  rewrite bool_decide_eq_true. split; [by intros ->|by intros [= ->]].
Qed.

Lemma retained_truthy targets items hist pfmId item :
  retainedOK targets items hist -> hist !! pfmId = Some item -> truthy item = true.
Proof.
  intros Hok Hitem. destruct (Hok _ _ Hitem) as (_ & _ & Hex & _).
  destruct item; try done; by vm_compute in Hex.
Qed.

Lemma hasCorrectDateRange_hasWindow targets items hist startDate today pfmId :
  retainedOK targets items hist ->
  hasCorrectDateRange hist startDate today pfmId = true
  <-> hasWindow hist startDate today pfmId.
Proof.
  intros Hok. unfold hasCorrectDateRange, hasWindow.
  destruct (hist !! pfmId) as [item|] eqn:Hitem.
  - rewrite (retained_truthy _ _ _ _ _ Hok Hitem). simpl.
    rewrite andb_true_iff, !strictEqStr_true. split.
    + intros [? ?]. by exists item.
    + by intros (? & [= <-] & ? & ?).
  - split; [done|]. by intros (? & ? & _).
Qed.

Lemma allHaveCorrectDateRange_spec targets items hist startDate today :
  retainedOK targets items hist ->
  allHaveCorrectDateRange hist startDate today targets = true
  <-> forall pfmId, pfmId ∈ targets -> hasWindow hist startDate today pfmId.
Proof.
  intros Hok. unfold allHaveCorrectDateRange. rewrite forallb_forall. split.
  - intros H pfmId Hin. eapply hasCorrectDateRange_hasWindow; [done|].
    by apply H, list_elem_of_In.
  - intros H pfmId Hin. eapply hasCorrectDateRange_hasWindow; [done|].
    by apply H, list_elem_of_In.
Qed.

Lemma planDownload_inv page pfmToName w accountsInfo targets hist w' :
  planDownload page pfmToName w = (Ok (accountsInfo, targets, hist), w') ->
  targets = targetIds accountsInfo /\ exists items, retainedOK targets items hist.
Proof.
  unfold planDownload. intros H.
  apply bind_inv_ok in H as (v & w1 & _ & H).
  apply bind_inv_ok in H as (v' & w2 & _ & H).
  apply bind_inv_ok in H as (items & w3 & _ & H).
  apply bind_inv_ok in H as (ai & w4 & _ & H).
  apply bind_inv_ok in H as (hitems & w5 & _ & H).
  apply bind_inv_ok in H as (m & w6 & Hidx & H).
  injection H as <- <- <- _. split; [done|]. exists hitems.
  eapply indexHistory_retained; [done|done|]. by intros k x ?%lookup_empty_Some.
Qed.

(** After the guard and the planning, the run is the choice between reuse
    and recreation, followed by the downloads. *)
Lemma downloadTransactions_run page accountsFromApi w accountsInfo targets hist :
  hasTransactionsForToday CAISSE_EPARGNE
    (List.map ai_accountName accountsFromApi) w = (Ok false, w) ->
  planDownload page (pfmToNameOf accountsFromApi) w
  = (Ok (accountsInfo, targets, hist), w) ->
  downloadTransactions page accountsFromApi w
  = ((if allHaveCorrectDateRange hist (runStartDate w) (runToday w) targets
      then M_map (fun pfmId =>
                    toDownloadInfo extractHistoryRequestPfmContractId
                      (pfmToNameOf accountsFromApi)
                      (default JUndefined (hist !! pfmId))) targets
      else createDownloadRequests page accountsInfo (runStartDate w) (runToday w)
             (runAuthHeader page) (pfmToNameOf accountsFromApi) targets)
     ≫= fun accountsWithIds =>
          downloadLoop page accountsWithIds (runStartDate w) (runAuthHeader page) 0
          ≫= fun _ => mret true) w.
Proof.
  intros Hguard Hplan. unfold downloadTransactions.
  erewrite bind_ok; [|reflexivity]. erewrite bind_ok; [|reflexivity].
  rewrite (bind_ok _ _ _ _ _ Hguard). cbv iota.
  by rewrite (bind_ok _ _ _ _ _ Hplan).
Qed.

Lemma createDownloadRequests_run page accountsInfo startDate endDate authHeader
    pfmToName targets w :
  let w1 := mkWorld (w_fs w) (w_now w)
              (rev (List.map (fun pfmId => EvCreateRequest pfmId startDate endDate)
                             (createIds accountsInfo)) ++ w_trace w) in
  let w2 := mkWorld (w_fs w) (w_now w) (EvListRequests :: w_trace w1) in
  exists n',
    createLoop page accountsInfo startDate endDate authHeader 0 w = (Ok n', w1)
    /\ (n' = 0%nat ->
        createDownloadRequests page accountsInfo startDate endDate authHeader
          pfmToName targets w = (Throw (Error fatalMessage), w1))
    /\ (n' <> 0%nat ->
        exists r,
          createDownloadRequests page accountsInfo startDate endDate authHeader
            pfmToName targets w = (r, w2)
          /\ r <> Throw (Error fatalMessage)
          /\ (forall data items,
                pg_historyRequests page (w_trace w2) authHeader = Some data ->
                isNullish data = false ->
                or_else (prop data "operationIdResponseItem") (JArray []) = JArray items ->
                Forall (fun item => isNullish item = false) items ->
                exists infos, r = Ok infos)).
Proof.
  intros w1 w2.
  destruct (createLoop_run page accountsInfo startDate endDate authHeader 0 w)
    as (n' & Hloop & _). fold w1 in Hloop.
  exists n'. split; [done|]. unfold createDownloadRequests.
  rewrite (bind_ok _ _ _ _ _ Hloop). split.
  - by intros ->.
  - intros Hn. destruct (Nat.eqb_spec n' 0) as [|_]; [done|].
    erewrite bind_ok; [|reflexivity]. erewrite bind_ok; [|reflexivity].
    change (mkWorld (w_fs w1) (w_now w1) (EvListRequests :: w_trace w1)) with w2.
    destruct (pg_historyRequests page (w_trace w2) authHeader) as [data|] eqn:Hlist.
    2: { exists (Throw NetworkError). split_and!; [done|done|]. by intros ? ? [=]. }
    set (tail := strictProp data "operationIdResponseItem" ≫= _).
    assert (Hins : inspects tail).
    { apply inspects_bind; [apply inspects_strictProp|]. intros v.
      apply inspects_bind; [apply inspects_iterate|]. intros its.
      apply inspects_bind; [apply inspects_indexHistory|]. intros m.
      apply inspects_M_map. intros x. apply inspects_toDownloadInfo. }
    destruct (Hins w2) as (r & Hr & He). exists r. split_and!; [done| |].
    + intros ->. by specialize (He _ eq_refl).
    + intros data' items [= <-] Hnn Hitems Hall. unfold tail in Hr.
      rewrite (bind_ok _ _ _ _ _ (strictProp_ok data _ w2 Hnn)) in Hr.
      rewrite Hitems in Hr. erewrite bind_ok in Hr; [|reflexivity].
      destruct (indexHistory_ok targets items ∅ w2 Hall) as (m & Hm).
      rewrite (bind_ok _ _ _ _ _ Hm) in Hr.
      assert (Hok : retainedOK targets items m).
      { eapply indexHistory_retained; [done|done|]. by intros k x ?%lookup_empty_Some. }
      erewrite (M_map_ok _ (retainedInfo pfmToName m)) in Hr.
      * injection Hr as <-. by eexists.
      * apply List.Forall_forall. intros pfmId [_ Hhas]%filter_In.
        apply bool_decide_eq_true in Hhas as [item Hitem].
        by eapply toDownloadInfo_retained.
Qed.

(** What a run that recreates the requests does, whatever the responses. *)
Lemma downloadTransactions_recreate page accountsFromApi w accountsInfo targets hist :
  hasTransactionsForToday CAISSE_EPARGNE
    (List.map ai_accountName accountsFromApi) w = (Ok false, w) ->
  planDownload page (pfmToNameOf accountsFromApi) w
  = (Ok (accountsInfo, targets, hist), w) ->
  allHaveCorrectDateRange hist (runStartDate w) (runToday w) targets = false ->
  let creates := createCalls accountsInfo (runStartDate w) (runToday w) in
  let w1 := mkWorld (w_fs w) (w_now w) (creates ++ w_trace w) in
  exists n',
    createLoop page accountsInfo (runStartDate w) (runToday w) (runAuthHeader page) 0 w
    = (Ok n', w1)
    /\ (n' = 0%nat ->
        downloadTransactions page accountsFromApi w = (Throw (Error fatalMessage), w1))
    /\ (n' <> 0%nat ->
        exists r w' later,
          downloadTransactions page accountsFromApi w = (r, w')
          /\ r <> Throw (Error fatalMessage)
          /\ w_trace w' = later ++ EvListRequests :: creates ++ w_trace w
          /\ List.filter isCreateEvent later = []
          /\ (forall data items,
                pg_historyRequests page (EvListRequests :: creates ++ w_trace w)
                  (runAuthHeader page) = Some data ->
                isNullish data = false ->
                or_else (prop data "operationIdResponseItem") (JArray []) = JArray items ->
                Forall (fun item => isNullish item = false) items ->
                r = Ok true)).
Proof.
  intros Hguard Hplan Hno creates w1.
  rewrite (downloadTransactions_run _ _ _ _ _ _ Hguard Hplan), Hno.
  destruct (createDownloadRequests_run page accountsInfo (runStartDate w) (runToday w)
              (runAuthHeader page) (pfmToNameOf accountsFromApi) targets w)
    as (n' & Hloop & Hzero & Hpos).
  exists n'. split; [done|]. split.
  - intros Hn. by rewrite (bind_throw _ _ _ _ _ (Hzero Hn)).
  - intros Hn. destruct (Hpos Hn) as (r & Hrun & Hr & Hwf). clear Hzero Hpos.
    destruct r as [infos|e].
    + rewrite (bind_ok _ _ _ _ _ Hrun).
      destruct (downloadLoop_run page infos (runStartDate w) (runAuthHeader page) 0
                  (mkWorld (w_fs w) (w_now w) (EvListRequests :: w_trace w1)))
        as (n & w' & evs & Hdl & Htr & Hnc & _).
      rewrite (bind_ok _ _ _ _ _ Hdl).
      exists (Ok true), w', evs. split_and!; [done..|]. done.
    + rewrite (bind_throw _ _ _ _ _ Hrun).
      eexists (Throw e), _, []. split_and!; [done| |done|done|].
      * intros [= ->]. done.
      * intros data items H1 H2 H3 H4.
        destruct (Hwf data items H1 H2 H3 H4) as [? [=]].
Qed.

(** C4. In a run that recreates the requests: if every create call fails,
    the run throws the fatal error, having issued the create calls and
    nothing else (no prepare call, no fetch, no directory or file
    written); if the create call of at least one account succeeds, the
    fatal error is not thrown, the run goes on to list the requests again,
    and with a well-formed listing it completes. *)
Theorem downloadTransactions_fatal_when_no_create_succeeds (page : Page)
    (accountsFromApi : list AccountInfo) (w : World)
    (accountsInfo : list AccountDownloadInfo) (targets : list (list N))
    (historyByAccount : gmap (list N) json) :
  hasTransactionsForToday CAISSE_EPARGNE
    (List.map ai_accountName accountsFromApi) w = (Ok false, w) ->
  planDownload page (pfmToNameOf accountsFromApi) w
  = (Ok (accountsInfo, targets, historyByAccount), w) ->
  allHaveCorrectDateRange historyByAccount (runStartDate w) (runToday w) targets
  = false ->
  let creates := createCalls accountsInfo (runStartDate w) (runToday w) in
  ((forall tr pfmId,
      pg_createHistoryRequest page tr (runAuthHeader page) pfmId
        (runStartDate w) (runToday w) = false) ->
   downloadTransactions page accountsFromApi w
   = (Throw (Error fatalMessage),
      mkWorld (w_fs w) (w_now w) (creates ++ w_trace w)))
  /\ (forall pfmId,
        pfmId ∈ createIds accountsInfo ->
        (forall tr,
           pg_createHistoryRequest page tr (runAuthHeader page) pfmId
             (runStartDate w) (runToday w) = true) ->
        exists r w' later,
          downloadTransactions page accountsFromApi w = (r, w')
          /\ r <> Throw (Error fatalMessage)
          /\ w_trace w' = later ++ EvListRequests :: creates ++ w_trace w
          /\ (forall data items,
                pg_historyRequests page (EvListRequests :: creates ++ w_trace w)
                  (runAuthHeader page) = Some data ->
                isNullish data = false ->
                or_else (prop data "operationIdResponseItem") (JArray []) = JArray items ->
                Forall (fun item => isNullish item = false) items ->
                r = Ok true)).
Proof.
  intros Hguard Hplan Hno creates.
  destruct (downloadTransactions_recreate _ _ _ _ _ _ Hguard Hplan Hno)
    as (n' & Hloop & Hzero & Hpos).
  destruct (createLoop_run page accountsInfo (runStartDate w) (runToday w)
              (runAuthHeader page) 0 w) as (n'' & Hloop' & _ & Hnone & Hsome).
  fold (createCalls accountsInfo (runStartDate w) (runToday w)) in Hloop'.
  rewrite Hloop in Hloop'. injection Hloop' as <-.
  split.
  - intros Hfail. apply Hzero. by apply Hnone.
  - intros pfmId Hin Hok. specialize (Hsome pfmId Hin Hok).
    destruct Hpos as (r & w' & later & Hrun & Hr & Htr & _ & Hwf); [lia|].
    by exists r, w', later.
Qed.

(** C3. Once the guard lets the run proceed: if every target account has
    a retained request whose window is the run's window, no create call
    is issued and the prepare calls carry the identifiers of the retained
    requests; if one target account has none, or one with another window,
    a create call is issued for each account of the last download, which
    covers every target account. *)
Theorem downloadTransactions_reuse_all_or_recreate_all (page : Page)
    (accountsFromApi : list AccountInfo) (w : World)
    (accountsInfo : list AccountDownloadInfo) (targets : list (list N))
    (historyByAccount : gmap (list N) json) :
  hasTransactionsForToday CAISSE_EPARGNE
    (List.map ai_accountName accountsFromApi) w = (Ok false, w) ->
  planDownload page (pfmToNameOf accountsFromApi) w
  = (Ok (accountsInfo, targets, historyByAccount), w) ->
  ((forall pfmId, pfmId ∈ targets ->
      hasWindow historyByAccount (runStartDate w) (runToday w) pfmId) ->
   exists w' evs,
     downloadTransactions page accountsFromApi w = (Ok true, w')
     /\ w_trace w' = evs ++ w_trace w
     /\ List.filter isCreateEvent evs = []
     /\ omap prepareIdOf (rev evs)
        = List.filter truthy
            (List.map (fun pfmId =>
                         requestIdOf (default JUndefined (historyByAccount !! pfmId)))
                      targets))
  /\ (forall stale,
        stale ∈ targets ->
        ~ hasWindow historyByAccount (runStartDate w) (runToday w) stale ->
        exists r w' later,
          downloadTransactions page accountsFromApi w = (r, w')
          /\ w_trace w'
             = later ++ createCalls accountsInfo (runStartDate w) (runToday w)
                     ++ w_trace w
          /\ List.filter isCreateEvent later = []
          /\ forall pfmId,
               pfmId ∈ targets ->
               EvCreateRequest pfmId (runStartDate w) (runToday w) ∈ w_trace w').
Proof.
  intros Hguard Hplan.
  destruct (planDownload_inv _ _ _ _ _ _ _ Hplan) as (Htargets & items & Hok).
  split.
  - intros Hall.
    rewrite (downloadTransactions_run _ _ _ _ _ _ Hguard Hplan).
    rewrite (proj2 (allHaveCorrectDateRange_spec _ _ _ _ _ Hok) Hall).
    erewrite bind_ok.
    2: { apply (M_map_ok _ (retainedInfo (pfmToNameOf accountsFromApi) historyByAccount)).
         apply List.Forall_forall. intros pfmId Hin%list_elem_of_In.
         destruct (Hall pfmId Hin) as (item & Hitem & _).
         by eapply toDownloadInfo_retained. }
    destruct (downloadLoop_run page
                (List.map (retainedInfo (pfmToNameOf accountsFromApi) historyByAccount)
                          targets)
                (runStartDate w) (runAuthHeader page) 0 w)
      as (n & w' & evs & Hdl & Htr & Hnc & Hprep).
    rewrite (bind_ok _ _ _ _ _ Hdl).
    exists w', evs. split_and!; [done..|].
    rewrite Hprep.
    assert (Htruthy : forall pfmId, pfmId ∈ targets -> truthy_str pfmId = true).
    { intros pfmId Hin. destruct (Hall pfmId Hin) as (item & Hitem & _).
      by destruct (Hok _ _ Hitem) as (_ & _ & _ & ? & _). }
    clear -Htruthy.
    induction targets as [|pfmId targets IH]; [done|].
    simpl. unfold isReady at 1. simpl.
    rewrite (Htruthy pfmId) by (by left). rewrite andb_true_r.
    rewrite <- IH by (intros ? ?; apply Htruthy; by right).
    by destruct (truthy _).
  - intros stale Hin Hstale.
    assert (Hno : allHaveCorrectDateRange historyByAccount (runStartDate w)
                    (runToday w) targets = false).
    { apply not_true_is_false. intros Hall. apply Hstale.
      by apply (proj1 (allHaveCorrectDateRange_spec _ _ _ _ _ Hok) Hall). }
    destruct (downloadTransactions_recreate _ _ _ _ _ _ Hguard Hplan Hno)
      as (n' & Hloop & Hzero & Hpos).
    assert (Hissued : forall later pfmId, pfmId ∈ targets ->
              EvCreateRequest pfmId (runStartDate w) (runToday w)
              ∈ later ++ createCalls accountsInfo (runStartDate w) (runToday w)
                      ++ w_trace w).
    { intros later pfmId Hp. rewrite !elem_of_app. right. left.
      unfold createCalls. apply list_elem_of_In. rewrite <- in_rev.
      apply (in_map (fun id => EvCreateRequest id (runStartDate w) (runToday w))).
      apply list_elem_of_In.
      rewrite Htargets in Hp. by apply elem_of_targetIds. }
    destruct (decide (n' = 0%nat)) as [Hn|Hn].
    + eexists _, _, []. split_and!; [by apply Hzero|done|done|].
      simpl. apply (Hissued []).
    + destruct (Hpos Hn) as (r & w' & later & Hrun & _ & Htr & Hnc & _).
      exists r, w', (later ++ [EvListRequests]). split_and!; [done| | |].
      * rewrite Htr. by rewrite <- app_assoc.
      * rewrite List.filter_app, Hnc. done.
      * intros pfmId Hp. rewrite Htr, cons_middle, app_assoc.
        apply Hissued, Hp.
Qed.

(* ===================================================================== *)
(** ** Further properties of the engine *)
(* ===================================================================== *)

(** X1. One archive file per account: when the account directory holds
    no archive, or one archive file and no other [.csv] file, saving an
    export leaves it with one archive file, the file just written, which
    is the file that was there when there was one. *)
Theorem archive_stays_single (bankId : BankId)
    (accountName startDate csvContent : list N) (w : World) :
  let accountDir := getAccountDir bankId accountName in
  is_Some (parseTransactionsFilename (getTransactionsFilename startDate)) ->
  noArchive w accountDir \/ (exists name mtime, soleArchive w accountDir name mtime) ->
  exists name w',
    saveTransactionsCSV bankId accountName startDate csvContent w
    = (Ok (path_join [accountDir; name]), w')
    /\ soleArchive w' accountDir name (w_now w)
    /\ (forall old mtime, soleArchive w accountDir old mtime -> name = old).
Proof. apply saveTransactionsCSV_one_archive. Qed.

(** X2. First seen wins: for a target account, the request retained from
    a listing is the first listed item that carries the account's
    contract identifier. *)
Theorem retained_request_is_first_listed (targets : list (list N))
    (before : list json) (item : json) (after : list json) (pfmId : list N)
    (retained : gmap (list N) json) (w w' : World) :
  indexHistory targets (before ++ item :: after) ∅ w = (Ok retained, w') ->
  pfmId ∈ targets -> truthy_str pfmId = true ->
  extractHistoryRequestPfmContractId (prop item "identity") = Some pfmId ->
  Forall (fun x => extractHistoryRequestPfmContractId (prop x "identity") <> Some pfmId)
         before ->
  retained !! pfmId = Some item.
Proof. apply indexHistory_first. Qed.

(** X3. A download failure is soft: [downloadAccountCSV] never throws; it
    returns a boolean, having issued the prepare call of the account's
    request and after it a fetch and archive writes at most, and no
    create call. *)
Theorem downloadAccountCSV_never_throws (page : Page)
    (accountInfo : AccountDownloadInfo) (startDate authHeader : list N) (w : World) :
  exists r w' evs,
    downloadAccountCSV page accountInfo startDate authHeader w = (Ok r, w')
    /\ w_trace w'
       = evs ++ EvPrepareDownload (adi_historyRequestId accountInfo) :: w_trace w
    /\ Forall (fun e => isDownloadEffect e = true) evs.
Proof. apply downloadAccountCSV_run. Qed.


(** X5. The name of an archive file is rebuilt from the start date that
    [parseTransactionsFilename] reads from it. *)
Theorem archive_filename_round_trip (filename startDate : list N) :
  parseTransactionsFilename filename = Some startDate ->
  getTransactionsFilename startDate = filename.
Proof. apply getTransactionsFilename_parse. Qed.

(** X6. For two rows that carry dates of the calendar (day/month/year,
    year 100 to 9999), the key of one is at most the key of the other
    exactly when its date is the same day or an earlier one. *)
Theorem row_keys_order_as_calendar (a b : list N) (da db : Z * Z * Z) :
  rowDate a = Some da -> rowDate b = Some db -> validDate da -> validDate db ->
  rowKey b <= rowKey a <-> dateLe db da.
Proof. apply rowKey_dateLe. Qed.

(* ===================================================================== *)
(** ** ocr.ts: the digit map *)
(* ===================================================================== *)

Lemma getIndex_cons {V} key k (x : V) o :
  getIndex key ((k, x) :: o) = if (k =? key)%N then Some x else getIndex key o.
Proof. unfold getIndex. simpl. by destruct (k =? key)%N. Qed.

Lemma getIndex_Some_key {V} key (x : V) o :
  getIndex key o = Some x -> (key, x) ∈ o.
Proof.
  induction o as [|[k y] o IH]; [done|].
  rewrite getIndex_cons. destruct (k =? key)%N eqn:E.
  - intros [= ->]. apply N.eqb_eq in E as ->. left.
  - intros H. right. by apply IH.
Qed.

Lemma indexOrdered_cons {V} k (x : V) o :
  indexOrdered ((k, x) :: o) ->
  indexOrdered o /\ Forall (fun p => (k < fst p)%N) o.
Proof.
  unfold indexOrdered. simpl. intros H. apply StronglySorted_inv in H as [H1 H2].
  split; [done|]. by rewrite List.Forall_map in H2.
Qed.

Lemma getIndex_elem_of {V} key (x : V) o :
  indexOrdered o -> (key, x) ∈ o -> getIndex key o = Some x.
Proof.
  induction o as [|[k y] o IH]; intros Hs Hin; [by apply elem_of_nil in Hin|].
  apply indexOrdered_cons in Hs as [Hs Hlt].
  rewrite getIndex_cons. apply elem_of_cons in Hin as [[= <- <-]|Hin].
  - by rewrite N.eqb_refl.
  - destruct (k =? key)%N eqn:E; [|by apply IH].
    apply N.eqb_eq in E as ->.
    rewrite List.Forall_forall in Hlt. apply list_elem_of_In, Hlt in Hin.
    simpl in Hin. lia.
Qed.

Lemma setIndex_append {V} key (v : V) o :
  Forall (fun p => (fst p < key)%N) o -> setIndex key v o = o ++ [(key, v)].
Proof.
  induction o as [|[k y] o IH]; intros H; [done|].
  apply Forall_cons in H as [Hk H]. simpl in *.
  destruct (key =? k)%N eqn:E1; [apply N.eqb_eq in E1; lia|].
  destruct (key <? k)%N eqn:E2; [apply N.ltb_lt in E2; lia|].
  by rewrite IH.
Qed.

Lemma setIndex_present {V} key (x v : V) o :
  indexOrdered o -> getIndex key o = Some x ->
  exists l1 l2, o = l1 ++ (key, x) :: l2 /\ setIndex key v o = l1 ++ (key, v) :: l2.
Proof.
  induction o as [|[k y] o IH]; intros Hs Hget; [done|].
  apply indexOrdered_cons in Hs as [Hs Hlt].
  rewrite getIndex_cons in Hget. simpl.
  destruct (k =? key)%N eqn:E.
  - apply N.eqb_eq in E as ->. injection Hget as ->.
    rewrite N.eqb_refl. by exists [], o.
  - assert (k < key)%N as Hk.
    { apply getIndex_Some_key in Hget.
      rewrite List.Forall_forall in Hlt. by apply list_elem_of_In, Hlt in Hget. }
    destruct (key =? k)%N eqn:E1; [apply N.eqb_eq in E1; lia|].
    destruct (key <? k)%N eqn:E2; [apply N.ltb_lt in E2; lia|].
    destruct (IH Hs Hget) as (l1 & l2 & -> & ->).
    by exists ((k, y) :: l1), l2.
Qed.

(** On the entries of an object the first loop marks the faulty readings
    and keeps the others. *)
Lemma firstPass_marks prefix suffix pm :
  indexOrdered (prefix ++ suffix) ->
  fst (fold_left firstPassStep suffix (List.map markFaulty prefix, pm))
  = List.map markFaulty (prefix ++ suffix).
Proof.
  revert prefix pm. induction suffix as [|[k v] suffix IH]; intros prefix pm Hs.
  - by rewrite app_nil_r.
  - assert (Forall (fun p : N * Z => (fst p < k)%N) (List.map markFaulty prefix)) as Hlt.
    { unfold indexOrdered in Hs. rewrite map_app in Hs. simpl in Hs.
      apply List.Forall_forall. intros p Hp.
      apply in_map_iff in Hp as ([k' v'] & <- & Hp). simpl.
      clear IH. induction prefix as [|[k0 v0] prefix IHp]; [done|].
      simpl in Hs. apply StronglySorted_inv in Hs as [Hs Hall].
      destruct Hp as [[= -> ->]|Hp]; [|by apply IHp].
      rewrite List.Forall_forall in Hall. apply Hall.
      apply in_or_app. right. by left. }
    assert (List.map markFaulty prefix ++ [markFaulty (k, v)]
            = List.map markFaulty (prefix ++ [(k, v)])) as Hmap
      by by rewrite map_app.
    replace (prefix ++ (k, v) :: suffix) with ((prefix ++ [(k, v)]) ++ suffix) in *
      by by rewrite <- app_assoc.
    cbn [fold_left firstPassStep]. unfold markFaulty in Hmap at 2. simpl in Hmap.
    destruct (isValidDigit v) eqn:E; rewrite setIndex_append by done;
      rewrite Hmap; by apply IH.
Qed.

Lemma firstPass_cleaned digitMap :
  indexOrdered digitMap ->
  fst (fold_left firstPassStep digitMap ([], [])) = List.map markFaulty digitMap.
Proof. intros Hs. by apply (firstPass_marks [] digitMap []). Qed.

Lemma indexOrdered_same_keys {V W} (o : list (N * V)) (o' : list (N * W)) :
  List.map fst o' = List.map fst o -> indexOrdered o -> indexOrdered o'.
Proof. unfold indexOrdered. by intros ->. Qed.

Lemma assigns_keys digit c c' :
  assigns digit c c' -> List.map fst c' = List.map fst c.
Proof.
  intros [->|(l1 & k & l2 & -> & ->)]; [done|]. by rewrite !map_app.
Qed.

Lemma matchLoop_assigns pm digit keys c :
  indexOrdered c -> assigns digit c (matchLoop pm digit keys c).
Proof.
  intros Hs. induction keys as [|k keys IH]; [by left|]. simpl.
  destruct (bool_decide (getIndex k c = Some (-1))) eqn:E; [|done].
  apply bool_decide_eq_true in E. simpl.
  destruct (match getIndex k pm with
            | Some candidates => bool_decide (digit ∈ candidates)
            | None => false
            end); [|done].
  destruct (setIndex_present k (-1) digit c Hs E) as (l1 & l2 & H1 & H2).
  right. by exists l1, k, l2.
Qed.

Lemma fallbackLoop_assigns digit keys c :
  indexOrdered c ->
  (fallbackLoop digit keys c = c
   /\ Forall (fun k => getIndex k c <> Some (-1)) keys)
  \/ exists l1 key l2,
       c = l1 ++ (key, -1) :: l2
       /\ fallbackLoop digit keys c = l1 ++ (key, digit) :: l2.
Proof.
  intros Hs. induction keys as [|k keys IH]; [by left|]. simpl.
  destruct (bool_decide (getIndex k c = Some (-1))) eqn:E.
  - apply bool_decide_eq_true in E.
    destruct (setIndex_present k (-1) digit c Hs E) as (l1 & l2 & H1 & H2).
    right. by exists l1, k, l2.
  - apply bool_decide_eq_false in E.
    destruct IH as [[H1 H2]|H]; [left|by right]. split; [done|by constructor].
Qed.

Lemma resolves_refl digits c : resolves digits c c.
Proof. apply Forall2_same_length_lookup. split; [done|]. intros i x y ? ?. simplify_eq. auto. Qed.

Lemma resolves_mono digits digits' c0 c :
  (forall d, d ∈ digits -> d ∈ digits') -> resolves digits c0 c -> resolves digits' c0 c.
Proof.
  intros Hsub H. eapply Forall2_impl; [exact H|].
  intros p0 p [Hk [Hv|[H0 Hv]]]; split; auto.
Qed.

Lemma resolves_assigns digits digit c0 c c' :
  digit ∈ digits -> resolves digits c0 c -> assigns digit c c' ->
  resolves digits c0 c'.
Proof.
  intros Hd Hres [->|(l1 & k & l2 & -> & ->)]; [done|].
  apply Forall2_app_inv_r in Hres as (l1' & r & Hl1 & Hr & ->).
  apply Forall2_cons_inv_r in Hr as (p0 & l2' & [Hk Hv] & Hl2 & ->).
  apply Forall2_app; [done|]. constructor; [|done]. simpl in *.
  split; [done|]. right. split; [|done]. destruct Hv as [Hv|[Hv _]]; congruence.
Qed.

Lemma resolves_keys digits c0 c :
  resolves digits c0 c -> List.map fst c = List.map fst c0.
Proof. induction 1 as [|p0 p c0 c [Hk _] _ IH]; [done|]. simpl. by rewrite Hk, IH. Qed.

Lemma resolves_getIndex digits c0 c key v0 :
  resolves digits c0 c -> getIndex key c0 = Some v0 ->
  exists v, getIndex key c = Some v /\ (v = v0 \/ (v0 = -1 /\ v ∈ digits)).
Proof.
  induction 1 as [|[k0 x0] [k x] c0 c [Hk Hv] _ IH]; [done|]. simpl in *. subst k.
  rewrite !getIndex_cons. destruct (k0 =? key)%N; [|done].
  intros [= <-]. exists x. split; [done|]. destruct Hv as [->|[-> Hv]]; auto.
Qed.

Lemma resolves_values digits c0 c v :
  resolves digits c0 c -> v ∈ List.map snd c ->
  v ∈ List.map snd c0 \/ v ∈ digits.
Proof.
  induction 1 as [|p0 p c0 c [Hk Hv] _ IH]; [simpl; by intros ?%elem_of_nil|]. simpl.
  intros [->|Hin]%elem_of_cons.
  - destruct Hv as [->|[_ Hv]]; [left; left|by right].
  - destruct (IH Hin); [left; by right|by right].
Qed.

Lemma resolves_keeps digits c0 c v :
  resolves digits c0 c -> v <> -1 -> v ∈ List.map snd c0 -> v ∈ List.map snd c.
Proof.
  induction 1 as [|p0 p c0 c [Hk Hv] _ IH]; [simpl; by intros ? ?%elem_of_nil|]. simpl.
  intros Hne [->|Hin]%elem_of_cons.
  - destruct Hv as [->|[? _]]; [left|done].
  - right. by apply IH.
Qed.

Lemma matchPass_resolves pm digits cleaned0 ds c :
  (forall d, d ∈ ds -> d ∈ digits) ->
  indexOrdered c -> resolves digits cleaned0 c ->
  let c' := fold_left (fun c digit => matchLoop pm digit (List.map fst c) c) ds c in
  indexOrdered c' /\ resolves digits cleaned0 c'.
Proof.
  revert c. induction ds as [|d ds IH]; intros c Hds Hs Hres; [done|]. simpl.
  pose proof (matchLoop_assigns pm d (List.map fst c) c Hs) as Ha.
  apply IH.
  - intros d' Hd'. apply Hds. by right.
  - eapply indexOrdered_same_keys; [by eapply assigns_keys|done].
  - eapply resolves_assigns; [|done..]. apply Hds. left.
Qed.

Lemma fallbackLoop_is_assigns digit keys c :
  indexOrdered c -> assigns digit c (fallbackLoop digit keys c).
Proof.
  intros Hs. destruct (fallbackLoop_assigns digit keys c Hs) as [[-> _]|H];
    [by left|by right].
Qed.

Lemma fallbackPass_resolves digits cleaned0 ds c :
  (forall d, d ∈ ds -> d ∈ digits) ->
  indexOrdered c -> resolves digits cleaned0 c ->
  let c' := fold_left (fun c digit =>
                         if bool_decide (digit ∈ List.map snd c) then c
                         else fallbackLoop digit (List.map fst c) c) ds c in
  indexOrdered c' /\ resolves digits cleaned0 c'.
Proof.
  revert c. induction ds as [|d ds IH]; intros c Hds Hs Hres; [done|]. simpl.
  assert (forall d', d' ∈ ds -> d' ∈ digits) as Hds' by (intros; apply Hds; by right).
  destruct (bool_decide (d ∈ List.map snd c)); [by apply IH|].
  pose proof (fallbackLoop_is_assigns d (List.map fst c) c Hs) as Ha.
  apply IH; [done| |].
  - eapply indexOrdered_same_keys; [by eapply assigns_keys|done].
  - eapply resolves_assigns; [|done..]. apply Hds. left.
Qed.

Lemma markFaulty_keys digitMap :
  List.map fst (List.map markFaulty digitMap) = List.map fst digitMap.
Proof. induction digitMap as [|[k v] l IH]; [done|]. simpl. by rewrite IH. Qed.

Lemma markFaulty_present digitMap :
  List.filter (fun v => negb (v =? -1)) (List.map snd (List.map markFaulty digitMap))
  = validReadings digitMap.
Proof.
  unfold validReadings. induction digitMap as [|[k v] l IH]; [done|]. simpl.
  destruct (isValidDigit v) eqn:E; simpl; rewrite IH; [|done].
  destruct (v =? -1) eqn:E1; [|done].
  apply Z.eqb_eq in E1 as ->. done.
Qed.

Lemma getIndex_markFaulty key digitMap :
  getIndex key (List.map markFaulty digitMap)
  = (fun v => if isValidDigit v then v else -1) <$> getIndex key digitMap.
Proof.
  induction digitMap as [|[k v] l IH]; [done|]. simpl.
  unfold markFaulty at 1. simpl. rewrite !getIndex_cons.
  by destruct (k =? key)%N.
Qed.

Lemma missingDigits_spec cleaned d :
  d ∈ missingDigitsOf cleaned
  <-> isValidDigit d = true
      /\ d ∉ List.filter (fun v => negb (v =? -1)) (List.map snd cleaned).
Proof.
  unfold missingDigitsOf. rewrite list_elem_of_In, filter_In, <- list_elem_of_In.
  rewrite elem_of_seqZ, negb_true_iff, bool_decide_eq_false.
  unfold isValidDigit. rewrite andb_true_iff, Z.leb_le, Z.leb_le.
  split; intros [H1 H2]; (split; [lia|done]).
Qed.

(** What [cleanDigitMap] returns, as a resolution of the marked readings
    by missing digits. *)
Lemma cleanDigitMap_resolves digitMap :
  indexOrdered digitMap ->
  let cleaned0 := List.map markFaulty digitMap in
  indexOrdered (cleanDigitMap digitMap)
  /\ resolves (missingDigitsOf cleaned0) cleaned0 (cleanDigitMap digitMap).
Proof.
  intros Hs cleaned0. unfold cleanDigitMap.
  pose proof (firstPass_cleaned digitMap Hs) as Hfst.
  destruct (fold_left firstPassStep digitMap ([], [])) as [c0 pm]. simpl in Hfst.
  subst c0. fold cleaned0.
  assert (indexOrdered cleaned0) as Hs0.
  { eapply indexOrdered_same_keys; [apply markFaulty_keys|done]. }
  destruct (matchPass_resolves pm (missingDigitsOf cleaned0) cleaned0
              (missingDigitsOf cleaned0) cleaned0) as [Hs1 Hr1];
    [done|done|apply resolves_refl|].
  by apply fallbackPass_resolves.
Qed.

(** X7. [cleanDigitMap] keeps the buttons and every valid reading: the
    result has the keys of the input, a reading in 0..9 stays on its
    button, and a faulty reading becomes [-1] or a digit that no valid
    reading shows. *)
Theorem cleanDigitMap_keeps_valid_readings (digitMap : list (N * Z)) :
  indexOrdered digitMap ->
  let cleaned := cleanDigitMap digitMap in
  List.map fst cleaned = List.map fst digitMap
  /\ (forall key value,
        getIndex key digitMap = Some value -> isValidDigit value = true ->
        getIndex key cleaned = Some value)
  /\ (forall key value,
        getIndex key digitMap = Some value -> isValidDigit value = false ->
        exists digit,
          getIndex key cleaned = Some digit
          /\ (digit = -1
              \/ (isValidDigit digit = true /\ digit ∉ validReadings digitMap))).
Proof.
  intros Hs cleaned.
  destruct (cleanDigitMap_resolves digitMap Hs) as [Hs' Hres]. fold cleaned in Hres.
  split_and!.
  - rewrite (resolves_keys _ _ _ Hres). apply markFaulty_keys.
  - intros key value Hget Hvalid.
    destruct (resolves_getIndex _ _ _ key value Hres) as (v & Hv & Hcase).
    { by rewrite getIndex_markFaulty, Hget; simpl; rewrite Hvalid. }
    destruct Hcase as [->|[-> _]]; [done|]. done.
  - intros key value Hget Hfaulty.
    destruct (resolves_getIndex _ _ _ key (-1) Hres) as (v & Hv & Hcase).
    { by rewrite getIndex_markFaulty, Hget; simpl; rewrite Hfaulty. }
    exists v. split; [done|]. destruct Hcase as [->|[_ Hmissing]]; [by left|right].
    apply missingDigits_spec in Hmissing. by rewrite markFaulty_present in Hmissing.
Qed.

Lemma distinctDigits_assigns digit c c' :
  distinctDigits c -> isValidDigit digit = true -> digit ∉ List.map snd c ->
  assigns digit c c' ->
  distinctDigits c'
  /\ (forall x, x ∈ List.map snd c' -> x = digit \/ x ∈ List.map snd c)
  /\ (forall x, x <> -1 -> x ∈ List.map snd c -> x ∈ List.map snd c').
Proof.
  intros [Hall Hnd] Hvalid Hnotin [->|(l1 & k & l2 & -> & ->)].
  { split_and!; [done|by right|done]. }
  assert (negb (digit =? -1) = true) as Hd.
  { apply negb_true_iff, Z.eqb_neq. intros ->. done. }
  unfold distinctDigits.
  rewrite !map_app in *. cbn [List.map snd] in *.
  rewrite !List.filter_app in *. cbn [List.filter] in *.
  rewrite Hd. change (negb (-1 =? -1)) with false in Hnd. cbn iota in Hnd.
  set (v1 := List.map snd l1) in *. set (v2 := List.map snd l2) in *.
  split; [split|split].
  - apply Forall_app in Hall as [H1 H2]. apply Forall_cons in H2 as [_ H2].
    apply Forall_app. split; [done|]. constructor; [by right|done].
  - apply NoDup_app in Hnd as (N1 & N2 & N3).
    apply NoDup_app. split_and!; [done| |].
    + intros x Hx [->|Hx']%elem_of_cons; [|by eapply N2].
      apply Hnotin. apply elem_of_app. left.
      apply list_elem_of_In, filter_In in Hx as [Hx _]. by apply list_elem_of_In.
    + constructor; [|done]. intros Hx. apply Hnotin. apply elem_of_app. right. right.
      apply list_elem_of_In, filter_In in Hx as [Hx _]. by apply list_elem_of_In.
  - intros x [Hx|[->|Hx]%elem_of_cons]%elem_of_app; [right|by left|right];
      apply elem_of_app; [by left|right; by right].
  - intros x Hne [Hx|[->|Hx]%elem_of_cons]%elem_of_app; [|done|];
      apply elem_of_app; [by left|right; by right].
Qed.

Lemma NoDup_List_filter {A} (f : A -> bool) (l : list A) :
  NoDup l -> NoDup (List.filter f l).
Proof.
  induction 1 as [|x l Hx Hl IH]; simpl; [constructor|].
  destruct (f x); [|done]. constructor; [|done].
  intros Hin. apply Hx. apply list_elem_of_In, filter_In in Hin as [Hin _].
  by apply list_elem_of_In.
Qed.

Lemma matchPass_distinct pm ds c :
  NoDup ds -> Forall (fun d => isValidDigit d = true) ds ->
  (forall d, d ∈ ds -> d ∉ List.map snd c) ->
  indexOrdered c -> distinctDigits c ->
  let c' := fold_left (fun c digit => matchLoop pm digit (List.map fst c) c) ds c in
  distinctDigits c'
  /\ (forall x, x <> -1 -> x ∈ List.map snd c -> x ∈ List.map snd c').
Proof.
  revert c. induction ds as [|d ds IH]; intros c Hnd Hvalid Hnotin Hs Hdist; [done|].
  simpl. apply NoDup_cons in Hnd as [Hd Hnd]. apply Forall_cons in Hvalid as [Hv Hvalid].
  pose proof (matchLoop_assigns pm d (List.map fst c) c Hs) as Ha.
  destruct (distinctDigits_assigns d c _ Hdist Hv (Hnotin d ltac:(left)) Ha)
    as (Hdist1 & Hsub & Hkeep).
  destruct (IH (matchLoop pm d (List.map fst c) c)) as [H1 H2]; [done|done| | |done|].
  - intros d' Hd' Hin. apply Hsub in Hin as [->|Hin]; [done|].
    by apply (Hnotin d' ltac:(by right)).
  - eapply indexOrdered_same_keys; [by eapply assigns_keys|done].
  - split; [done|]. intros x Hne Hx. by apply H2, Hkeep.
Qed.

(** Ten buttons, distinct digits, and a digit that shows nowhere: some
    button is unresolved. *)
Lemma unresolved_exists c d :
  distinctDigits c -> length c = 10%nat -> isValidDigit d = true ->
  d ∉ List.map snd c -> -1 ∈ List.map snd c.
Proof.
  intros [Hall Hnd] Hlen Hvalid Hnotin.
  destruct (decide (-1 ∈ List.map snd c)) as [|Hno]; [done|exfalso].
  assert (List.filter (fun v => negb (v =? -1)) (List.map snd c) = List.map snd c) as Hf.
  { clear -Hno. induction (List.map snd c) as [|x l IH]; [done|]. simpl.
    destruct (x =? -1) eqn:E.
    - apply Z.eqb_eq in E as ->. exfalso. apply Hno. left.
    - simpl. rewrite IH; [done|]. intros H. apply Hno. by right. }
  rewrite Hf in Hnd.
  assert (List.map snd c ⊆+ List.filter (fun x => negb (x =? d)) (seqZ 0 10)) as Hsub.
  { apply NoDup_submseteq; [done|]. intros x Hx.
    apply list_elem_of_In, filter_In. split.
    - apply list_elem_of_In, elem_of_seqZ.
      rewrite List.Forall_forall in Hall. pose proof Hx as Hx'.
      apply list_elem_of_In, Hall in Hx'.
      destruct Hx' as [->|Hx']; [done|].
      unfold isValidDigit in Hx'. apply andb_true_iff in Hx' as [H1 H2].
      apply Z.leb_le in H1, H2. lia.
    - apply negb_true_iff, Z.eqb_neq. intros ->. done. }
  apply submseteq_length in Hsub. rewrite length_map, Hlen in Hsub.
  unfold isValidDigit in Hvalid. apply andb_true_iff in Hvalid as [H1 H2].
  apply Z.leb_le in H1, H2.
  assert (d = 0 \/ d = 1 \/ d = 2 \/ d = 3 \/ d = 4 \/ d = 5 \/ d = 6 \/ d = 7
          \/ d = 8 \/ d = 9) as Hd by lia.
  repeat (destruct Hd as [->|Hd]; [vm_compute in Hsub; lia|]).
  subst d. vm_compute in Hsub. lia.
Qed.

Lemma fallbackPass_distinct ds c :
  Forall (fun d => isValidDigit d = true) ds ->
  indexOrdered c -> distinctDigits c -> length c = 10%nat ->
  let c' := fold_left (fun c digit =>
                         if bool_decide (digit ∈ List.map snd c) then c
                         else fallbackLoop digit (List.map fst c) c) ds c in
  distinctDigits c'
  /\ (forall x, x <> -1 -> x ∈ List.map snd c -> x ∈ List.map snd c')
  /\ (forall d, d ∈ ds -> d ∈ List.map snd c').
Proof.
  revert c. induction ds as [|d ds IH]; intros c Hvalid Hs Hdist Hlen.
  { split_and!; [done|done|]. by intros d ?%elem_of_nil. }
  simpl. apply Forall_cons in Hvalid as [Hv Hvalid].
  assert (d <> -1) as Hne by (intros ->; done).
  destruct (bool_decide (d ∈ List.map snd c)) eqn:E.
  - apply bool_decide_eq_true in E.
    destruct (IH c Hvalid Hs Hdist Hlen) as (H1 & H2 & H3).
    split_and!; [done|done|]. intros d' [->|Hd']%elem_of_cons; [by apply H2|by apply H3].
  - apply bool_decide_eq_false in E.
    destruct (fallbackLoop_assigns d (List.map fst c) c Hs) as [[_ Hnone]|Hassign].
    { exfalso. pose proof (unresolved_exists c d Hdist Hlen Hv E) as Hin.
      apply list_elem_of_In, in_map_iff in Hin as ([k v] & Hv' & Hin). simpl in Hv'. subst v.
      rewrite List.Forall_forall in Hnone. apply (Hnone k).
      - apply in_map_iff. by exists (k, -1).
      - apply getIndex_elem_of; [done|by apply list_elem_of_In]. }
    destruct Hassign as (l1 & k & l2 & Hc & Hc').
    assert (assigns d c (fallbackLoop d (List.map fst c) c)) as Ha.
    { right. by exists l1, k, l2. }
    destruct (distinctDigits_assigns d c _ Hdist Hv E Ha) as (Hdist1 & Hsub & Hkeep).
    destruct (IH (fallbackLoop d (List.map fst c) c)) as (H1 & H2 & H3); [done| |done| |].
    + eapply indexOrdered_same_keys; [by eapply assigns_keys|done].
    + rewrite Hc'. rewrite Hc in Hlen. by rewrite length_app in *.
    + split_and!; [done| |].
      * intros x Hx Hin. by apply H2, Hkeep.
      * intros d' [->|Hd']%elem_of_cons; [|by apply H3].
        apply H2; [done|]. rewrite Hc', map_app. apply elem_of_app. right. left.
Qed.

Lemma cleanDigitMap_permutation (digitMap : list (N * Z)) :
  indexOrdered digitMap ->
  length digitMap = 10%nat ->
  NoDup (validReadings digitMap) ->
  List.map snd (cleanDigitMap digitMap) ≡ₚ seqZ 0 10.
Proof.
  intros Hs Hlen Hnd.
  pose proof (cleanDigitMap_resolves digitMap Hs) as [_ Hres].
  unfold cleanDigitMap in *.
  pose proof (firstPass_cleaned digitMap Hs) as Hfst.
  destruct (fold_left firstPassStep digitMap ([], [])) as [c0 pm]. simpl in Hfst.
  subst c0. set (cleaned0 := List.map markFaulty digitMap) in *.
  set (missing := missingDigitsOf cleaned0) in *.
  assert (indexOrdered cleaned0) as Hs0.
  { eapply indexOrdered_same_keys; [apply markFaulty_keys|done]. }
  assert (distinctDigits cleaned0) as Hdist0.
  { split.
    - unfold cleaned0. clear. induction digitMap as [|[k v] l IH]; [constructor|].
      simpl. constructor; [|done]. unfold markFaulty. simpl.
      destruct (isValidDigit v) eqn:E; [by right|by left].
    - unfold cleaned0. by rewrite markFaulty_present. }
  assert (Forall (fun d => isValidDigit d = true) missing) as Hvalid.
  { apply List.Forall_forall. intros d Hd%list_elem_of_In.
    by apply missingDigits_spec in Hd as [? _]. }
  assert (forall d, d ∈ missing -> d ∉ List.map snd cleaned0) as Hnotin.
  { intros d Hd Hin. pose proof Hd as Hd'. apply missingDigits_spec in Hd as [Hv Hd].
    apply Hd. apply list_elem_of_In, filter_In. split; [by apply list_elem_of_In|].
    apply negb_true_iff, Z.eqb_neq. intros ->. done. }
  assert (NoDup missing) as Hndm.
  { unfold missing, missingDigitsOf. apply NoDup_List_filter, NoDup_seqZ. }
  destruct (matchPass_distinct pm missing cleaned0 Hndm Hvalid Hnotin Hs0 Hdist0)
    as [Hdist1 Hkeep1].
  destruct (matchPass_resolves pm missing cleaned0 missing cleaned0) as [Hs1 Hr1];
    [done|done|apply resolves_refl|].
  set (matched := fold_left _ missing cleaned0) in *.
  assert (length matched = 10%nat) as Hlen1.
  { rewrite <- (length_map fst), (resolves_keys _ _ _ Hr1). unfold cleaned0.
    by rewrite markFaulty_keys, length_map. }
  destruct (fallbackPass_distinct missing matched Hvalid Hs1 Hdist1 Hlen1)
    as (Hdist2 & Hkeep2 & Hall2).
  set (final := fold_left _ missing matched) in *.
  symmetry. apply submseteq_length_Permutation.
  - apply NoDup_submseteq; [apply NoDup_seqZ|]. intros d Hd.
    destruct (decide (d ∈ missing)) as [Hm|Hm]; [by apply Hall2|].
    apply elem_of_seqZ in Hd.
    assert (isValidDigit d = true) as Hv.
    { unfold isValidDigit. apply andb_true_iff. rewrite !Z.leb_le. lia. }
    assert (d <> -1) as Hne by lia.
    apply Hkeep2, Hkeep1; [done..|].
    destruct (decide (d ∈ List.filter (fun v => negb (v =? -1)) (List.map snd cleaned0)))
      as [Hin|Hout].
    + apply list_elem_of_In, filter_In in Hin as [Hin _]. by apply list_elem_of_In.
    + exfalso. apply Hm. by apply missingDigits_spec.
  - rewrite length_seqZ, length_map.
    rewrite <- (length_map fst), (resolves_keys _ _ _ Hres). unfold cleaned0.
    rewrite markFaulty_keys, length_map, Hlen. done.
Qed.

(** X8. Ten buttons whose valid readings are pairwise distinct: after
    [cleanDigitMap] every digit 0..9 shows on exactly one button. *)
Theorem cleanDigitMap_bijection (digitMap : list (N * Z)) :
  indexOrdered digitMap ->
  length digitMap = 10%nat ->
  NoDup (validReadings digitMap) ->
  List.map snd (cleanDigitMap digitMap) ≡ₚ seqZ 0 10.
Proof. apply cleanDigitMap_permutation. Qed.

(* ===================================================================== *)
(** ** ocr.ts and login.ts: reading and typing digits *)
(* ===================================================================== *)

Lemma digitsValue_nonneg_from acc s :
  0 <= acc -> Forall (fun c => isDigit c = true) s ->
  0 <= fold_left (fun acc c => 10 * acc + (Z.of_N c - 48)) s acc.
Proof.
  revert acc. induction s as [|c s IH]; intros acc Hacc Hs; [done|].
  apply Forall_cons in Hs as [Hc Hs]. simpl. apply IH; [|done].
  unfold isDigit in Hc. apply andb_true_iff in Hc as [H1 H2].
  apply N.leb_le in H1, H2. lia.
Qed.

Lemma cleanOCRText_digits text : Forall (fun c => isDigit c = true) (cleanOCRText text).
Proof.
  unfold cleanOCRText. apply List.Forall_forall. intros c Hc.
  by apply filter_In in Hc as [_ Hc].
Qed.

Lemma cleanOCRText_nil text :
  cleanOCRText text = [] <-> Forall (fun c => isDigitLike c = false) text.
Proof.
  unfold cleanOCRText. induction text as [|c text IH]; [done|]. simpl.
  rewrite Forall_cons. rewrite <- IH. clear IH.
  unfold isDigitLike, isDigit.
  destruct (c =? 79)%N eqn:E1; [apply N.eqb_eq in E1 as ->; simpl; split; [done|by intros [? _]]|].
  destruct (c =? 111)%N eqn:E2; [apply N.eqb_eq in E2 as ->; simpl; split; [done|by intros [? _]]|].
  simpl.
  destruct (c =? 108)%N eqn:E3; [apply N.eqb_eq in E3 as ->; simpl; split; [done|by intros [? _]]|].
  destruct (c =? 73)%N eqn:E4; [apply N.eqb_eq in E4 as ->; simpl; split; [done|by intros [? _]]|].
  simpl. rewrite !orb_false_r.
  destruct ((48 <=? c)%N && (c <=? 57)%N); simpl;
    (split; [try done; intros H; by split|by intros [? ?]]).
Qed.

(** X9. [recognizeDigit] fails exactly when the OCR text holds no digit
    and none of the letters it reads as digits ([O o l I]); the error
    quotes the text. Otherwise it returns a number that is not negative. *)
Theorem recognizeDigit_needs_a_digit (text : list N) :
  (Forall (fun c => isDigitLike c = false) text ->
   recognizeDigit text = Throw (Error (ocrErrorMessage text)))
  /\ (Exists (fun c => isDigitLike c = true) text ->
      exists digit, recognizeDigit text = Ok digit /\ 0 <= digit).
Proof.
  unfold recognizeDigit, parseInt10. split.
  - intros H. apply cleanOCRText_nil in H. by rewrite H.
  - intros H. destruct (cleanOCRText text) as [|c s] eqn:E.
    + apply cleanOCRText_nil in E. apply Exists_exists in H as (c & Hc & Hlike).
      rewrite List.Forall_forall in E. apply list_elem_of_In, E in Hc. congruence.
    + eexists. split; [done|]. unfold digitsValue.
      apply digitsValue_nonneg_from; [done|]. rewrite <- E. apply cleanOCRText_digits.
Qed.

Lemma indexOrdered_imap_from (readings : list Z) n :
  indexOrdered (imap (fun index digit => (N.of_nat (n + index), digit)) readings)
  /\ Forall (fun p => (N.of_nat n <= fst p)%N)
            (imap (fun index digit => (N.of_nat (n + index), digit)) readings).
Proof.
  revert n. induction readings as [|d l IH]; intros n.
  { split; [constructor|constructor]. }
  rewrite imap_cons.
  assert (imap ((fun index digit => (N.of_nat (n + index), digit)) ∘ S) l
          = imap (fun index digit => (N.of_nat (S n + index), digit)) l) as ->.
  { apply imap_ext. intros i x _. simpl. f_equal. lia. }
  destruct (IH (S n)) as [Hs Hge]. split.
  - unfold indexOrdered in *. simpl. constructor; [done|].
    rewrite List.Forall_map. eapply Forall_impl; [exact Hge|].
    intros p Hp. simpl in *. lia.
  - constructor; [simpl; lia|]. eapply Forall_impl; [exact Hge|].
    intros p Hp. simpl in *. lia.
Qed.

Lemma indexOrdered_imap (readings : list Z) :
  indexOrdered (imap (fun index digit => (N.of_nat index, digit)) readings).
Proof. apply (indexOrdered_imap_from readings 0). Qed.

Lemma digitMapOf_from (prefix suffix : list (N * Z)) :
  indexOrdered (prefix ++ suffix) ->
  fold_left (fun digitMap r => setIndex (fst r) (snd r) digitMap) suffix prefix
  = prefix ++ suffix.
Proof.
  revert prefix. induction suffix as [|[k v] suffix IH]; intros prefix Hs.
  { by rewrite app_nil_r. }
  simpl. rewrite setIndex_append.
  - rewrite IH; rewrite <- app_assoc; done.
  - unfold indexOrdered in Hs. rewrite map_app in Hs. simpl in Hs.
    apply List.Forall_forall. intros [k' v'] Hp. simpl.
    clear IH. induction prefix as [|[k0 v0] prefix IHp]; [done|].
    simpl in Hs. apply StronglySorted_inv in Hs as [Hs Hall].
    destruct Hp as [[= -> ->]|Hp]; [|by apply IHp].
    rewrite List.Forall_forall in Hall. apply Hall.
    apply in_or_app. right. by left.
Qed.

Lemma digitMapOf_ordered ocrResults :
  indexOrdered ocrResults -> digitMapOf ocrResults = ocrResults.
Proof. intros Hs. by apply (digitMapOf_from [] ocrResults). Qed.

Lemma imap_readings_values (readings : list Z) f :
  List.map snd (imap (fun index digit => (f index, digit) : N * Z) readings) = readings.
Proof.
  revert f. induction readings as [|d l IH]; intros f; [done|].
  rewrite imap_cons. simpl. f_equal. apply (IH (f ∘ S)).
Qed.

Lemma imap_readings_keys (readings : list Z) key :
  key ∈ List.map fst (imap (fun index digit => (N.of_nat index, digit)) readings) ->
  (N.to_nat key < length readings)%nat.
Proof.
  intros Hin. apply list_elem_of_In, in_map_iff in Hin as ([k v] & <- & Hin).
  apply list_elem_of_In, list_elem_of_lookup in Hin as [i Hi].
  rewrite list_lookup_imap in Hi.
  destruct (readings !! i) as [d|] eqn:E; [|done]. simpl in Hi. injection Hi as <- <-.
  apply lookup_lt_Some in E. simpl. lia.
Qed.

(** The keyboard of ten readings whose valid ones are distinct: ten
    buttons 0..9 that show the ten digits. *)
Lemma keyboardOf_bijection readings :
  length readings = 10%nat -> NoDup (List.filter isValidDigit readings) ->
  indexOrdered (keyboardOf readings)
  /\ List.map snd (keyboardOf readings) ≡ₚ seqZ 0 10
  /\ (forall key, key ∈ List.map fst (keyboardOf readings) ->
                  (N.to_nat key < 10)%nat).
Proof.
  intros Hlen Hnd. unfold keyboardOf.
  set (ocrResults := imap (fun index digit => (N.of_nat index, digit)) readings).
  assert (indexOrdered ocrResults) as Hs by apply indexOrdered_imap.
  rewrite (digitMapOf_ordered _ Hs).
  split_and!.
  - by apply cleanDigitMap_resolves.
  - apply cleanDigitMap_permutation; [done| |].
    + unfold ocrResults. by rewrite length_imap.
    + unfold validReadings, ocrResults. by rewrite imap_readings_values.
  - intros key Hkey.
    destruct (cleanDigitMap_resolves _ Hs) as [_ Hres].
    rewrite (resolves_keys _ _ _ Hres), markFaulty_keys in Hkey.
    apply imap_readings_keys in Hkey. lia.
Qed.

Lemma find_digit (digitMap : list (N * Z)) d :
  d ∈ List.map snd digitMap ->
  exists key,
    List.find (fun p => bool_decide (Some (snd p) = Some d)) digitMap = Some (key, d).
Proof.
  induction digitMap as [|[k v] l IH]; simpl; [by intros ?%elem_of_nil|].
  destruct (bool_decide (Some v = Some d)) eqn:E.
  - apply bool_decide_eq_true in E. injection E as ->. by exists k.
  - apply bool_decide_eq_false in E. intros [->|Hin]%elem_of_cons; [done|by apply IH].
Qed.

Lemma parseIntChar_digit c :
  isDigit c = true ->
  exists d, parseIntChar c = Some d /\ isValidDigit d = true.
Proof.
  intros H. unfold parseIntChar. rewrite H. eexists. split; [done|].
  unfold isDigit in H. apply andb_true_iff in H as [H1 H2]. apply N.leb_le in H1, H2.
  unfold isValidDigit. apply andb_true_iff. rewrite !Z.leb_le. lia.
Qed.

Lemma clickLoop_digits digitMap buttons password clicks :
  indexOrdered digitMap ->
  (forall d, isValidDigit d = true -> d ∈ List.map snd digitMap) ->
  (forall key, key ∈ List.map fst digitMap -> (N.to_nat key < buttons)%nat) ->
  Forall (fun c => isDigit c = true) password ->
  exists typed,
    clickLoop digitMap buttons password clicks = (Ok tt, clicks ++ typed)
    /\ Forall2 (fun index char => getIndex index digitMap = parseIntChar char)
               typed password.
Proof.
  intros Hs Hall Hkeys. revert clicks.
  induction password as [|c password IH]; intros clicks Hpw.
  { exists []. by rewrite app_nil_r. }
  apply Forall_cons in Hpw as [Hc Hpw]. simpl.
  destruct (parseIntChar_digit c Hc) as (d & Hd & Hvalid). rewrite Hd.
  destruct (find_digit digitMap d (Hall d Hvalid)) as [key Hfind]. rewrite Hfind.
  apply find_some in Hfind as [Hin _].
  assert ((N.to_nat key <? buttons)%nat = true) as ->.
  { apply Nat.ltb_lt, Hkeys. apply list_elem_of_In, in_map_iff. by exists (key, d). }
  destruct (IH (clicks ++ [key]) Hpw) as (typed & Hrun & Htyped).
  exists (key :: typed). rewrite Hrun, <- app_assoc. split; [done|].
  constructor; [|done]. rewrite Hd. apply getIndex_elem_of; [done|by apply list_elem_of_In].
Qed.

Lemma clickLoop_app digitMap buttons typed rest clicks clicks' :
  clickLoop digitMap buttons typed clicks = (Ok tt, clicks') ->
  clickLoop digitMap buttons (typed ++ rest) clicks
  = clickLoop digitMap buttons rest clicks'.
Proof.
  revert clicks. induction typed as [|c typed IH]; intros clicks; simpl.
  { by intros [= ->]. }
  destruct (List.find _ digitMap) as [[index v]|]; [|done].
  destruct (N.to_nat index <? buttons)%nat; [|done]. apply IH.
Qed.

Lemma inputPassword_run_digits (readings : list Z) (password : list N) :
  length readings = 10%nat ->
  NoDup (List.filter isValidDigit readings) ->
  Forall (fun c => isDigit c = true) password ->
  exists clicks,
    inputPassword readings password = (Ok tt, clicks)
    /\ Forall2 (fun index char =>
                  getIndex index (keyboardOf readings) = parseIntChar char)
               clicks password.
Proof.
  intros Hlen Hnd Hpw. unfold inputPassword. rewrite Hlen. simpl.
  fold (keyboardOf readings).
  destruct (keyboardOf_bijection readings Hlen Hnd) as (Hs & Hperm & Hkeys).
  destruct (clickLoop_digits (keyboardOf readings) 10 password [] Hs) as (typed & Hrun & Ht);
    [|done|done|by exists typed].
  intros d Hd. rewrite Hperm. apply elem_of_seqZ.
  unfold isValidDigit in Hd. apply andb_true_iff in Hd as [H1 H2].
  apply Z.leb_le in H1, H2. lia.
Qed.

(** X10. With ten buttons whose valid readings are pairwise distinct,
    [inputPassword] types every password of digits in full: one click
    for each character, on the button that shows its digit. *)
Theorem inputPassword_types_digits (readings : list Z) (password : list N) :
  length readings = 10%nat ->
  NoDup (List.filter isValidDigit readings) ->
  Forall (fun c => isDigit c = true) password ->
  exists clicks,
    inputPassword readings password = (Ok tt, clicks)
    /\ Forall2 (fun index char =>
                  getIndex index (keyboardOf readings) = parseIntChar char)
               clicks password.
Proof. apply inputPassword_run_digits. Qed.

(** X11. A character that is no digit stops [inputPassword] with the
    error "Digit NaN not found on virtual keyboard", after the digits
    before it have been clicked. *)
Theorem inputPassword_stops_at_non_digit (readings : list Z)
    (typed : list N) (char : N) (rest : list N) :
  length readings = 10%nat ->
  NoDup (List.filter isValidDigit readings) ->
  Forall (fun c => isDigit c = true) typed ->
  isDigit char = false ->
  exists clicks,
    inputPassword readings (typed ++ char :: rest)
    = (Throw (Error (lit "Digit NaN not found on virtual keyboard")), clicks)
    /\ Forall2 (fun index c =>
                  getIndex index (keyboardOf readings) = parseIntChar c)
               clicks typed.
Proof.
  intros Hlen Hnd Hpw Hchar.
  destruct (inputPassword_run_digits readings typed Hlen Hnd Hpw) as (clicks & Hrun & Ht).
  exists clicks. split; [|done].
  unfold inputPassword in *. rewrite Hlen in *. simpl in *.
  rewrite (clickLoop_app _ _ _ _ _ _ Hrun). simpl.
  unfold parseIntChar. rewrite Hchar.
  destruct (List.find _ _) as [[index v]|] eqn:E; [|done].
  apply find_some in E as [_ E]. by apply bool_decide_eq_true in E.
Qed.

(* ===================================================================== *)
(** ** balances.ts and the account list of transactions.ts *)
(* ===================================================================== *)

Lemma inspects_run {A} (m : M A) w :
  inspects m -> exists r, m w = (r, w) /\ forall e, r = Throw e -> e = TypeError.
Proof. intros H. apply H. Qed.

Lemma inspects_M_filter {A} (f : A -> M bool) l :
  (forall x, inspects (f x)) -> inspects (M_filter f l).
Proof.
  intros Hf. induction l as [|x l IH]; [apply inspects_ret|]. simpl.
  apply inspects_bind; [done|]. intros keep.
  apply inspects_bind; [done|]. intros ys. apply inspects_ret.
Qed.

Lemma M_filter_ok {A} (f : A -> M bool) (g : A -> bool) l w :
  Forall (fun x => f x w = (Ok (g x), w)) l ->
  M_filter f l w = (Ok (List.filter g l), w).
Proof.
  induction 1 as [|x l Hx _ IH]; [done|]. simpl.
  rewrite (bind_ok _ _ _ _ _ Hx). rewrite (bind_ok _ _ _ _ _ IH).
  by destruct (g x).
Qed.

Lemma M_filter_inv {A} (f : A -> M bool) l w kept w' :
  (forall x, inspects (f x)) ->
  M_filter f l w = (Ok kept, w') ->
  w' = w
  /\ Forall (fun x => exists b, f x w = (Ok b, w)) l
  /\ Forall (fun x => f x w = (Ok true, w)) kept.
Proof.
  intros Hf. revert kept w'. induction l as [|x l IH]; intros kept w'; simpl.
  { intros [= <- <-]. by split_and!. }
  intros H. apply bind_inv_ok in H as (keep & w1 & Hx & H).
  apply bind_inv_ok in H as (ys & w2 & Hys & H).
  destruct (inspects_run (f x) w (Hf x)) as (r & Hr & _).
  rewrite Hr in Hx. injection Hx as -> <-.
  destruct (IH ys w2 Hys) as (-> & Hall & Hkept).
  injection H as <- <-. split_and!; [done| |].
  - constructor; [by exists keep|done].
  - destruct keep; [by constructor|done].
Qed.

Lemma M_map_inv {A B} (f : A -> M B) l w r w' :
  (forall x, inspects (f x)) ->
  M_map f l w = (Ok r, w') ->
  w' = w /\ Forall2 (fun x y => f x w = (Ok y, w)) l r.
Proof.
  intros Hf. revert r w'. induction l as [|x l IH]; intros r w'; simpl.
  { intros [= <- <-]. by split. }
  intros H. apply bind_inv_ok in H as (y & w1 & Hx & H).
  apply bind_inv_ok in H as (ys & w2 & Hys & H).
  destruct (inspects_run (f x) w (Hf x)) as (r0 & Hr & _).
  rewrite Hr in Hx. injection Hx as -> <-.
  destruct (IH ys w2 Hys) as (-> & Hall).
  injection H as <- <-. split; [done|]. by constructor.
Qed.

Lemma itemsOf_run apiData w :
  itemsOf apiData w
  = match apiItems apiData with
    | Some items => (Ok items, w)
    | None => (Throw TypeError, w)
    end.
Proof.
  unfold itemsOf, apiItems, arrayOf.
  by destruct (or_else (prop apiData "items") (JArray [])).
Qed.

Lemma inspects_itemsOf apiData : inspects (itemsOf apiData).
Proof. apply inspects_arrayOf. Qed.

Lemma inspects_hasContractPfmId item : inspects (hasContractPfmId item).
Proof.
  apply inspects_bind; [apply inspects_strictProp|]. intros. apply inspects_ret.
Qed.

Lemma inspects_accountLabel item : inspects (accountLabel item).
Proof.
  apply inspects_bind; [apply inspects_strictProp|]. intros identity. cbv zeta.
  destruct (truthy (prop identity "contractLabel")); [apply inspects_ret|].
  apply inspects_bind; [apply inspects_strictProp|]. intros.
  apply inspects_bind; [apply inspects_strictProp|]. intros. apply inspects_ret.
Qed.

Lemma isNullish_prop_defined v k : prop v k <> JUndefined -> isNullish v = false.
Proof. by destruct v. Qed.

Lemma truthy_not_nullish v : truthy v = true -> isNullish v = false.
Proof. by destruct v. Qed.

Lemma hasContractPfmId_run item w :
  isNullish item = false ->
  hasContractPfmId item w = (Ok (truthy (contractPfmIdOf item)), w).
Proof.
  intros H. unfold hasContractPfmId.
  by rewrite (bind_ok _ _ _ _ _ (strictProp_ok item "identification" w H)).
Qed.

Lemma hasContractPfmId_true item w :
  hasContractPfmId item w = (Ok true, w) ->
  isNullish item = false /\ truthy (contractPfmIdOf item) = true.
Proof.
  intros H. apply bind_inv_ok in H as (identification & w1 & H1 & H2).
  apply strictProp_inv in H1 as (Hitem & -> & ->).
  injection H2 as H2. by split.
Qed.

Lemma hasBalance_run item w :
  isNullish item = false ->
  hasBalance item w = (Ok (negb (isNull (balanceOf item))), w).
Proof.
  intros H. unfold hasBalance.
  by rewrite (bind_ok _ _ _ _ _ (strictProp_ok item "identity" w H)).
Qed.

Lemma inspects_hasBalance item : inspects (hasBalance item).
Proof.
  apply inspects_bind; [apply inspects_strictProp|]. intros. apply inspects_ret.
Qed.

Lemma inspects_balanceEntry item : inspects (balanceEntry item).
Proof.
  repeat (apply inspects_bind; [apply inspects_strictProp|]; intros).
  apply inspects_ret.
Qed.

Lemma balanceEntry_run item w :
  isNullish item = false -> isNullish (balanceOf item) = false ->
  balanceEntry item w = (Ok (toBalance item), w).
Proof.
  intros Hitem Hbal. unfold balanceEntry.
  rewrite (bind_ok _ _ _ _ _ (strictProp_ok item "identity" w Hitem)).
  assert (isNullish (prop item "identity") = false) as Hid.
  { apply (isNullish_prop_defined _ "balance"). fold (balanceOf item).
    intros E. by rewrite E in Hbal. }
  rewrite (bind_ok _ _ _ _ _ (strictProp_ok _ "contractLabel" w Hid)).
  rewrite (bind_ok _ _ _ _ _ (strictProp_ok _ "balance" w Hid)).
  fold (balanceOf item).
  by rewrite (bind_ok _ _ _ _ _ (strictProp_ok _ "value" w Hbal)).
Qed.

Lemma balanceEntry_inv item w y w' :
  balanceEntry item w = (Ok y, w') -> isNullish (balanceOf item) = false.
Proof.
  intros H. apply bind_inv_ok in H as (identity & w1 & H1 & H).
  apply strictProp_inv in H1 as (_ & -> & ->).
  apply bind_inv_ok in H as (account & w2 & H2 & H).
  apply strictProp_inv in H2 as (_ & -> & ->).
  apply bind_inv_ok in H as (balance & w3 & H3 & H).
  apply strictProp_inv in H3 as (_ & -> & ->).
  apply bind_inv_ok in H as (value & w4 & H4 & H).
  by apply strictProp_inv in H4 as (? & _ & _).
Qed.

Lemma hasBalance_inv item w b w' :
  hasBalance item w = (Ok b, w') -> isNullish item = false.
Proof.
  intros H. apply bind_inv_ok in H as (identity & w1 & H1 & H).
  by apply strictProp_inv in H1 as (? & _ & _).
Qed.

Lemma inspects_extractBalances apiData : inspects (extractBalances apiData).
Proof.
  apply inspects_bind; [apply inspects_itemsOf|]. intros items.
  apply inspects_bind; [apply inspects_M_filter, inspects_hasBalance|]. intros kept.
  apply inspects_M_map, inspects_balanceEntry.
Qed.

Lemma extractBalances_readable apiData items w :
  apiItems apiData = Some items ->
  Forall readableBalance items ->
  extractBalances apiData w
  = (Ok (List.map toBalance
           (List.filter (fun item => negb (isNull (balanceOf item))) items)), w).
Proof.
  intros Hitems Hall. unfold extractBalances.
  assert (itemsOf apiData w = (Ok items, w)) as H1 by by rewrite itemsOf_run, Hitems.
  rewrite (bind_ok _ _ _ _ _ H1).
  assert (M_filter hasBalance items w
          = (Ok (List.filter (fun item => negb (isNull (balanceOf item))) items), w))
    as H2.
  { apply M_filter_ok. eapply Forall_impl; [exact Hall|].
    intros item [Hitem _]. by apply hasBalance_run. }
  rewrite (bind_ok _ _ _ _ _ H2).
  apply M_map_ok. apply List.Forall_forall. intros item [Hin Hkept]%filter_In.
  rewrite List.Forall_forall in Hall. destruct (Hall item Hin) as [Hitem Hbal].
  apply balanceEntry_run; [done|]. by destruct (balanceOf item).
Qed.

Lemma extractBalances_unreadable apiData items w :
  apiItems apiData = Some items ->
  Exists (fun item => ~ readableBalance item) items ->
  extractBalances apiData w = (Throw TypeError, w).
Proof.
  intros Hitems Hbad.
  destruct (inspects_run _ w (inspects_extractBalances apiData)) as (r & Hr & He).
  rewrite Hr. destruct r as [balances|e]; [exfalso|by rewrite (He e)].
  unfold extractBalances in Hr.
  apply bind_inv_ok in Hr as (items' & w1 & H1 & Hr).
  rewrite itemsOf_run, Hitems in H1. injection H1 as <- <-.
  apply bind_inv_ok in Hr as (kept & w2 & H2 & Hr).
  pose proof (M_filter_inv _ _ _ _ _ inspects_hasBalance H2) as (-> & Hall & _).
  assert (Forall (fun item => isNullish item = false) items) as Hthere.
  { eapply Forall_impl; [exact Hall|]. intros item [b Hb]. by eapply hasBalance_inv. }
  rewrite (M_filter_ok hasBalance (fun item => negb (isNull (balanceOf item))) items w)
    in H2.
  2:{ eapply Forall_impl; [exact Hthere|]. intros item Hitem. by apply hasBalance_run. }
  injection H2 as <-.
  apply (M_map_inv _ _ _ _ _ inspects_balanceEntry) in Hr as [_ Hmap].
  apply Exists_exists in Hbad as (item & Hin & Hbad). apply Hbad.
  rewrite List.Forall_forall in Hthere. apply list_elem_of_In in Hin.
  split; [by apply Hthere|]. intros Hundef.
  assert (In item (List.filter (fun item => negb (isNull (balanceOf item))) items)) as Hk.
  { apply filter_In. split; [done|]. by rewrite Hundef. }
  apply list_elem_of_In, list_elem_of_lookup in Hk as [i Hi].
  destruct (Forall2_lookup_l _ _ _ _ _ Hmap Hi) as (y & _ & Hy).
  apply balanceEntry_inv in Hy. by rewrite Hundef in Hy.
Qed.

(** X12. [extractBalances] reads an item when it has an identity with a
    [balance] property: the result lists, in order, the items whose
    balance is not [null]. An item without that property (or a [null]
    item) is not skipped: the extraction throws a [TypeError]. *)
Theorem extractBalances_spec (apiData : json) (items : list json) (w : World) :
  apiItems apiData = Some items ->
  (Forall readableBalance items ->
   extractBalances apiData w
   = (Ok (List.map toBalance
            (List.filter (fun item => negb (isNull (balanceOf item))) items)), w))
  /\ (Exists (fun item => ~ readableBalance item) items ->
      extractBalances apiData w = (Throw TypeError, w)).
Proof.
  intros Hitems. split;
    [by apply extractBalances_readable|by apply extractBalances_unreadable].
Qed.

Lemma accountLabel_run item w :
  isNullish item = false -> truthy (contractPfmIdOf item) = true ->
  accountLabel item w = (Ok (aa_accountName (toApiAccount item)), w).
Proof.
  intros Hitem Hid. unfold accountLabel, toApiAccount.
  rewrite (bind_ok _ _ _ _ _ (strictProp_ok item "identity" w Hitem)). cbv zeta.
  simpl. destruct (truthy (prop (prop item "identity") "contractLabel")); [done|].
  rewrite (bind_ok _ _ _ _ _ (strictProp_ok item "identification" w Hitem)).
  assert (isNullish (prop item "identification") = false) as Hn.
  { apply (isNullish_prop_defined _ "contractPfmId"). fold (contractPfmIdOf item).
    intros E. by rewrite E in Hid. }
  by rewrite (bind_ok _ _ _ _ _ (strictProp_ok _ "contractPfmId" w Hn)).
Qed.

Lemma accountEntry_run item w :
  isNullish item = false -> truthy (contractPfmIdOf item) = true ->
  accountEntry item w = (Ok (toApiAccount item), w).
Proof.
  intros Hitem Hid. unfold accountEntry.
  rewrite (bind_ok _ _ _ _ _ (strictProp_ok item "identification" w Hitem)).
  assert (isNullish (prop item "identification") = false) as Hn.
  { apply (isNullish_prop_defined _ "contractPfmId"). fold (contractPfmIdOf item).
    intros E. by rewrite E in Hid. }
  rewrite (bind_ok _ _ _ _ _ (strictProp_ok _ "contractPfmId" w Hn)).
  by rewrite (bind_ok _ _ _ _ _ (accountLabel_run item w Hitem Hid)).
Qed.

Lemma kept_accounts kept w :
  Forall (fun item => hasContractPfmId item w = (Ok true, w)) kept ->
  M_map accountEntry kept w = (Ok (List.map toApiAccount kept), w)
  /\ M_map accountLabel kept w
     = (Ok (List.map aa_accountName (List.map toApiAccount kept)), w).
Proof.
  intros Hkept. split; [|rewrite List.map_map]; apply M_map_ok;
    (eapply Forall_impl; [exact Hkept|]); intros item [Hitem Hid]%hasContractPfmId_true;
    [by apply accountEntry_run|by apply accountLabel_run].
Qed.

Lemma extractAccountNames_run apiData w :
  extractAccountNames apiData w
  = match extractAccountsFromApiData apiData w with
    | (Ok accounts, w') => (Ok (List.map aa_accountName accounts), w')
    | (Throw e, w') => (Throw e, w')
    end.
Proof.
  unfold extractAccountNames, extractAccountsFromApiData.
  destruct (itemsOf apiData w) as [[items|e] w1] eqn:H1.
  2:{ by rewrite !(bind_throw _ _ _ _ _ H1). }
  rewrite !(bind_ok _ _ _ _ _ H1).
  destruct (M_filter hasContractPfmId items w1) as [[kept|e] w2] eqn:H2.
  2:{ by rewrite !(bind_throw _ _ _ _ _ H2). }
  rewrite !(bind_ok _ _ _ _ _ H2).
  apply (M_filter_inv _ _ _ _ _ inspects_hasContractPfmId) in H2 as (-> & _ & Hkept).
  destruct (kept_accounts kept w1 Hkept) as [-> ->]. done.
Qed.

(** X13. The account names that [extractAccountNames] of [balances.ts]
    returns are the names of the accounts that
    [extractAccountsFromApiData] of [transactions.ts] returns, in the
    same order; the two fail on the same responses. *)
Theorem extractAccountNames_agrees (apiData : json) (w : World) :
  extractAccountNames apiData w
  = match extractAccountsFromApiData apiData w with
    | (Ok accounts, w') => (Ok (List.map aa_accountName accounts), w')
    | (Throw e, w') => (Throw e, w')
    end.
Proof. apply extractAccountNames_run. Qed.

Lemma extractAccounts_objects apiData items w :
  apiItems apiData = Some items ->
  Forall (fun item => isNullish item = false) items ->
  let accounts :=
    List.map toApiAccount
      (List.filter (fun item => truthy (contractPfmIdOf item)) items) in
  extractAccountsFromApiData apiData w = (Ok accounts, w)
  /\ Forall (fun a => truthy (aa_accountName a) = true) accounts.
Proof.
  intros Hitems Hall accounts. split.
  - unfold extractAccountsFromApiData.
    assert (itemsOf apiData w = (Ok items, w)) as H1 by by rewrite itemsOf_run, Hitems.
    rewrite (bind_ok _ _ _ _ _ H1).
    assert (M_filter hasContractPfmId items w
            = (Ok (List.filter (fun item => truthy (contractPfmIdOf item)) items), w))
      as H2.
    { apply M_filter_ok. eapply Forall_impl; [exact Hall|].
      intros item Hitem. by apply hasContractPfmId_run. }
    rewrite (bind_ok _ _ _ _ _ H2).
    apply kept_accounts. apply List.Forall_forall. intros item [Hin Hid]%filter_In.
    rewrite List.Forall_forall in Hall. rewrite hasContractPfmId_run by by apply Hall.
    by rewrite Hid.
  - apply List.Forall_forall. intros a (item & <- & _)%in_map_iff.
    unfold toApiAccount. simpl.
    by destruct (truthy (prop (prop item "identity") "contractLabel")) eqn:E.
Qed.

(** X14. On a response whose items are all there (none is [null]),
    [extractAccountsFromApiData] never throws: it returns one account for
    each item with a truthy [contractPfmId], in order, and every account
    name is truthy (the label, or "Account <id>"). A response without
    [items] gives no account. *)
Theorem extractAccountsFromApiData_total (apiData : json) (items : list json)
    (w : World) :
  apiItems apiData = Some items ->
  Forall (fun item => isNullish item = false) items ->
  let accounts :=
    List.map toApiAccount
      (List.filter (fun item => truthy (contractPfmIdOf item)) items) in
  extractAccountsFromApiData apiData w = (Ok accounts, w)
  /\ Forall (fun a => truthy (aa_accountName a) = true) accounts.
Proof. apply extractAccounts_objects. Qed.

(* ===================================================================== *)
(** ** storage.ts: balance snapshots *)
(* ===================================================================== *)

Lemma compareCodeUnits_range a b :
  compareCodeUnits a b = -1 \/ compareCodeUnits a b = 0 \/ compareCodeUnits a b = 1.
Proof.
  revert b. induction a as [|x a IH]; intros [|y b]; simpl; auto.
  destruct (x <? y)%N; [auto|]. destruct (y <? x)%N; auto.
Qed.

Lemma sortsBefore_refl a : sortsBefore a a.
Proof.
  unfold sortsBefore. induction a as [|x a IH]; simpl; [done|].
  by rewrite N.ltb_irrefl.
Qed.

Lemma sortsBefore_total a b : sortsBefore a b \/ sortsBefore b a.
Proof.
  unfold sortsBefore. revert b. induction a as [|x a IH]; intros [|y b]; simpl;
    [left; lia|left; lia|right; lia|].
  destruct (N.ltb_spec x y); [left; lia|].
  destruct (N.ltb_spec y x); [right; lia|]. apply IH.
Qed.

Lemma sortsBefore_trans a b c : sortsBefore a b -> sortsBefore b c -> sortsBefore a c.
Proof.
  unfold sortsBefore. revert b c.
  induction a as [|x a IH]; intros [|y b] [|z c]; simpl; try lia.
  destruct (N.ltb_spec x y), (N.ltb_spec y z), (N.ltb_spec x z);
    try lia; destruct (N.ltb_spec y x), (N.ltb_spec z y), (N.ltb_spec z x);
    try lia. apply IH.
Qed.

Lemma sortsBefore_antisym a b : sortsBefore a b -> sortsBefore b a -> a = b.
Proof.
  unfold sortsBefore. revert b.
  induction a as [|x a IH]; intros [|y b]; simpl; try lia; [done|].
  destruct (N.ltb_spec x y), (N.ltb_spec y x); try lia.
  intros H1 H2. assert (x = y) as -> by lia. f_equal. by apply IH.
Qed.

Lemma sort_insert_sortsBefore x l :
  StronglySorted sortsBefore l ->
  StronglySorted sortsBefore (sort_insert compareCodeUnits x l).
Proof.
  induction l as [|y l IH]; simpl; intros Hs.
  - constructor; [constructor|constructor].
  - inversion Hs as [|? ? Hs' Hall]; subst.
    destruct (Z.leb_spec (compareCodeUnits x y) 0) as [Hle|Hgt].
    + constructor; [done|]. constructor; [done|].
      eapply Forall_impl; [exact Hall|]. intros z Hz.
      by apply (sortsBefore_trans x y z).
    + constructor; [by apply IH|].
      rewrite (sort_insert_Permutation compareCodeUnits x l). constructor; [|done].
      destruct (sortsBefore_total x y) as [H|H]; [unfold sortsBefore in H; lia|done].
Qed.

Lemma Array_sort_sortsBefore l :
  StronglySorted sortsBefore (Array_sort compareCodeUnits l).
Proof.
  induction l as [|x l IH]; [constructor|].
  change (Array_sort compareCodeUnits (x :: l))
    with (sort_insert compareCodeUnits x (Array_sort compareCodeUnits l)).
  by apply sort_insert_sortsBefore.
Qed.

Lemma sorted_last {A} (R : A -> A -> Prop) s m :
  StronglySorted R (s ++ [m]) -> Forall (fun n => R n m) s.
Proof.
  induction s as [|x s IH]; simpl; intros Hs; [constructor|].
  inversion Hs as [|? ? Hs' Hall]; subst. constructor; [|by apply IH].
  rewrite List.Forall_forall in Hall. apply Hall, in_or_app. right. by left.
Qed.

(** The head of the sorted, reversed names is their greatest. *)
Lemma latest_of_sorted names :
  names <> [] ->
  exists latest rest,
    rev (Array_sort compareCodeUnits names) = latest :: rest
    /\ latest ∈ names
    /\ forall n, n ∈ names -> sortsBefore n latest.
Proof.
  intros Hne.
  pose proof (Array_sort_sortsBefore names) as Hs.
  pose proof (Array_sort_Permutation compareCodeUnits names) as Hp.
  assert (Array_sort compareCodeUnits names <> []) as Hne'.
  { intros E. rewrite E in Hp. by apply Permutation_nil in Hp. }
  destruct (exists_last Hne') as (l & x & E). rewrite E in *.
  rewrite rev_unit. exists x, (rev l). split; [done|]. split.
  - rewrite <- Hp. apply elem_of_app. right. left.
  - intros n Hn. rewrite <- Hp in Hn. apply elem_of_app in Hn as [Hn|Hn].
    + apply sorted_last in Hs. rewrite List.Forall_forall in Hs.
      by apply Hs, list_elem_of_In.
    + apply list_elem_of_singleton in Hn as ->. apply sortsBefore_refl.
Qed.

Lemma jsonFiles_found entries name :
  name ∈ jsonFiles entries -> is_Some (findFile name entries).
Proof.
  intros Hin. apply list_elem_of_In, filter_In in Hin as [Hin _].
  by apply findFile_listed, list_elem_of_In.
Qed.

Lemma loadLatestBalances_run bankId w :
  match w_fs w !! getBalancesDir bankId with
  | None => loadLatestBalances bankId w = (Ok JNull, w)
  | Some entries =>
      (jsonFiles entries = [] -> loadLatestBalances bankId w = (Ok JNull, w))
      /\ (jsonFiles entries <> [] ->
          exists latest f,
            latest ∈ jsonFiles entries
            /\ (forall n, n ∈ jsonFiles entries -> sortsBefore n latest)
            /\ findFile latest entries = Some f
            /\ loadLatestBalances bankId w
               = (match JSON_parse (f_content f) with
                  | Some v => Ok v
                  | None => Throw SyntaxError
                  end, w))
  end.
Proof.
  unfold loadLatestBalances.
  assert (existsSync (getBalancesDir bankId) w
          = (Ok (bool_decide (is_Some (w_fs w !! getBalancesDir bankId))), w)) as Hex
    by done.
  rewrite (bind_ok _ _ _ _ _ Hex).
  destruct (w_fs w !! getBalancesDir bankId) as [entries|] eqn:Hdir.
  2:{ rewrite bool_decide_eq_false_2; [done|]. by intros [? ?]. }
  rewrite bool_decide_eq_true_2 by by eexists. simpl.
  assert (readdirSync (getBalancesDir bankId) w = (Ok (List.map f_name entries), w)) as Hrd.
  { unfold readdirSync. by rewrite Hdir. }
  rewrite (bind_ok _ _ _ _ _ Hrd). fold (jsonFiles entries). split.
  - by intros ->.
  - intros Hne. destruct (latest_of_sorted _ Hne) as (latest & rest & -> & Hin & Hmax).
    destruct (jsonFiles_found _ _ Hin) as [f Hf].
    exists latest, f. split_and!; [done..|].
    assert (readFileSync (getBalancesDir bankId) latest w = (Ok (f_content f), w)) as Hread.
    { unfold readFileSync. rewrite Hdir. simpl. by rewrite Hf. }
    rewrite (bind_ok _ _ _ _ _ Hread). by destruct (JSON_parse (f_content f)).
Qed.

(** X15. [loadLatestBalances] reads the [.json] file of the bank's
    balances directory whose name is greatest in code-unit order, and
    returns what [JSON.parse] makes of its content; a content that does
    not parse makes it throw a [SyntaxError]. Without the directory, or
    without a [.json] file in it, the result is [null]. The file system
    is left as it was. *)
Theorem loadLatestBalances_greatest_name (bankId : BankId) (w : World) :
  match w_fs w !! getBalancesDir bankId with
  | None => loadLatestBalances bankId w = (Ok JNull, w)
  | Some entries =>
      (jsonFiles entries = [] -> loadLatestBalances bankId w = (Ok JNull, w))
      /\ (jsonFiles entries <> [] ->
          exists latest f,
            latest ∈ jsonFiles entries
            /\ (forall n, n ∈ jsonFiles entries -> sortsBefore n latest)
            /\ findFile latest entries = Some f
            /\ loadLatestBalances bankId w
               = (match JSON_parse (f_content f) with
                  | Some v => Ok v
                  | None => Throw SyntaxError
                  end, w))
  end.
Proof. apply loadLatestBalances_run. Qed.

Lemma putFile_names name mtime content entries n :
  n ∈ List.map f_name (putFile name mtime content entries)
  <-> n = name \/ n ∈ List.map f_name entries.
Proof.
  induction entries as [|f entries IH]; simpl.
  - rewrite list_elem_of_singleton. split; [by left|intros [?|?%elem_of_nil]; done].
  - destruct (bool_decide (f_name f = name)) eqn:E; simpl.
    + apply bool_decide_eq_true in E. rewrite !elem_of_cons, E.
      split; [intros [?|?]; auto|intros [?|[?|?]]; auto].
    + rewrite !elem_of_cons, IH.
      split; [intros [?|[?|?]]; auto|intros [?|[?|?]]; auto].
Qed.

Lemma endsWith_json date : endsWith (lit ".json") (getBalancesFilename date) = true.
Proof. apply endsWith_app. Qed.

Lemma writeFileSync_listing dir name content w entries :
  w_fs w !! dir = Some entries ->
  writeFileSync dir name content w
  = (Ok tt, mkWorld (<[dir := putFile name (w_now w) content entries]> (w_fs w))
                    (w_now w) (EvWriteFile dir name :: w_trace w)).
Proof. intros H. unfold writeFileSync. by rewrite H. Qed.

Lemma saveBalances_run bankId balances w :
  let dir := getBalancesDir bankId in
  let today := toISODate (w_now w) in
  let filename := getBalancesFilename today in
  let content :=
    JSON_stringify (snapshotOf today (toISOString (w_now w)) balances) in
  exists w',
    saveBalances bankId balances w = (Ok (path_join [dir; filename]), w')
    /\ w_now w' = w_now w
    /\ w_fs w' !! dir
       = Some (putFile filename (w_now w) content (default [] (w_fs w !! dir)))
    /\ (forall d, d <> dir -> w_fs w' !! d = w_fs w !! d).
Proof.
  intros dir today filename content. unfold saveBalances. fold dir.
  destruct (ensureDir_run dir w) as (w1 & Hens & Hw1).
  rewrite (bind_ok _ _ _ _ _ Hens).
  assert (w_now w1 = w_now w
          /\ w_fs w1 !! dir = Some (default [] (w_fs w !! dir))
          /\ (forall d, d <> dir -> w_fs w1 !! d = w_fs w !! d)) as (Hnow & Hdir & Hframe).
  { destruct (w_fs w !! dir) as [entries|] eqn:E; subst w1; simpl; [done|].
    split_and!; [done|by rewrite lookup_insert_eq|].
    intros d Hd. by rewrite lookup_insert_ne. }
  assert (getTodayDate w1 = (Ok today, w1)) as Htoday.
  { unfold getTodayDate, today. by rewrite Hnow. }
  rewrite (bind_ok _ _ _ _ _ Htoday).
  assert (nowISOString w1 = (Ok (toISOString (w_now w)), w1)) as Hts.
  { unfold nowISOString. by rewrite Hnow. }
  rewrite (bind_ok _ _ _ _ _ Hts). rewrite (bind_ok _ _ _ _ _ Htoday).
  fold filename content.
  rewrite (bind_ok _ _ _ _ _ (writeFileSync_listing dir filename content w1 _ Hdir)).
  eexists. split; [reflexivity|]. simpl. split_and!; [done| |].
  - by rewrite lookup_insert_eq, Hnow.
  - intros d Hd. rewrite lookup_insert_ne by done. by apply Hframe.
Qed.

Lemma saveBalances_guard bankId balances w v :
  let dir := getBalancesDir bankId in
  let today := toISODate (w_now w) in
  (forall entries n,
     w_fs w !! dir = Some entries -> n ∈ jsonFiles entries ->
     sortsBefore n (getBalancesFilename today)) ->
  JSON_parse (JSON_stringify (snapshotOf today (toISOString (w_now w)) balances))
  = Some v ->
  prop v "date" = JString today ->
  exists w',
    saveBalances bankId balances w
    = (Ok (path_join [dir; getBalancesFilename today]), w')
    /\ hasBalancesForToday bankId w' = (Ok true, w').
Proof.
  intros dir today Hmax Hparse Hdate.
  destruct (saveBalances_run bankId balances w) as (w' & Hrun & Hnow & Hdir & _).
  exists w'. split; [exact Hrun|].
  fold dir today in Hdir.
  set (filename := getBalancesFilename today) in *.
  set (content := JSON_stringify _) in *.
  set (entries' := putFile filename (w_now w) content (default [] (w_fs w !! dir))) in *.
  pose proof (loadLatestBalances_run bankId w') as Hload. fold dir in Hload.
  rewrite Hdir in Hload. destruct Hload as [_ Hload].
  assert (filename ∈ jsonFiles entries') as Hin.
  { apply list_elem_of_In, filter_In. split; [|apply endsWith_json].
    apply list_elem_of_In, putFile_names. by left. }
  destruct Hload as (latest & f & Hlatest & Hgreatest & Hf & Hload).
  { intros E. rewrite E in Hin. by apply elem_of_nil in Hin. }
  assert (latest = filename) as ->.
  { apply sortsBefore_antisym; [|by apply Hgreatest].
    apply list_elem_of_In, filter_In in Hlatest as [Hl Hjson].
    apply list_elem_of_In, putFile_names in Hl as [->|Hl]; [apply sortsBefore_refl|].
    destruct (w_fs w !! dir) as [entries|] eqn:E; [|by apply elem_of_nil in Hl].
    apply (Hmax entries); [done|]. apply list_elem_of_In, filter_In.
    split; [by apply list_elem_of_In|done]. }
  unfold entries' in Hf. rewrite findFile_putFile in Hf. injection Hf as <-.
  simpl in Hload. rewrite Hparse in Hload.
  unfold hasBalancesForToday. rewrite (bind_ok _ _ _ _ _ Hload).
  assert (getTodayDate w' = (Ok today, w')) as Htoday.
  { unfold getTodayDate, today. by rewrite Hnow. }
  rewrite (bind_ok _ _ _ _ _ Htoday). rewrite Hdate. simpl.
  by rewrite bool_decide_eq_true_2.
Qed.

(** X16. After [saveBalances] the guard holds: [hasBalancesForToday]
    returns true in the resulting file system, provided that no [.json]
    file of the balances directory sorts after today's file name and that
    the written snapshot reads back with its date. *)
Theorem saveBalances_then_fresh (bankId : BankId) (balances : json) (w : World)
    (v : json) :
  let dir := getBalancesDir bankId in
  let today := toISODate (w_now w) in
  (forall entries n,
     w_fs w !! dir = Some entries -> n ∈ jsonFiles entries ->
     sortsBefore n (getBalancesFilename today)) ->
  JSON_parse (JSON_stringify (snapshotOf today (toISOString (w_now w)) balances))
  = Some v ->
  prop v "date" = JString today ->
  exists w',
    saveBalances bankId balances w
    = (Ok (path_join [dir; getBalancesFilename today]), w')
    /\ hasBalancesForToday bankId w' = (Ok true, w').
Proof. apply saveBalances_guard. Qed.

Lemma hasBalancesForToday_run bankId w :
  let today := toISODate (w_now w) in
  match w_fs w !! getBalancesDir bankId with
  | None => hasBalancesForToday bankId w = (Ok false, w)
  | Some entries =>
      (jsonFiles entries = [] -> hasBalancesForToday bankId w = (Ok false, w))
      /\ (jsonFiles entries <> [] ->
          exists latest f,
            latest ∈ jsonFiles entries
            /\ (forall n, n ∈ jsonFiles entries -> sortsBefore n latest)
            /\ findFile latest entries = Some f
            /\ hasBalancesForToday bankId w
               = (match JSON_parse (f_content f) with
                  | Some v => Ok (strictEqStr (prop v "date") today)
                  | None => Throw SyntaxError
                  end, w))
  end.
Proof.
  intros today. pose proof (loadLatestBalances_run bankId w) as Hload.
  unfold hasBalancesForToday.
  assert (getTodayDate w = (Ok today, w)) as Htoday by done.
  destruct (w_fs w !! getBalancesDir bankId) as [entries|].
  - destruct Hload as [Hnone Hsome]. split.
    + intros E. rewrite (bind_ok _ _ _ _ _ (Hnone E)).
      by rewrite (bind_ok _ _ _ _ _ Htoday).
    + intros E. destruct (Hsome E) as (latest & f & H1 & H2 & H3 & Hrun).
      exists latest, f. split_and!; [done..|].
      destruct (JSON_parse (f_content f)) as [v|].
      * rewrite (bind_ok _ _ _ _ _ Hrun). by rewrite (bind_ok _ _ _ _ _ Htoday).
      * by rewrite (bind_throw _ _ _ _ _ Hrun).
  - rewrite (bind_ok _ _ _ _ _ Hload). by rewrite (bind_ok _ _ _ _ _ Htoday).
Qed.

(** X23. [hasBalancesForToday] never writes. It is false without a
    balances directory or without a [.json] file in it; otherwise it
    reads the file of the greatest name and is true exactly when the
    parsed value has today's date as its [date]; a file that does not
    parse makes the guard throw a [SyntaxError]. *)
Theorem hasBalancesForToday_spec (bankId : BankId) (w : World) :
  let today := toISODate (w_now w) in
  match w_fs w !! getBalancesDir bankId with
  | None => hasBalancesForToday bankId w = (Ok false, w)
  | Some entries =>
      (jsonFiles entries = [] -> hasBalancesForToday bankId w = (Ok false, w))
      /\ (jsonFiles entries <> [] ->
          exists latest f,
            latest ∈ jsonFiles entries
            /\ (forall n, n ∈ jsonFiles entries -> sortsBefore n latest)
            /\ findFile latest entries = Some f
            /\ hasBalancesForToday bankId w
               = (match JSON_parse (f_content f) with
                  | Some v => Ok (strictEqStr (prop v "date") today)
                  | None => Throw SyntaxError
                  end, w))
  end.
Proof. apply hasBalancesForToday_run. Qed.

(* ===================================================================== *)
(** ** storage.ts: the temporary directory *)
(* ===================================================================== *)

Lemma unlinkAll_run dir entries w :
  w_fs w !! dir = Some entries ->
  exists w',
    unlinkAll dir (List.map f_name entries) w = (Ok tt, w')
    /\ w_fs w' !! dir = Some []
    /\ (forall d, d <> dir -> w_fs w' !! d = w_fs w !! d)
    /\ w_trace w' = w_trace w.
Proof.
  revert w. induction entries as [|f entries IH]; intros w Hdir; simpl.
  { by exists w. }
  set (w1 := mkWorld (<[dir := entries]> (w_fs w)) (w_now w) (w_trace w)).
  assert (unlinkSync dir (f_name f) w = (Ok tt, w1)) as Hun.
  { unfold unlinkSync, findFile. rewrite Hdir. simpl.
    by rewrite !bool_decide_eq_true_2. }
  rewrite (bind_ok _ _ _ _ _ Hun).
  destruct (IH w1) as (w' & Hrun & Hempty & Hframe & Htrace).
  { simpl. by rewrite lookup_insert_eq. }
  exists w'. split_and!; [done..| |done].
  intros d Hd. rewrite (Hframe d Hd). simpl. by rewrite lookup_insert_ne.
Qed.

Lemma cleanupTempDir_run w :
  exists w',
    cleanupTempDir w = (Ok tt, w')
    /\ (is_Some (w_fs w !! TEMP_DIR) -> w_fs w' !! TEMP_DIR = Some [])
    /\ (w_fs w !! TEMP_DIR = None -> w' = w)
    /\ (forall d, d <> TEMP_DIR -> w_fs w' !! d = w_fs w !! d)
    /\ w_trace w' = w_trace w.
Proof.
  unfold cleanupTempDir.
  assert (existsSync TEMP_DIR w
          = (Ok (bool_decide (is_Some (w_fs w !! TEMP_DIR))), w)) as Hex by done.
  rewrite (bind_ok _ _ _ _ _ Hex).
  destruct (w_fs w !! TEMP_DIR) as [entries|] eqn:Hdir.
  - rewrite bool_decide_eq_true_2 by by eexists.
    assert (readdirSync TEMP_DIR w = (Ok (List.map f_name entries), w)) as Hrd.
    { unfold readdirSync. by rewrite Hdir. }
    rewrite (bind_ok _ _ _ _ _ Hrd).
    destruct (unlinkAll_run TEMP_DIR entries w Hdir) as (w' & Hrun & Hempty & Hframe & Ht).
    exists w'. by split_and!.
  - rewrite bool_decide_eq_false_2 by by intros [? ?].
    exists w. split_and!; [done|by intros [? ?]|done..].
Qed.

(** X17. [cleanupTempDir] never throws. When the temporary directory
    exists it is left empty, and when it does not exist nothing changes;
    every other directory keeps its files, and the engine's calls are
    not touched. *)
Theorem cleanupTempDir_empties_temp_only (w : World) :
  exists w',
    cleanupTempDir w = (Ok tt, w')
    /\ (is_Some (w_fs w !! TEMP_DIR) -> w_fs w' !! TEMP_DIR = Some [])
    /\ (w_fs w !! TEMP_DIR = None -> w' = w)
    /\ (forall d, d <> TEMP_DIR -> w_fs w' !! d = w_fs w !! d)
    /\ w_trace w' = w_trace w.
Proof. apply cleanupTempDir_run. Qed.

(* ===================================================================== *)
(** ** storage.ts: dates and archive names *)
(* ===================================================================== *)

Lemma getTransactionsFilename_iso y1 y2 y3 y4 m1 m2 d1 d2 :
  forallb isDigit [y1; y2; y3; y4; m1; m2; d1; d2] = true ->
  getTransactionsFilename [y1; y2; y3; y4; 45%N; m1; m2; 45%N; d1; d2]
  = lit "history-from-" ++ [y1; y2; y3; y4; m1; m2; d1; d2] ++ lit ".csv".
Proof.
  intros H. cbn [forallb] in H.
  repeat (apply andb_true_iff in H as [?%isDigit_not_hyphen H]). clear H.
  unfold getTransactionsFilename. do 2 f_equal.
  cbn [List.filter].
  repeat match goal with H : negb _ = true |- _ => rewrite H; clear H end.
  done.
Qed.

Lemma parse_compact compact :
  length compact = 8%nat -> forallb isDigit compact = true ->
  parseTransactionsFilename (lit "history-from-" ++ compact ++ lit ".csv")
  = Some (take 4 compact ++ [45%N] ++ take 2 (drop 4 compact)
          ++ [45%N] ++ take 2 (drop 6 compact)).
Proof.
  intros Hlen Hdig. unfold parseTransactionsFilename, startsWith.
  rewrite take_app_length, drop_app_length.
  rewrite (take_app_length' compact) by done.
  rewrite (drop_app_length' compact) by done.
  rewrite Hlen, Hdig. by rewrite !bool_decide_eq_true_2.
Qed.

Lemma parse_getTransactionsFilename startDate :
  isISODate startDate = true ->
  parseTransactionsFilename (getTransactionsFilename startDate) = Some startDate.
Proof.
  destruct startDate as [|y1 [|y2 [|y3 [|y4 [|h1 [|m1 [|m2 [|h2 [|d1 [|d2 [|]]]]]]]]]]];
    try done.
  intros H. cbn [isISODate] in H.
  apply andb_true_iff in H as [H Hh2]. apply andb_true_iff in H as [H Hh1].
  apply N.eqb_eq in Hh1, Hh2. subst h1 h2.
  rewrite getTransactionsFilename_iso by done.
  by rewrite parse_compact.
Qed.

(** X18. For a start date written [YYYY-MM-DD], the archive name that
    [getTransactionsFilename] builds is accepted by
    [parseTransactionsFilename], which gives the start date back. *)
Theorem archive_name_round_trip (startDate : list N) :
  isISODate startDate = true ->
  parseTransactionsFilename (getTransactionsFilename startDate) = Some startDate.
Proof. apply parse_getTransactionsFilename. Qed.

Lemma isDigit_pad n : isDigit (Z.to_N (48 + n mod 10)) = true.
Proof.
  pose proof (Z.mod_pos_bound n 10 ltac:(lia)).
  unfold isDigit. apply andb_true_iff. rewrite !N.leb_le. lia.
Qed.

(** The date of a time value in the years 0..9999 is written
    [YYYY-MM-DD]. *)
Lemma toISODate_iso t :
  0 <= yearOf t <= 9999 -> isISODate (toISODate t) = true.
Proof.
  unfold yearOf, toISODate. destruct (civilFromDays (t / msPerDay)) as [[y m] d].
  simpl. intros Hy.
  assert ((0 <=? y) && (y <=? 9999) = true) as ->.
  { apply andb_true_iff. rewrite !Z.leb_le. lia. }
  cbn [padDigits app isISODate forallb]. rewrite !isDigit_pad. done.
Qed.

Lemma getDateDaysAgo_archive days w :
  0 <= yearOf (w_now w - days * msPerDay) <= 9999 ->
  exists startDate,
    getDateDaysAgo days w = (Ok startDate, w)
    /\ isISODate startDate = true
    /\ parseTransactionsFilename (getTransactionsFilename startDate) = Some startDate.
Proof.
  intros Hy. exists (toISODate (w_now w - days * msPerDay)).
  split; [done|]. pose proof (toISODate_iso _ Hy) as Hiso.
  split; [done|]. by apply parse_getTransactionsFilename.
Qed.

(** X25. The start date of a download window names an archive: for a
    clock whose date [days] days ago lies in the years 0..9999,
    [getDateDaysAgo] returns a date written [YYYY-MM-DD], and the file
    name built from it is one that [parseTransactionsFilename] accepts
    and reads back as that date. *)
Theorem window_start_names_an_archive (days : Z) (w : World) :
  0 <= yearOf (w_now w - days * msPerDay) <= 9999 ->
  exists startDate,
    getDateDaysAgo days w = (Ok startDate, w)
    /\ isISODate startDate = true
    /\ parseTransactionsFilename (getTransactionsFilename startDate) = Some startDate.
Proof. apply getDateDaysAgo_archive. Qed.

(* ===================================================================== *)
(** ** The engine and the file system *)
(* ===================================================================== *)

Lemma touchesOnly_ret {A} P (a : A) : touchesOnly P (mret a).
Proof. intros w r w' [= <- <-]. done. Qed.

Lemma touchesOnly_throw {A} P e : touchesOnly P (@throw A e).
Proof. intros w r w' [= <- <-]. done. Qed.

Lemma touchesOnly_bind {A B} P (m : M A) (f : A -> M B) :
  touchesOnly P m -> (forall a, touchesOnly P (f a)) -> touchesOnly P (m ≫= f).
Proof.
  intros Hm Hf w r w' Hrun. unfold mbind, M_bind in Hrun.
  destruct (m w) as [[a|e] w1] eqn:E.
  - destruct (Hm w _ _ E) as [Hnow Hfs]. destruct (Hf a w1 _ _ Hrun) as [Hnow' Hfs'].
    split; [congruence|]. intros d Hd. by rewrite Hfs', Hfs.
  - injection Hrun as <- <-. by apply (Hm w _ _ E).
Qed.

Lemma touchesOnly_same {A} P (m : M A) :
  (forall w, snd (m w) = w) -> touchesOnly P m.
Proof. intros H w r w' Hrun. specialize (H w). rewrite Hrun in H. simpl in H. by subst. Qed.

Lemma touchesOnly_inspects {A} P (m : M A) : inspects m -> touchesOnly P m.
Proof.
  intros H. apply touchesOnly_same. intros w. destruct (H w) as (r & -> & _). done.
Qed.

Lemma touchesOnly_catch {A} P (m : M A) a : touchesOnly P m -> touchesOnly P (catch m a).
Proof.
  intros Hm w r w' Hrun. unfold catch in Hrun.
  destruct (m w) as [[x|e] w1] eqn:E; injection Hrun as <- <-; by apply (Hm w _ _ E).
Qed.

Lemma touchesOnly_emit P e : touchesOnly P (emit e).
Proof. intros w r w' [= <- <-]. done. Qed.

Lemma touchesOnly_getTrace P : touchesOnly P getTrace.
Proof. by apply touchesOnly_same. Qed.

Lemma touchesOnly_getLatest P bankId accountName :
  touchesOnly P (getLatestTransactionsFile bankId accountName).
Proof. apply touchesOnly_same. intros w. by rewrite getLatestTransactionsFile_run. Qed.

Lemma touchesOnly_ensureDir (P : list N -> Prop) dir :
  P dir -> touchesOnly P (ensureDir dir).
Proof.
  intros HP w r w' Hrun. destruct (ensureDir_run dir w) as (w1 & Hens & Hw1).
  rewrite Hens in Hrun. injection Hrun as <- <-.
  destruct (w_fs w !! dir); subst w1; [done|]. simpl. split; [done|].
  intros d Hd. rewrite lookup_insert_ne; [done|]. by intros <-.
Qed.

Lemma touchesOnly_writeFileSync (P : list N -> Prop) dir name content :
  P dir -> touchesOnly P (writeFileSync dir name content).
Proof.
  intros HP w r w' Hrun. unfold writeFileSync in Hrun.
  destruct (w_fs w !! dir); injection Hrun as <- <-; [|done]. simpl. split; [done|].
  intros d Hd. rewrite lookup_insert_ne; [done|]. by intros <-.
Qed.

Lemma touchesOnly_saveTransactionsCSV (P : list N -> Prop) bankId accountName
    startDate csvContent :
  P (getAccountDir bankId accountName) ->
  touchesOnly P (saveTransactionsCSV bankId accountName startDate csvContent).
Proof.
  intros HP. unfold saveTransactionsCSV.
  apply touchesOnly_bind; [by apply touchesOnly_ensureDir|]. intros _.
  apply touchesOnly_bind; [apply touchesOnly_getLatest|]. intros existingFile.
  apply touchesOnly_bind; [by apply touchesOnly_same|]. intros ex.
  apply touchesOnly_bind; [|intros; apply touchesOnly_ret].
  destruct ex; [|by apply touchesOnly_writeFileSync].
  apply touchesOnly_bind.
  - apply touchesOnly_same. intros w. unfold readFileSync. by destruct (_ ≫= _).
  - intros. by apply touchesOnly_writeFileSync.
Qed.

Lemma touchesOnly_downloadAccountCSV page accountInfo startDate authHeader :
  touchesOnly (isAccountDir CAISSE_EPARGNE)
    (downloadAccountCSV page accountInfo startDate authHeader).
Proof.
  unfold downloadAccountCSV. apply touchesOnly_catch.
  apply touchesOnly_bind; [apply touchesOnly_emit|]. intros _.
  apply touchesOnly_bind; [apply touchesOnly_getTrace|]. intros tr.
  destruct (pg_prepareDownload page tr authHeader _) as [[ct body]|];
    [|apply touchesOnly_throw].
  apply touchesOnly_bind.
  { destruct (_ && _); [|apply touchesOnly_ret].
    destruct (JSON_parse body); [apply touchesOnly_ret|apply touchesOnly_throw]. }
  intros prepareData. destruct (negb (truthy prepareData)); [apply touchesOnly_ret|].
  destruct (negb (truthy _)); [apply touchesOnly_ret|].
  apply touchesOnly_bind; [apply touchesOnly_emit|]. intros _.
  apply touchesOnly_bind; [apply touchesOnly_getTrace|]. intros tr'.
  destruct (pg_download page tr' authHeader _) as [csvContent|]; [|apply touchesOnly_ret].
  apply touchesOnly_bind; [|intros; apply touchesOnly_ret].
  apply touchesOnly_saveTransactionsCSV. by eexists.
Qed.

Lemma touchesOnly_downloadLoop page accountsWithIds startDate authHeader n :
  touchesOnly (isAccountDir CAISSE_EPARGNE)
    (downloadLoop page accountsWithIds startDate authHeader n).
Proof.
  revert n. induction accountsWithIds as [|a l IH]; intros n; simpl.
  { apply touchesOnly_ret. }
  destruct (_ || _); [apply IH|].
  apply touchesOnly_bind; [apply touchesOnly_downloadAccountCSV|]. intros. apply IH.
Qed.

Lemma touchesOnly_createDownloadRequests P page accountsInfo startDate endDate
    authHeader pfmToName targets :
  touchesOnly P
    (createDownloadRequests page accountsInfo startDate endDate authHeader
       pfmToName targets).
Proof.
  unfold createDownloadRequests. apply touchesOnly_bind.
  { intros w r w' Hrun.
    destruct (createLoop_run page accountsInfo startDate endDate authHeader 0 w)
      as (n' & Hn & _).
    rewrite Hn in Hrun. injection Hrun as <- <-. done. }
  intros successCount. destruct (successCount =? 0)%nat; [apply touchesOnly_throw|].
  apply touchesOnly_bind; [apply touchesOnly_emit|]. intros _.
  apply touchesOnly_bind; [apply touchesOnly_getTrace|]. intros tr.
  destruct (pg_historyRequests page tr authHeader); [|apply touchesOnly_throw].
  apply touchesOnly_inspects.
  apply inspects_bind; [apply inspects_strictProp|]. intros v.
  apply inspects_bind; [apply inspects_iterate|]. intros items.
  apply inspects_bind; [apply inspects_indexHistory|]. intros hist.
  apply inspects_M_map. intros pfmId. apply inspects_toDownloadInfo.
Qed.

Lemma touchesOnly_hasTransactionsForToday P bankId accountNames :
  touchesOnly P (hasTransactionsForToday bankId accountNames).
Proof.
  apply touchesOnly_same. intros w. unfold hasTransactionsForToday.
  assert (getTodayDate w = (Ok (toISODate (w_now w)), w)) as H by done.
  rewrite (bind_ok _ _ _ _ _ H).
  by destruct (hasTransactionsLoop_run bankId (toISODate (w_now w)) accountNames w)
    as (r & -> & _).
Qed.

Lemma touchesOnly_downloadTransactions page accountsFromApi :
  touchesOnly (isAccountDir CAISSE_EPARGNE) (downloadTransactions page accountsFromApi).
Proof.
  unfold downloadTransactions.
  apply touchesOnly_bind; [by apply touchesOnly_same|]. intros today.
  apply touchesOnly_bind; [by apply touchesOnly_same|]. intros startDate.
  apply touchesOnly_bind; [apply touchesOnly_hasTransactionsForToday|]. intros upToDate.
  destruct upToDate; [apply touchesOnly_ret|].
  apply touchesOnly_bind; [apply touchesOnly_inspects, inspects_planDownload|].
  intros [[accountsInfo targets] hist].
  apply touchesOnly_bind.
  { destruct (allHaveCorrectDateRange _ _ _ _).
    - apply touchesOnly_inspects, inspects_M_map. intros pfmId.
      apply inspects_toDownloadInfo.
    - apply touchesOnly_createDownloadRequests. }
  intros accountsWithIds.
  apply touchesOnly_bind; [apply touchesOnly_downloadLoop|]. intros.
  apply touchesOnly_ret.
Qed.

Lemma getAccountDir_prefix bankId accountName :
  startsWith (getTransactionsDir bankId) (getAccountDir bankId accountName) = true.
Proof.
  unfold getAccountDir, startsWith. apply bool_decide_eq_true.
  unfold path_join at 1. cbn [List.filter].
  assert (truthy_str (getTransactionsDir bankId) = true) as -> by by destruct bankId.
  destruct (truthy_str (sanitizeName accountName)); cbn [str_join].
  - apply take_app_length.
  - by rewrite firstn_all.
Qed.


Lemma hasTransactionsForToday_fresh bankId accountNames w :
  Forall (freshAccount w bankId (toISODate (w_now w))) accountNames ->
  hasTransactionsForToday bankId accountNames w = (Ok true, w).
Proof.
  intros Hfresh. unfold hasTransactionsForToday.
  assert (getTodayDate w = (Ok (toISODate (w_now w)), w)) as H by done.
  rewrite (bind_ok _ _ _ _ _ H).
  destruct (hasTransactionsLoop_run bankId (toISODate (w_now w)) accountNames w)
    as (r & -> & Hiff).
  apply Hiff in Hfresh. by subst r.
Qed.

Lemma downloadTransactions_fresh page accountsFromApi w :
  Forall (freshAccount w CAISSE_EPARGNE (toISODate (w_now w)))
         (List.map ai_accountName accountsFromApi) ->
  downloadTransactions page accountsFromApi w = (Ok false, w).
Proof.
  intros Hfresh. unfold downloadTransactions.
  assert (getTodayDate w = (Ok (toISODate (w_now w)), w)) as H1 by done.
  rewrite (bind_ok _ _ _ _ _ H1).
  assert (getDateDaysAgo maxDaysBack w
          = (Ok (toISODate (w_now w - maxDaysBack * msPerDay)), w)) as H2 by done.
  rewrite (bind_ok _ _ _ _ _ H2).
  by rewrite (bind_ok _ _ _ _ _ (hasTransactionsForToday_fresh _ _ _ Hfresh)).
Qed.

(** X20. When every account of the response has an archive modified
    today, [downloadTransactions] returns false at once: no call to the
    bank, no write, the world as it was. A response without accounts is
    such a case. *)
Theorem downloadTransactions_skips_when_fresh (page : Page)
    (accountsFromApi : list AccountInfo) (w : World) :
  Forall (freshAccount w CAISSE_EPARGNE (toISODate (w_now w)))
         (List.map ai_accountName accountsFromApi) ->
  downloadTransactions page accountsFromApi w = (Ok false, w).
Proof. apply downloadTransactions_fresh. Qed.

Lemma saveTransactionsCSV_guard bankId accountName startDate csvContent w :
  let accountDir := getAccountDir bankId accountName in
  isISODate startDate = true ->
  noArchive w accountDir \/ (exists name mtime, soleArchive w accountDir name mtime) ->
  exists filePath w',
    saveTransactionsCSV bankId accountName startDate csvContent w = (Ok filePath, w')
    /\ hasTransactionsForToday bankId [accountName] w' = (Ok true, w').
Proof.
  intros accountDir Hiso Hone.
  destruct (saveTransactionsCSV_one_archive bankId accountName startDate csvContent w)
    as (name & w' & Hrun & Hsole & _); [|done|].
  { rewrite parse_getTransactionsFilename by done. by eexists. }
  exists (path_join [accountDir; name]), w'. split; [done|].
  destruct (touchesOnly_saveTransactionsCSV (fun _ => True) bankId accountName
              startDate csvContent I w _ _ Hrun) as [Hnow _].
  apply hasTransactionsForToday_fresh. constructor; [|constructor].
  destruct (latestInfo_soleArchive w' bankId accountName name (w_now w) Hsole)
    as (start & _ & Hinfo).
  eexists. rewrite getLatestTransactionsFile_run, Hinfo. split; [done|].
  simpl. by rewrite Hnow.
Qed.

(** X19. After [saveTransactionsCSV] the account is fresh: with a start
    date written [YYYY-MM-DD] and an account directory that holds no
    archive, or one archive file and no other [.csv] file,
    [hasTransactionsForToday] returns true for the account in the
    resulting file system. *)
Theorem saveTransactionsCSV_then_fresh (bankId : BankId)
    (accountName startDate csvContent : list N) (w : World) :
  let accountDir := getAccountDir bankId accountName in
  isISODate startDate = true ->
  noArchive w accountDir \/ (exists name mtime, soleArchive w accountDir name mtime) ->
  exists filePath w',
    saveTransactionsCSV bankId accountName startDate csvContent w = (Ok filePath, w')
    /\ hasTransactionsForToday bankId [accountName] w' = (Ok true, w').
Proof. apply saveTransactionsCSV_guard. Qed.

(* ===================================================================== *)
(** ** The scheme of the authorization header *)
(* ===================================================================== *)

Lemma hasBearerPrefix_truthy s : hasBearerPrefix s = true -> truthy_str s = true.
Proof. by destruct s. Qed.

Lemma hasBearerPrefix_built t : hasBearerPrefix (lit "Bearer " ++ t) = true.
Proof. done. Qed.

Lemma buildAuthorizationHeader_cases t :
  truthy_str t = true ->
  let header := buildAuthorizationHeader (Some t) in
  hasBearerPrefix header = true
  /\ (if hasBearerPrefix t then header = t else header = lit "Bearer " ++ t)
  /\ buildAuthorizationHeader (Some header) = header.
Proof.
  intros Ht header. subst header. unfold buildAuthorizationHeader.
  rewrite Ht. cbn [negb]. destruct (hasBearerPrefix t) eqn:E.
  - split_and!; [done|done|]. rewrite Ht. cbn [negb]. by rewrite E.
  - split_and!; [apply hasBearerPrefix_built|done|].
    assert (truthy_str (lit "Bearer " ++ t) = true) as -> by done.
    cbn [negb]. by rewrite hasBearerPrefix_built.
Qed.

Lemma entryToken_truthy entry token :
  entryToken entry = Some token -> truthy_str token = true.
Proof.
  unfold entryToken, ruleBearer, ruleJsonField, ruleKeyName.
  destruct (bearerMatch (snd entry)) as [m|] eqn:Hb.
  - intros [= <-]. apply bearerMatch_substring in Hb as (_ & _ & _ & Hm).
    by apply hasBearerPrefix_truthy.
  - destruct (jsonToken (snd entry)) as [t|] eqn:Hj.
    + intros [= <-]. unfold jsonToken in Hj.
      repeat case_match; simplify_eq. by destruct t.
    + destruct (isTokenKey (fst entry) && (10 <? length (snd entry))%nat) eqn:E; [|done].
      intros [= <-]. apply andb_true_iff in E as [_ E]. by destruct (snd entry).
Qed.

Lemma extractTokenFromStorage_truthy entries token key :
  extractTokenFromStorage entries = Some (token, key) -> truthy_str token = true.
Proof.
  induction entries as [|[k v] entries IH]; [done|].
  rewrite extractTokenFromStorage_cons.
  destruct (entryToken (k, v)) as [t|] eqn:E; [|done].
  intros [= <- <-]. by eapply entryToken_truthy.
Qed.

(** X22. A header resolved from browser storage always carries the
    Bearer scheme: a token that starts with "Bearer" and white space (in
    any case) is passed as found, any other token is prefixed with
    "Bearer ", and building a header from the result changes nothing. *)
Theorem storage_header_has_bearer_scheme (storageEntries : list (list N * list N))
    (token key : list N) :
  extractTokenFromStorage storageEntries = Some (token, key) ->
  let header := fst (resolveAuthHeader storageEntries []) in
  hasBearerPrefix header = true
  /\ (if hasBearerPrefix token then header = token
      else header = lit "Bearer " ++ token)
  /\ buildAuthorizationHeader (Some header) = header.
Proof.
  intros Hfound. unfold resolveAuthHeader. simpl. rewrite Hfound. simpl.
  apply buildAuthorizationHeader_cases. by eapply extractTokenFromStorage_truthy.
Qed.

(* ===================================================================== *)
(** ** storage.ts: white space around an account name *)
(* ===================================================================== *)

Lemma trimStart_no_space s :
  Forall (fun c => isWhiteSpace c = false) s -> trimStart s = s.
Proof. destruct 1 as [|c s Hc _]; simpl; [done|]. by rewrite Hc. Qed.

Lemma trim_no_space s :
  Forall (fun c => isWhiteSpace c = false) s -> trim s = s.
Proof.
  intros H. unfold trim, trimEnd. rewrite (trimStart_no_space s H).
  rewrite trimStart_no_space; [apply rev_involutive|]. by apply Forall_rev.
Qed.

Lemma isNameChar_not_space c : isNameChar c = true -> isWhiteSpace c = false.
Proof.
  intros H. apply isWhiteSpace_false.
  unfold isNameChar, isLower, isDigit in H. N_cases.
Qed.

Lemma replaceSpaceRuns_leading c s :
  isWhiteSpace c = true ->
  replaceSpaceRuns false (c :: s) = 95%N :: replaceSpaceRuns true s.
Proof. intros H. simpl. by rewrite H. Qed.

Lemma replaceSpaceRuns_trailing inRun s c :
  isWhiteSpace c = true ->
  (exists t, replaceSpaceRuns inRun (s ++ [c]) = t ++ [95%N])
  \/ (inRun = true /\ replaceSpaceRuns inRun (s ++ [c]) = []).
Proof.
  intros Hc. revert inRun. induction s as [|x s IH]; intros inRun; simpl.
  - rewrite Hc. destruct inRun; [by right|left; by exists []].
  - destruct (isWhiteSpace x).
    + destruct inRun.
      * apply IH.
      * left. destruct (IH true) as [[t Ht]|[_ Ht]]; rewrite Ht.
        -- by exists (95%N :: t).
        -- by exists [].
    + left. destruct (IH false) as [[t Ht]|[? _]]; [|done]. rewrite Ht.
      by exists (x :: t).
Qed.

Lemma filters_keep_space c :
  isWhiteSpace c = true -> negb (isCombiningMark c) = true /\ isKept c = true.
Proof.
  intros H. split.
  - destruct (isCombiningMark c) eqn:E; [exfalso|done].
    unfold isCombiningMark in E. apply andb_true_iff in E as [E1 E2].
    apply N.leb_le in E1, E2.
    assert (isWhiteSpace c = false) as Hno; [|congruence].
    unfold isWhiteSpace.
    repeat apply orb_false_intro; try (apply N.eqb_neq; lia).
    apply andb_false_iff. left. apply N.leb_gt. lia.
  - unfold isKept. rewrite H. by rewrite !orb_true_r.
Qed.

Section SanitizeSpace.

Hypothesis toLowerCase_ascii :
  forall s, Forall (fun c => (c < 128)%N) s ->
            toLowerCase s = List.map lowerAscii s.

Lemma sanitizeName_untrimmed name :
  sanitizeName name = List.map lowerAscii (sanitizeCore false (normalizeNFD name)).
Proof using toLowerCase_ascii.
  rewrite (sanitizeName_unfold toLowerCase_ascii). apply trim_no_space.
  apply List.Forall_map.
  eapply Forall_impl; [apply sanitizeCore_chars|].
  intros c [_ Hc]. by apply isNameChar_not_space.
Qed.

(** X24. The [trim()] of [sanitizeName] never removes anything: white
    space has become underscores before it runs. A name whose normalised
    form starts (ends) with white space gets a sanitized name that starts
    (ends) with an underscore. *)
Theorem sanitizeName_never_trims (name : list N) :
  sanitizeName name = List.map lowerAscii (sanitizeCore false (normalizeNFD name))
  /\ (forall c rest,
        normalizeNFD name = c :: rest -> isWhiteSpace c = true ->
        exists t, sanitizeName name = 95%N :: t)
  /\ (forall front c,
        normalizeNFD name = front ++ [c] -> isWhiteSpace c = true ->
        exists t, sanitizeName name = t ++ [95%N]).
Proof using toLowerCase_ascii.
  split_and!; [apply sanitizeName_untrimmed| |].
  - intros c rest Hn Hc. rewrite sanitizeName_untrimmed, Hn. unfold sanitizeCore.
    destruct (filters_keep_space c Hc) as [H1 H2].
    cbn [List.filter]. rewrite H1. cbn [List.filter]. rewrite H2.
    rewrite replaceSpaceRuns_leading by done. by eexists.
  - intros front c Hn Hc. rewrite sanitizeName_untrimmed, Hn. unfold sanitizeCore.
    destruct (filters_keep_space c Hc) as [H1 H2].
    rewrite !List.filter_app. cbn [List.filter]. rewrite H1. cbn [List.filter].
    rewrite H2.
    destruct (replaceSpaceRuns_trailing false
                (List.filter isKept
                   (List.filter (fun c => negb (isCombiningMark c)) front)) c Hc)
      as [[t Ht]|[? _]]; [|done].
    rewrite Ht, map_app. by eexists.
Qed.

End SanitizeSpace.

End Engine.

(* ===================================================================== *)
(** * Worked examples *)
(* ===================================================================== *)

Lemma asciiLowerCase_ascii s :
  Forall (fun c => (c < 128)%N) s -> asciiLowerCase s = List.map lowerAscii s.
Proof. done. Qed.

Example window_example :
  toISODate noon = lit "2024-03-10"
  /\ toISODate (noon - maxDaysBack * msPerDay) = lit "2022-01-08".
Proof. by vm_compute. Qed.

(** C1 at its failing input. The archive is anchored at 2023-03-01 and
    the export's window starts on 2022-01-01: the merged rows are written
    under the archive's later anchor, and no file anchored at 2022-01-01
    exists afterwards. *)
Theorem saveTransactionsCSV_keeps_later_anchor :
  exists w',
    saveTransactionsCSV sampleNFD asciiLowerCase CAISSE_EPARGNE (lit "Livret A")
      (lit "2022-01-01") earlierExport archiveWorld
    = (Ok (lit "data/transactions/ce/livret_a/history-from-20230301.csv"), w')
    /\ w_fs w' !! lit "data/transactions/ce/livret_a"
       = Some [mkFile (lit "history-from-20230301.csv") noon
                 (lit "Date;Label;Amount" ++ [10%N] ++
                  lit "05/03/2023;card;-12" ++ [10%N] ++
                  lit "01/03/2023;salary;2000" ++ [10%N] ++
                  lit "15/01/2022;rent;-700")]
    /\ getTransactionsFilename (lit "2022-01-01") = lit "history-from-20220101.csv"
    /\ w_trace w' = [EvWriteFile (lit "data/transactions/ce/livret_a")
                                 (lit "history-from-20230301.csv")].
Proof. eexists. split_and!; [by vm_compute|by vm_compute..]. Qed.

(** Without an archive the run's window start names the file. *)
Example saveTransactionsCSV_first_export :
  exists w',
    saveTransactionsCSV sampleNFD asciiLowerCase CAISSE_EPARGNE (lit "Livret A")
      (lit "2022-01-08") earlierExport (mkWorld ∅ noon [])
    = (Ok (lit "data/transactions/ce/livret_a/history-from-20220108.csv"), w')
    /\ w_fs w' !! lit "data/transactions/ce/livret_a"
       = Some [mkFile (lit "history-from-20220108.csv") noon earlierExport]
    /\ w_trace w' = [EvWriteFile (lit "data/transactions/ce/livret_a")
                                 (lit "history-from-20220108.csv");
                     EvMkdir (lit "data/transactions/ce/livret_a")].
Proof. eexists. split_and!; by vm_compute. Qed.

Example mergeCSV_sort_example :
  mergeCSV unsortedArchive overlappingExport
  = lit "Date;Label" ++ [10%N] ++ lit "20/01/2024;b" ++ [10%N]
    ++ lit "05/01/2024;a" ++ [10%N] ++ lit "01/01/2024;c".
Proof. by vm_compute. Qed.

Lemma mergeCSV_idempotent_rows_witness :
  (forall r, r ∈ dataRows (mergeCSV unsortedArchive unsortedArchive)
             <-> r ∈ dataRows unsortedArchive)
  /\ NoDup (dataRows (mergeCSV unsortedArchive unsortedArchive)).
Proof. apply (mergeCSV_idempotent_rows unsortedArchive). by vm_compute. Defined.

Lemma mergeCSV_header_then_sorted_witness :
  let rows := dataRows (mergeCSV unsortedArchive overlappingExport) in
  mergeCSV unsortedArchive overlappingExport
  = str_join [10%N] (lit "Date;Label" :: rows)
  /\ StronglySorted (keyDescending rowKey) rows
  /\ StronglySorted notBefore rows
  /\ NoDup rows
  /\ (forall r, r ∈ rows <->
                r ∈ dataRows unsortedArchive \/ r ∈ dataRows overlappingExport).
Proof.
  apply (mergeCSV_header_then_sorted unsortedArchive overlappingExport
           (lit "Date;Label") [lit "05/01/2024;a"; lit "20/01/2024;b"]).
  - by vm_compute.
  - by vm_compute.
  - intros r [Hr|Hr]; apply list_elem_of_In in Hr; vm_compute in Hr;
      repeat (destruct Hr as [<-|Hr]; [by vm_compute; eexists|]); destruct Hr.
Defined.

Example sanitizeName_example :
  sanitizeName sampleNFD asciiLowerCase accentedName = lit "epargne_logement_2"
  /\ sanitizeName sampleNFD asciiLowerCase (lit "  Compte-Courant 1 ") = lit "_compte-courant_1_".
Proof. by vm_compute. Qed.


Example reuse_run_example :
  let '(r, w') := downloadTransactions sampleNFD asciiLowerCase sampleJSON
                    reusePage threeAccounts emptyWorld in
  r = Ok true
  /\ List.filter isCreateEvent (w_trace w') = []
  /\ omap prepareIdOf (rev (w_trace w'))
     = [JString (lit "r1"); JString (lit "r2"); JString (lit "r3")]
  /\ List.map fst (map_to_list (w_fs w'))
     = [lit "data/transactions/ce/compte_courant";
        lit "data/transactions/ce/epargne_logement_2";
        lit "data/transactions/ce/livret_a"].
Proof. by vm_compute. Qed.

Example fatal_run_example :
  downloadTransactions sampleNFD asciiLowerCase sampleJSON
    stalePage threeAccounts emptyWorld
  = (Throw (Error fatalMessage),
     mkWorld ∅ noon
       [EvCreateRequest (lit "103") (lit "2022-01-08") (lit "2024-03-10");
        EvCreateRequest (lit "102") (lit "2022-01-08") (lit "2024-03-10");
        EvCreateRequest (lit "101") (lit "2022-01-08") (lit "2024-03-10")]).
Proof. by vm_compute. Qed.

Lemma downloadTransactions_reuse_all_or_recreate_all_witness :
  (exists w' evs,
     downloadTransactions sampleNFD asciiLowerCase sampleJSON
       reusePage threeAccounts emptyWorld = (Ok true, w')
     /\ w_trace w' = evs ++ w_trace emptyWorld
     /\ List.filter isCreateEvent evs = []
     /\ omap prepareIdOf (rev evs)
        = List.filter truthy
            (List.map (fun pfmId =>
                         requestIdOf (default JUndefined (reuseRetained !! pfmId)))
                      threeTargets))
  /\ (exists r w' later,
        downloadTransactions sampleNFD asciiLowerCase sampleJSON
          stalePage threeAccounts emptyWorld = (r, w')
        /\ w_trace w'
           = later ++ createCalls threeInfos (runStartDate emptyWorld)
                                  (runToday emptyWorld)
                   ++ w_trace emptyWorld
        /\ List.filter isCreateEvent later = []
        /\ forall pfmId,
             pfmId ∈ threeTargets ->
             EvCreateRequest pfmId (runStartDate emptyWorld) (runToday emptyWorld)
             ∈ w_trace w').
Proof.
  split.
  - apply (proj1 (downloadTransactions_reuse_all_or_recreate_all
                    sampleNFD asciiLowerCase sampleJSON reusePage threeAccounts
                    emptyWorld threeInfos threeTargets reuseRetained
                    ltac:(by vm_compute) ltac:(by vm_compute))).
    intros pfmId Hin. apply list_elem_of_In in Hin. vm_compute in Hin.
    repeat (destruct Hin as [<-|Hin]; [eexists; split_and!; by vm_compute|]).
    destruct Hin.
  - apply (proj2 (downloadTransactions_reuse_all_or_recreate_all
                    sampleNFD asciiLowerCase sampleJSON stalePage threeAccounts
                    emptyWorld threeInfos threeTargets staleRetained
                    ltac:(by vm_compute) ltac:(by vm_compute)) (lit "102")).
    + apply list_elem_of_In. vm_compute. tauto.
    + intros (item & Hitem & Hstart & _). vm_compute in Hitem.
      injection Hitem as <-. by vm_compute in Hstart.
Defined.

Lemma downloadTransactions_fatal_when_no_create_succeeds_witness :
  downloadTransactions sampleNFD asciiLowerCase sampleJSON
    stalePage threeAccounts emptyWorld
  = (Throw (Error fatalMessage),
     mkWorld (w_fs emptyWorld) (w_now emptyWorld)
       (createCalls threeInfos (runStartDate emptyWorld) (runToday emptyWorld)
        ++ w_trace emptyWorld)).
Proof.
  apply (proj1 (downloadTransactions_fatal_when_no_create_succeeds
                  sampleNFD asciiLowerCase sampleJSON stalePage threeAccounts
                  emptyWorld threeInfos threeTargets staleRetained
                  ltac:(by vm_compute) ltac:(by vm_compute) ltac:(by vm_compute))).
  intros tr pfmId. reflexivity.
Defined.

Lemma archive_stays_single_witness :
  exists name w',
    saveTransactionsCSV sampleNFD asciiLowerCase CAISSE_EPARGNE (lit "Livret A")
      (lit "2022-01-08") earlierExport archiveWorld
    = (Ok (path_join [getAccountDir sampleNFD asciiLowerCase CAISSE_EPARGNE
                        (lit "Livret A"); name]), w')
    /\ soleArchive w' (getAccountDir sampleNFD asciiLowerCase CAISSE_EPARGNE
                         (lit "Livret A")) name (w_now archiveWorld)
    /\ (forall old mtime,
          soleArchive archiveWorld
            (getAccountDir sampleNFD asciiLowerCase CAISSE_EPARGNE (lit "Livret A"))
            old mtime -> name = old).
Proof.
  apply (archive_stays_single sampleNFD asciiLowerCase CAISSE_EPARGNE
           (lit "Livret A") (lit "2022-01-08") earlierExport archiveWorld).
  - eexists. by vm_compute.
  - right. exists (lit "history-from-20230301.csv"), (noon - msPerDay).
    eexists _, _. split_and!; [by vm_compute..|]. eexists. by vm_compute.
Defined.

Lemma retained_request_is_first_listed_witness :
  reuseRetained !! lit "101"
  = Some (historyRequestOf "101" "r1" "2022-01-08" "2024-03-10").
Proof.
  apply (retained_request_is_first_listed threeTargets []
           (historyRequestOf "101" "r1" "2022-01-08" "2024-03-10")
           [historyRequestOf "102" "r2" "2022-01-08" "2024-03-10";
            historyRequestOf "101" "r0" "2021-01-01" "2023-03-04";
            historyRequestOf "103" "r3" "2022-01-08" "2024-03-10"]
           (lit "101") reuseRetained emptyWorld emptyWorld).
  - by vm_compute.
  - apply list_elem_of_In. vm_compute. tauto.
  - reflexivity.
  - reflexivity.
  - constructor.
Defined.

Lemma archive_filename_round_trip_witness :
  getTransactionsFilename (lit "2023-03-01") = lit "history-from-20230301.csv".
Proof.
  apply (archive_filename_round_trip (lit "history-from-20230301.csv")
           (lit "2023-03-01")).
  reflexivity.
Defined.

Example anonymous_run_example :
  resolveAuthHeader sampleJSON (pg_storageEntries anonymousPage) []
  = ([], lit "none")
  /\ fst (downloadTransactions sampleNFD asciiLowerCase sampleJSON
            anonymousPage threeAccounts emptyWorld) = Ok true.
Proof. by vm_compute. Qed.

Example resolveAuthHeader_examples :
  resolveAuthHeader sampleJSON
    [(lit "theme", lit "dark");
     (lit "session", lit "x=1; auth: bearer  abc.DEF-1 ;");
     (lit "access_token", lit "0123456789abcdef")] []
  = (lit "bearer  abc.DEF-1", lit "storage:session")
  /\ resolveAuthHeader sampleJSON
       [(lit "theme", lit "dark"); (lit "AuthToken", lit "0123456789abcdef")] []
     = (lit "Bearer 0123456789abcdef", lit "storage:AuthToken")
  /\ resolveAuthHeader sampleJSON
       [(lit "AuthToken", lit "0123456789abcdef")] (lit "Bearer seen")
     = (lit "Bearer seen", lit "request").
Proof. by vm_compute. Qed.

Example partial_run_example :
  let '(r, w') := downloadTransactions sampleNFD asciiLowerCase sampleJSON
                    partialPage threeAccounts emptyWorld in
  r = Ok true
  /\ List.filter (fun e => negb (isDownloadEffect e)) (rev (w_trace w'))
     = [EvCreateRequest (lit "101") (lit "2022-01-08") (lit "2024-03-10");
        EvCreateRequest (lit "102") (lit "2022-01-08") (lit "2024-03-10");
        EvCreateRequest (lit "103") (lit "2022-01-08") (lit "2024-03-10");
        EvListRequests;
        EvPrepareDownload (JString (lit "n1"));
        EvPrepareDownload (JString (lit "r2"))].
Proof. by vm_compute. Qed.

Lemma row_keys_order_as_calendar_witness :
  rowKey (lit "05/01/2024;a") <= rowKey (lit "20/01/2024;b")
  <-> dateLe (2024, 1, 5) (2024, 1, 20).
Proof.
  apply (row_keys_order_as_calendar (lit "20/01/2024;b") (lit "05/01/2024;a")
           (2024, 1, 20) (2024, 1, 5)); [reflexivity|reflexivity| |];
    vm_compute; intuition discriminate.
Defined.

(* ===================================================================== *)
(** * Worked examples: keyboard, balances, guards *)
(* ===================================================================== *)

(** The example of the documentation of [cleanDigitMap]: button 3 takes
    the digit 1 and button 8 the digit 2. *)
Example cleanDigitMap_example :
  cleanDigitMap docDigitMap
  = [(0%N, 0); (1%N, 8); (2%N, 7); (3%N, 1); (4%N, 4);
     (5%N, 6); (6%N, 5); (7%N, 3); (8%N, 2); (9%N, 9)]
  /\ inputPassword docReadings (lit "1290") = (Ok tt, [3%N; 8%N; 9%N; 0%N])
  /\ inputPassword [1; 2; 3] (lit "1")
     = (Throw (Error (lit "Expected 10 keyboard buttons, found 3")), []).
Proof. by vm_compute. Qed.

Example recognizeDigit_example :
  recognizeDigit (lit " l ") = Ok 1
  /\ recognizeDigit (lit "O") = Ok 0
  /\ recognizeDigit (lit "7.") = Ok 7
  /\ recognizeDigit (lit "?") = Throw (Error (ocrErrorMessage (lit "?"))).
Proof. by vm_compute. Qed.

Lemma docDigitMap_ordered : indexOrdered docDigitMap.
Proof. unfold indexOrdered. simpl. repeat constructor. Defined.

Lemma docReadings_distinct : NoDup (List.filter isValidDigit docReadings).
Proof. apply (bool_decide_unpack _). by vm_compute. Defined.

Lemma cleanDigitMap_keeps_valid_readings_witness :
  List.map fst (cleanDigitMap docDigitMap) = List.map fst docDigitMap
  /\ (forall key value,
        getIndex key docDigitMap = Some value -> isValidDigit value = true ->
        getIndex key (cleanDigitMap docDigitMap) = Some value)
  /\ (forall key value,
        getIndex key docDigitMap = Some value -> isValidDigit value = false ->
        exists digit,
          getIndex key (cleanDigitMap docDigitMap) = Some digit
          /\ (digit = -1
              \/ (isValidDigit digit = true /\ digit ∉ validReadings docDigitMap))).
Proof. exact (cleanDigitMap_keeps_valid_readings docDigitMap docDigitMap_ordered). Defined.

Lemma cleanDigitMap_bijection_witness :
  List.map snd (cleanDigitMap docDigitMap) ≡ₚ seqZ 0 10.
Proof.
  apply (cleanDigitMap_bijection docDigitMap docDigitMap_ordered).
  - reflexivity.
  - exact docReadings_distinct.
Defined.

Lemma inputPassword_types_digits_witness :
  exists clicks,
    inputPassword docReadings (lit "1290") = (Ok tt, clicks)
    /\ Forall2 (fun index char =>
                  getIndex index (keyboardOf docReadings) = parseIntChar char)
               clicks (lit "1290").
Proof.
  apply (inputPassword_types_digits docReadings (lit "1290")).
  - reflexivity.
  - exact docReadings_distinct.
  - repeat constructor.
Defined.

Lemma inputPassword_stops_at_non_digit_witness :
  exists clicks,
    inputPassword docReadings (lit "12" ++ 97%N :: lit "0")
    = (Throw (Error (lit "Digit NaN not found on virtual keyboard")), clicks)
    /\ Forall2 (fun index c =>
                  getIndex index (keyboardOf docReadings) = parseIntChar c)
               clicks (lit "12").
Proof.
  apply (inputPassword_stops_at_non_digit docReadings (lit "12") 97%N (lit "0")).
  - reflexivity.
  - exact docReadings_distinct.
  - repeat constructor.
  - reflexivity.
Defined.

Example extractBalances_example :
  extractBalances synthesisData emptyWorld
  = (Ok [mkBalance (JString (lit "Compte Courant")) (JNumber 1234);
         mkBalance (JString (lit "Carte")) (JNumber 0)], emptyWorld)
  /\ extractBalances synthesisWithoutBalance emptyWorld = (Throw TypeError, emptyWorld)
  /\ extractBalances (JObject []) emptyWorld = (Ok [], emptyWorld)
  /\ extractAccountNames synthesisData emptyWorld
     = (Ok [JString (lit "Compte Courant"); JString (lit "Account 102")], emptyWorld).
Proof. by vm_compute. Qed.

Lemma extractBalances_spec_witness :
  (Forall readableBalance synthesisItems ->
   extractBalances synthesisData emptyWorld
   = (Ok (List.map toBalance
            (List.filter (fun item => negb (isNull (balanceOf item))) synthesisItems)),
      emptyWorld))
  /\ (Exists (fun item => ~ readableBalance item) synthesisItems ->
      extractBalances synthesisData emptyWorld = (Throw TypeError, emptyWorld)).
Proof.
  apply (extractBalances_spec synthesisData synthesisItems emptyWorld). reflexivity.
Defined.

Lemma extractAccountsFromApiData_total_witness :
  extractAccountsFromApiData synthesisData emptyWorld
  = (Ok (List.map toApiAccount
           (List.filter (fun item => truthy (contractPfmIdOf item)) synthesisItems)),
     emptyWorld)
  /\ Forall (fun a => truthy (aa_accountName a) = true)
            (List.map toApiAccount
               (List.filter (fun item => truthy (contractPfmIdOf item)) synthesisItems)).
Proof.
  apply (extractAccountsFromApiData_total synthesisData synthesisItems emptyWorld).
  - reflexivity.
  - repeat constructor.
Defined.

(** The guard of the balances reads the snapshot of the greatest name:
    yesterday's here, so the balances are not fresh; they are after a
    save. *)
Example balances_guard_example :
  hasBalancesForToday sampleSnapshotParse CAISSE_EPARGNE balancesWorld
  = (Ok false, balancesWorld)
  /\ hasBalancesForToday sampleSnapshotParse CAISSE_EPARGNE emptyWorld
     = (Ok false, emptyWorld)
  /\ fst (saveBalances sampleStringify CAISSE_EPARGNE (JArray []) balancesWorld)
     = Ok (lit "data/balances/ce/2024-03-10.json")
  /\ fst (hasBalancesForToday sampleSnapshotParse CAISSE_EPARGNE
            (snd (saveBalances sampleStringify CAISSE_EPARGNE (JArray []) balancesWorld)))
     = Ok true.
Proof. by vm_compute. Qed.

Lemma saveBalances_then_fresh_witness :
  exists w',
    saveBalances sampleStringify CAISSE_EPARGNE (JArray []) balancesWorld
    = (Ok (path_join [getBalancesDir CAISSE_EPARGNE;
                      getBalancesFilename (toISODate (w_now balancesWorld))]), w')
    /\ hasBalancesForToday sampleSnapshotParse CAISSE_EPARGNE w' = (Ok true, w').
Proof.
  apply (saveBalances_then_fresh sampleSnapshotParse sampleStringify CAISSE_EPARGNE
           (JArray []) balancesWorld
           (JObject [(lit "date", JString (lit "2024-03-10"))])).
  - intros entries n Hdir Hn. vm_compute in Hdir. injection Hdir as <-.
    apply list_elem_of_In in Hn. vm_compute in Hn.
    destruct Hn as [<-|[<-|[]]]; vm_compute; discriminate.
  - reflexivity.
  - reflexivity.
Defined.

Example cleanupTempDir_example :
  let '(r, w') := cleanupTempDir tempWorld in
  r = Ok tt
  /\ w_fs w' !! lit "data/.temp" = Some []
  /\ w_fs w' !! lit "data/balances/ce" = w_fs tempWorld !! lit "data/balances/ce"
  /\ cleanupTempDir emptyWorld = (Ok tt, emptyWorld).
Proof. by vm_compute. Qed.

Lemma archive_name_round_trip_witness :
  parseTransactionsFilename (getTransactionsFilename (lit "2022-01-08"))
  = Some (lit "2022-01-08").
Proof. apply (archive_name_round_trip (lit "2022-01-08")). reflexivity. Defined.

Lemma saveTransactionsCSV_then_fresh_witness :
  exists filePath w',
    saveTransactionsCSV sampleNFD asciiLowerCase CAISSE_EPARGNE (lit "Livret A")
      (lit "2022-01-08") earlierExport emptyWorld = (Ok filePath, w')
    /\ hasTransactionsForToday sampleNFD asciiLowerCase CAISSE_EPARGNE
         [lit "Livret A"] w' = (Ok true, w').
Proof.
  apply (saveTransactionsCSV_then_fresh sampleNFD asciiLowerCase CAISSE_EPARGNE
           (lit "Livret A") (lit "2022-01-08") earlierExport emptyWorld).
  - reflexivity.
  - left. by vm_compute.
Defined.

Lemma downloadTransactions_skips_when_fresh_witness :
  downloadTransactions sampleNFD asciiLowerCase sampleJSON reusePage livretOnly
    freshWorld
  = (Ok false, freshWorld).
Proof.
  apply (downloadTransactions_skips_when_fresh sampleNFD asciiLowerCase sampleJSON
           reusePage livretOnly freshWorld).
  constructor; [|constructor].
  exists (mkInfo (lit "Livret A") CAISSE_EPARGNE (lit "2023-03-01")
            (lit "data/transactions/ce/livret_a") (lit "history-from-20230301.csv")
            noon).
  split; by vm_compute.
Defined.

(** Without accounts in the response the run reports the archives as up
    to date. *)
Example downloadTransactions_no_accounts :
  downloadTransactions sampleNFD asciiLowerCase sampleJSON reusePage [] emptyWorld
  = (Ok false, emptyWorld).
Proof. by vm_compute. Qed.

Lemma storage_header_has_bearer_scheme_witness :
  hasBearerPrefix
    (fst (resolveAuthHeader sampleJSON [(lit "AuthToken", lit "0123456789abcdef")] []))
  = true
  /\ (if hasBearerPrefix (lit "0123456789abcdef")
      then fst (resolveAuthHeader sampleJSON
                  [(lit "AuthToken", lit "0123456789abcdef")] [])
           = lit "0123456789abcdef"
      else fst (resolveAuthHeader sampleJSON
                  [(lit "AuthToken", lit "0123456789abcdef")] [])
           = lit "Bearer " ++ lit "0123456789abcdef")
  /\ buildAuthorizationHeader
       (Some (fst (resolveAuthHeader sampleJSON
                     [(lit "AuthToken", lit "0123456789abcdef")] [])))
     = fst (resolveAuthHeader sampleJSON [(lit "AuthToken", lit "0123456789abcdef")] []).
Proof.
  apply (storage_header_has_bearer_scheme sampleJSON
           [(lit "AuthToken", lit "0123456789abcdef")]
           (lit "0123456789abcdef") (lit "AuthToken")).
  reflexivity.
Defined.

(** "Livret A" and "Livret A " (with a space at the end) are filed under
    different directories. *)
Example sanitizeName_outer_space_example :
  sanitizeName sampleNFD asciiLowerCase (lit "Livret A") = lit "livret_a"
  /\ sanitizeName sampleNFD asciiLowerCase (lit "Livret A ") = lit "livret_a_"
  /\ sanitizeName sampleNFD asciiLowerCase (lit "Account_102") = lit "account102".
Proof. by vm_compute. Qed.

Lemma sanitizeName_never_trims_witness :
  sanitizeName sampleNFD asciiLowerCase (lit " Livret A ")
  = List.map lowerAscii (sanitizeCore false (sampleNFD (lit " Livret A ")))
  /\ (forall c rest,
        sampleNFD (lit " Livret A ") = c :: rest -> isWhiteSpace c = true ->
        exists t, sanitizeName sampleNFD asciiLowerCase (lit " Livret A ") = 95%N :: t)
  /\ (forall front c,
        sampleNFD (lit " Livret A ") = front ++ [c] -> isWhiteSpace c = true ->
        exists t, sanitizeName sampleNFD asciiLowerCase (lit " Livret A ") = t ++ [95%N]).
Proof.
  exact (sanitizeName_never_trims sampleNFD asciiLowerCase asciiLowerCase_ascii
           (lit " Livret A ")).
Defined.

Lemma window_start_names_an_archive_witness :
  exists startDate,
    getDateDaysAgo maxDaysBack emptyWorld = (Ok startDate, emptyWorld)
    /\ isISODate startDate = true
    /\ parseTransactionsFilename (getTransactionsFilename startDate) = Some startDate.
Proof.
  apply (window_start_names_an_archive maxDaysBack emptyWorld).
  vm_compute. split; discriminate.
Defined.

